(** * github_deploy_repo: a shallow embedding and its properties

    The development follows [src/github_deploy_repo.py] function by
    function, under the names of the source.

    - Python strings are byte strings ([string]); upper and lower case,
      white space and the length of a string are those of ASCII.
    - The file system is a finite map from absolute, normalised path names
      to nodes.  Every call resolves its path against the working directory
      first.  A symbolic link is followed at the last component of a path
      only; a directory can be read-only; [shutil.rmtree] that fails leaves
      the tree as it was.
    - The exceptions are values of [exn]; only [Exception] and its
      subclasses occur.
    - Functions with side effects run in a state-and-exception monad over
      [world]: the files, the status table, the clock and a record of the
      calls made, which the statements below read and the program does not.
      The connector to the status table does not fail.
    - What the program obtains from outside (the working directory, the
      shell, the archive extractor, the JSON decoder, the regular-expression
      engine, the local-time formatter) is a field of the record [env].
    - [print] calls are omitted. *)

From Stdlib Require Import ZArith QArith Ascii String DecimalString.
From stdpp Require Import base option list strings gmap.

Set Default Proof Using "Type".
Set Warnings "-register-all".

(** ** Python strings *)

Module Str.

Definition eqb (a b : string) : bool := String.eqb a b.

(** [s.startswith(p)] *)
Fixpoint startswith (s p : string) : bool :=
  match p, s with
  | EmptyString, _ => true
  | String _ _, EmptyString => false
  | String a p', String b s' => Ascii.eqb a b && startswith s' p'
  end.

(** [s.endswith("/")], the only use of [endswith] in [posixpath.join] *)
Fixpoint endswith_char (s : string) (c : ascii) : bool :=
  match s with
  | EmptyString => false
  | String a EmptyString => Ascii.eqb a c
  | String _ s' => endswith_char s' c
  end.

(** [p in s] for strings *)
Fixpoint contains (s p : string) : bool :=
  startswith s p ||
  match s with
  | EmptyString => false
  | String _ s' => contains s' p
  end.

(** [c in s] for a single character *)
Fixpoint has_char (c : ascii) (s : string) : bool :=
  match s with
  | EmptyString => false
  | String a s' => Ascii.eqb a c || has_char c s'
  end.

(** [s.index(c)] where it is defined *)
Fixpoint index_char (c : ascii) (s : string) : option nat :=
  match s with
  | EmptyString => None
  | String a s' =>
      if Ascii.eqb a c then Some 0
      else match index_char c s' with Some i => Some (S i) | None => None end
  end.

(** [s[n:]] and [s[:n]] *)
Fixpoint drop (n : nat) (s : string) : string :=
  match n, s with
  | O, _ => s
  | S _, EmptyString => EmptyString
  | S n', String _ s' => drop n' s'
  end.

Fixpoint take (n : nat) (s : string) : string :=
  match n, s with
  | O, _ => EmptyString
  | S _, EmptyString => EmptyString
  | S n', String a s' => String a (take n' s')
  end.

(** [s[:-n]] for [n > 0] *)
Definition drop_end (n : nat) (s : string) : string :=
  take (String.length s - n) s.

Fixpoint replicate (n : nat) (c : ascii) : string :=
  match n with
  | O => EmptyString
  | S n' => String c (replicate n' c)
  end.

(** [s.replace(old, new)]: every non-overlapping occurrence, left to right.
    [skip] counts the characters of the current occurrence still to pass. *)
Fixpoint replace_from (old new : string) (skip : nat) (s : string) : string :=
  match s with
  | EmptyString => EmptyString
  | String c s' =>
      match skip with
      | S k => replace_from old new k s'
      | O =>
          if startswith s old
          then new +:+ replace_from old new (String.length old - 1) s'
          else String c (replace_from old new 0 s')
      end
  end.

(** With an empty [old], Python inserts [new] before every character and at
    the end. *)
Fixpoint intersperse (new : string) (s : string) : string :=
  match s with
  | EmptyString => new
  | String c s' => new +:+ String c (intersperse new s')
  end.

Definition replace (s old new : string) : string :=
  match old with
  | EmptyString => intersperse new s
  | _ => replace_from old new 0 s
  end.

(** [s.split(sep)] for a one-character separator *)
Fixpoint split (sep : ascii) (s : string) : list string :=
  match s with
  | EmptyString => [EmptyString]
  | String c s' =>
      if Ascii.eqb c sep then EmptyString :: split sep s'
      else match split sep s' with
           | h :: t => String c h :: t
           | [] => [String c EmptyString]
           end
  end.

(** [sep.join(l)] *)
Fixpoint join (sep : string) (l : list string) : string :=
  match l with
  | [] => EmptyString
  | [x] => x
  | x :: l' => x +:+ sep +:+ join sep l'
  end.

(** [s.rstrip(c)] *)
Fixpoint rstrip (c : ascii) (s : string) : string :=
  match s with
  | EmptyString => EmptyString
  | String a s' =>
      match rstrip c s' with
      | EmptyString => if Ascii.eqb a c then EmptyString else String a EmptyString
      | r => String a r
      end
  end.

Fixpoint all_char (c : ascii) (s : string) : bool :=
  match s with
  | EmptyString => true
  | String a s' => Ascii.eqb a c && all_char c s'
  end.

(** [s.lower()] on ASCII letters *)
Definition lower_char (c : ascii) : ascii :=
  let n := nat_of_ascii c in
  if (65 <=? n)%nat && (n <=? 90)%nat then ascii_of_nat (n + 32) else c.

Fixpoint lower (s : string) : string :=
  match s with
  | EmptyString => EmptyString
  | String c s' => String (lower_char c) (lower s')
  end.

(** [s.center(width)] with the space as fill character; CPython puts the
    odd padding cell on the left exactly when the width is odd too. *)
Definition center (width : nat) (s : string) : string :=
  let n := String.length s in
  if (width <=? n)%nat then s
  else
    let marg := width - n in
    let left := marg / 2 + (if Nat.odd marg && Nat.odd width then 1 else 0) in
    replicate left " "%char +:+ s +:+ replicate (marg - left) " "%char.

(** ["%d" % z] *)
Definition of_Z (z : Z) : string := NilZero.string_of_int (Z.to_int z).

End Str.

(** ** Exceptions and results *)

(** The exception classes the program raises itself or receives from the
    interpreter and the operating system.  [Exception msg] is the program's
    own [raise Exception(msg)]. *)
Inductive exn : Type :=
  | Exception (msg : string)
  | TypeError
  | AttributeError
  | KeyError (key : string)
  | ValueError
  | FileNotFoundError (path : string)
  | FileExistsError (path : string)
  | IsADirectoryError (path : string)
  | NotADirectoryError (path : string)
  | PermissionError (path : string)
  | SameFileError (path : string)
  | OSError (msg : string)
  | CalledProcessError (cmd : string)
  | TimeoutExpired (cmd : string).

Inductive result (A : Type) : Type :=
  | Ok (a : A)
  | Raise (e : exn).
Arguments Ok {A} a.
Arguments Raise {A} e.

Definition is_ok {A} (r : result A) : bool :=
  match r with Ok _ => true | Raise _ => false end.

(** ** Decoded JSON values *)

(** A Python float as [json.loads] can produce it. *)
Inductive pyfloat : Type :=
  | FNan
  | FInf (negative : bool)
  | FNum (q : Q).

(** The value of [json.loads]: a [dict] keeps its keys in document order. *)
Inductive json : Type :=
  | JNull
  | JBool (b : bool)
  | JInt (n : Z)
  | JFloat (x : pyfloat)
  | JStr (s : string)
  | JList (l : list json)
  | JDict (d : list (string * json)).

(** [d.get(k)] / [k in d] on the items of a dict *)
Fixpoint dict_get (k : string) (d : list (string * json)) : option json :=
  match d with
  | [] => None
  | (k', v) :: d' => if Str.eqb k' k then Some v else dict_get k d'
  end.

Definition dict_has (k : string) (d : list (string * json)) : bool :=
  match dict_get k d with Some _ => true | None => false end.

(** [row[k]] *)
Definition dict_item (k : string) (d : list (string * json)) : result json :=
  match dict_get k d with
  | Some v => Ok v
  | None => Raise (KeyError k)
  end.

(** [x == s] for a decoded value [x] and a string [s] *)
Definition json_eq_str (x : json) (s : string) : bool :=
  match x with
  | JStr s' => Str.eqb s' s
  | _ => false
  end.

(** ** The file system *)

(** A directory carries its write permission: entries can be created in it
    or removed from it only when it is writable.  Every directory component
    of a path is a real directory; only the last component may be a
    symbolic link. *)
Inductive node : Type :=
  | File (content : string)
  | Dir (writable : bool)
  | Link (target : string).

(** One row of the table [github_deploy_repo]. *)
Record repo_row : Type := mk_repo_row {
  row_commit : string;
  row_datetime : Z;
  row_status : Z
}.

(** Calls the program makes, recorded in order for the statements below;
    the program itself never reads them. *)
Inductive event : Type :=
  | EvDeploy (owner name : string)
  | EvAction (kind : string)
  | EvTeardown
  | EvStatus (repo : string) (status : Z).

Record world : Type := mk_world {
  fs : gmap string node;
  db : gmap string repo_row;
  clock : Z;
  trace : list event
}.

(** What the program obtains from outside. *)
Record env : Type := mk_env {
  (** [os.getcwd()] *)
  cwd : string;
  (** a shell command run by [subprocess]: its output, or the exception
      [check_call] / [check_output] raises, and its effect on the files *)
  shell : string -> gmap string node -> result string * gmap string node;
  (** [extractor.Extractor.extract(name, tmpdir)] *)
  extract : string -> string -> gmap string node -> result unit * gmap string node;
  (** [json.loads] *)
  json_loads : string -> result json;
  (** [re.match(pattern, s) is not None], or the exception [re] raises *)
  re_match : string -> string -> result bool;
  (** [datetime.datetime.fromtimestamp(t).isoformat(' ')] *)
  isoformat : Z -> string;
  (** the directories [glob] expands a directory name with wildcards to *)
  glob_dirs : gmap string node -> string -> list string
}.

(** ** The state-and-exception monad *)

Definition M (A : Type) : Type := world -> result A * world.

Definition ret {A} (a : A) : M A := fun w => (Ok a, w).
Definition raise {A} (e : exn) : M A := fun w => (Raise e, w).
Definition bind {A B} (m : M A) (k : A -> M B) : M B :=
  fun w =>
    match m w with
    | (Ok a, w') => k a w'
    | (Raise e, w') => (Raise e, w')
    end.
Definition lift {A} (r : result A) : M A := fun w => (r, w).

(** [try: m except Exception as ex: ...]: the outcome becomes a value. *)
Definition try {A} (m : M A) : M (result A) :=
  fun w => let (r, w') := m w in (Ok r, w').

Definition get_fs : M (gmap string node) := fun w => (Ok (fs w), w).
Definition set_fs (f : gmap string node) : M unit :=
  fun w => (Ok tt, mk_world f (db w) (clock w) (trace w)).
Definition log (e : event) : M unit :=
  fun w => (Ok tt, mk_world (fs w) (db w) (clock w) (trace w ++ [e])).

(** An operation on the files alone, run in the monad. *)
Definition on_fs {A} (op : gmap string node -> result A * gmap string node) : M A :=
  fun w =>
    let (r, f) := op (fs w) in
    (r, mk_world f (db w) (clock w) (trace w)).

Declare Scope py_scope.
Delimit Scope py_scope with py.
Notation "x <- m ;; k" := (bind m (fun x => k))
  (at level 100, m at next level, right associativity) : py_scope.
Notation "m ;; k" := (bind m (fun _ => k))
  (at level 100, right associativity) : py_scope.

(** [for x in l: body x] *)
Fixpoint for_each {A} (l : list A) (body : A -> M unit) : M unit :=
  match l with
  | [] => ret tt
  | x :: l' => bind (body x) (fun _ => for_each l' body)
  end.

(** The same monad without state, for the functions that only compute. *)
Definition rbind {A B} (r : result A) (k : A -> result B) : result B :=
  match r with
  | Ok a => k a
  | Raise e => Raise e
  end.

(** ** posixpath *)

Module Path.

Definition isabs (p : string) : bool := Str.startswith p "/".

(** [os.path.join(a, b)] *)
Definition join (a b : string) : string :=
  if Str.startswith b "/" then b
  else if Str.eqb a "" || Str.endswith_char a "/" then a +:+ b
  else a +:+ "/" +:+ b.

(** [(p[:i], p[i:])] for [i = p.rfind('/') + 1] *)
Fixpoint split_last (p : string) : string * string :=
  match p with
  | EmptyString => (EmptyString, EmptyString)
  | String c p' =>
      match split_last p' with
      | (EmptyString, t) =>
          if Ascii.eqb c "/" then ("/", t) else (EmptyString, String c t)
      | (h, t) => (String c h, t)
      end
  end.

(** [os.path.split(p)] *)
Definition split (p : string) : string * string :=
  let (head, tail) := split_last p in
  if negb (Str.eqb head "") && negb (Str.all_char "/" head)
  then (Str.rstrip "/" head, tail)
  else (head, tail).

Definition is_nil {A} (l : list A) : bool :=
  match l with [] => true | _ => false end.

(** One round of the loop of [normpath] over the components. *)
Definition normpath_step (initial_slashes : nat) (new_comps : list string)
    (comp : string) : list string :=
  if Str.eqb comp "" || Str.eqb comp "." then new_comps
  else if negb (Str.eqb comp "..")
          || ((initial_slashes =? 0)%nat && is_nil new_comps)
          || (negb (is_nil new_comps) && Str.eqb (List.last new_comps "") "..")
  then new_comps ++ [comp]
  else removelast new_comps.

(** [os.path.normpath(path)] *)
Definition normpath (path : string) : string :=
  if Str.eqb path "" then "."
  else
    let initial_slashes :=
      if Str.startswith path "/"
      then if Str.startswith path "//" && negb (Str.startswith path "///")
           then 2 else 1
      else 0 in
    let comps :=
      fold_left (normpath_step initial_slashes) (Str.split "/" path) [] in
    let path' := Str.replicate initial_slashes "/" +:+ Str.join "/" comps in
    if Str.eqb path' "" then "." else path'.

(** [os.path.abspath(path)] in the working directory [wd] *)
Definition abspath (wd path : string) : string :=
  normpath (if isabs path then path else join wd path).

End Path.

(** ** os, shutil and glob on the modelled file system *)

Abbreviation files := (gmap string node).

Module OS.
Section Calls.

(** the working directory every relative path is resolved against *)
Variable wd : string.

(** Follow symbolic links at the last component, at most [fuel] of them. *)
Fixpoint follow (fuel : nat) (f : files) (p : string) : option string :=
  match f !! p with
  | Some (Link t) =>
      match fuel with
      | O => None
      | S k => follow k f (Path.abspath (fst (Path.split p)) t)
      end
  | _ => Some p
  end.

(** [os.stat]: the node a path leads to, links followed *)
Definition stat (f : files) (p : string) : option node :=
  match follow 40 f (Path.abspath wd p) with
  | Some q => f !! q
  | None => None
  end.

Definition exists_ (f : files) (p : string) : bool :=
  match stat f p with Some _ => true | None => false end.

Definition isfile (f : files) (p : string) : bool :=
  match stat f p with Some (File _) => true | _ => false end.

Definition isdir (f : files) (p : string) : bool :=
  match stat f p with Some (Dir _) => true | _ => false end.

Definition islink (f : files) (p : string) : bool :=
  match f !! Path.abspath wd p with Some (Link _) => true | _ => false end.

(** May an entry named [a] (absolute) be created or removed?  The directory
    holding it has to exist and to be writable. *)
Definition parent_writable (f : files) (a : string) : result bool :=
  match stat f (fst (Path.split a)) with
  | Some (Dir w) => Ok w
  | Some _ => Raise (NotADirectoryError a)
  | None => Raise (FileNotFoundError a)
  end.

(** [os.mkdir(p)] *)
Definition mkdir (p : string) (f : files) : result unit * files :=
  let a := Path.abspath wd p in
  match parent_writable f a with
  | Raise e => (Raise e, f)
  | Ok w =>
      match f !! a with
      | Some _ => (Raise (FileExistsError a), f)
      | None =>
          if w then (Ok tt, <[a := Dir true]> f)
          else (Raise (PermissionError a), f)
      end
  end.

(** [os.makedirs(name, exist_ok=exist_ok)].  The recursion is on the head of
    the name, which is shorter than the name; [fuel] bounds it. *)
Fixpoint makedirs_fuel (fuel : nat) (name : string) (exist_ok : bool)
    (f : files) : result unit * files :=
  match fuel with
  | O => (Raise (OSError "makedirs"), f)
  | S k =>
      let (head0, tail0) := Path.split name in
      let (head, tail) :=
        if Str.eqb tail0 "" then Path.split head0 else (head0, tail0) in
      let make (f : files) :=
        match mkdir name f with
        | (Raise e, f') =>
            if negb exist_ok || negb (isdir f' name) then (Raise e, f')
            else (Ok tt, f')
        | r => r
        end in
      if negb (Str.eqb head "") && negb (Str.eqb tail "")
         && negb (exists_ f head)
      then
        match makedirs_fuel k head exist_ok f with
        | (Ok _, f') | (Raise (FileExistsError _), f') =>
            if Str.eqb tail "." then (Ok tt, f') else make f'
        | (Raise e, f') => (Raise e, f')
        end
      else make f
  end.

Definition makedirs (name : string) (exist_ok : bool) (f : files)
    : result unit * files :=
  makedirs_fuel (S (String.length name)) name exist_ok f.

(** [open(p, 'rb').read()] *)
Definition read_file (p : string) (f : files) : result string :=
  let a := Path.abspath wd p in
  match follow 40 f a with
  | None => Raise (OSError "too many levels of symbolic links")
  | Some q =>
      match f !! q with
      | Some (File c) => Ok c
      | Some (Dir _) => Raise (IsADirectoryError a)
      | _ => Raise (FileNotFoundError a)
      end
  end.

(** [open(p, 'wb')] followed by writing [c] and closing *)
Definition write_file (p : string) (c : string) (f : files)
    : result unit * files :=
  let a := Path.abspath wd p in
  match follow 40 f a with
  | None => (Raise (OSError "too many levels of symbolic links"), f)
  | Some q =>
      match f !! q with
      | Some (Dir _) => (Raise (IsADirectoryError a), f)
      | Some _ => (Ok tt, <[q := File c]> f)
      | None =>
          match parent_writable f q with
          | Raise e => (Raise e, f)
          | Ok true => (Ok tt, <[q := File c]> f)
          | Ok false => (Raise (PermissionError a), f)
          end
      end
  end.

(** [os.path.samefile] where both paths exist, [False] otherwise *)
Definition samefile (f : files) (p q : string) : bool :=
  match follow 40 f (Path.abspath wd p), follow 40 f (Path.abspath wd q) with
  | Some p', Some q' =>
      Str.eqb p' q' && (match f !! p' with Some _ => true | None => false end)
  | _, _ => false
  end.

(** [shutil.copy(src, dst)] *)
Definition copy (src dst : string) (f : files) : result unit * files :=
  let dst :=
    if isdir f dst then Path.join dst (snd (Path.split src)) else dst in
  if samefile f src dst then (Raise (SameFileError src), f)
  else
    match read_file src f with
    | Raise e => (Raise e, f)
    | Ok c => write_file dst c f
    end.

(** [os.remove(p)] *)
Definition remove (p : string) (f : files) : result unit * files :=
  let a := Path.abspath wd p in
  match f !! a with
  | None => (Raise (FileNotFoundError a), f)
  | Some (Dir _) => (Raise (IsADirectoryError a), f)
  | Some _ =>
      match parent_writable f a with
      | Raise e => (Raise e, f)
      | Ok true => (Ok tt, delete a f)
      | Ok false => (Raise (PermissionError a), f)
      end
  end.

(** [os.symlink(src, dst)]: create the link [dst] pointing to [src] *)
Definition symlink (src dst : string) (f : files) : result unit * files :=
  let a := Path.abspath wd dst in
  match parent_writable f a with
  | Raise e => (Raise e, f)
  | Ok w =>
      match f !! a with
      | Some _ => (Raise (FileExistsError a), f)
      | None =>
          if w then (Ok tt, <[a := Link src]> f)
          else (Raise (PermissionError a), f)
      end
  end.

(** Is [k] the directory [a] or a path below it? *)
Definition under (a k : string) : bool :=
  Str.eqb k a
  || Str.startswith k (if Str.endswith_char a "/" then a else a +:+ "/").

(** The name of [k] inside the directory [a], when [k] is an entry of it.
    The entries [.] and [..] are never listed. *)
Definition child_name (a k : string) : option string :=
  let base := if Str.endswith_char a "/" then a else a +:+ "/" in
  if Str.startswith k base then
    let n := Str.drop (String.length base) k in
    if Str.eqb n "" || Str.has_char "/" n || Str.eqb n "." || Str.eqb n ".."
    then None else Some n
  else None.

(** [os.listdir(d)], or the empty list where [os.scandir] fails *)
Definition listdir (f : files) (d : string) : list string :=
  match follow 40 f (Path.abspath wd d) with
  | Some a =>
      match f !! a with
      | Some (Dir _) => omap (fun kv => child_name a (fst kv)) (map_to_list f)
      | _ => []
      end
  | None => []
  end.

(** Every entry below [a] sits in a writable directory. *)
Definition removable (f : files) (a : string) : bool :=
  forallb
    (fun kv =>
       negb (under a (fst kv)) ||
       match parent_writable f (fst kv) with Ok true => true | _ => false end)
    (map_to_list f).

(** [shutil.rmtree(p)].  Where a removal is refused the tree is left as it
    was. *)
Definition rmtree (p : string) (f : files) : result unit * files :=
  let a := Path.abspath wd p in
  match f !! a with
  | Some (Link _) => (Raise (OSError "Cannot call rmtree on a symbolic link"), f)
  | None => (Raise (FileNotFoundError a), f)
  | Some (File _) => (Raise (NotADirectoryError a), f)
  | Some (Dir _) =>
      if removable f a
      then (Ok tt, filter (fun kv => under a (fst kv) = false) f)
      else (Raise (PermissionError a), f)
  end.

(** [os.rename(src, dst)] of a file or a whole directory onto a free name *)
Definition rename (src dst : string) (f : files) : result unit * files :=
  let a := Path.abspath wd src in
  let b := Path.abspath wd dst in
  match f !! a with
  | None => (Raise (FileNotFoundError a), f)
  | Some _ =>
      match parent_writable f a, parent_writable f b with
      | Raise e, _ | _, Raise e => (Raise e, f)
      | Ok wa, Ok wb =>
          if negb (wa && wb) then (Raise (PermissionError a), f)
          else if negb (Path.is_nil (omap (fun kv =>
                    if under b (fst kv) then Some tt else None) (map_to_list f)))
          then (Raise (FileExistsError b), f)
          else
            (Ok tt,
             list_to_map
               (List.map
                  (fun kv : string * node =>
                     if under a (fst kv)
                     then (b +:+ Str.drop (String.length a) (fst kv), snd kv)
                     else kv)
                  (map_to_list f)))
      end
  end.

(** [shutil.move(src, dst)] within one file system *)
Definition move (src dst : string) (f : files) : result unit * files :=
  if isdir f dst then
    if samefile f src dst then rename src dst f
    else
      let real_dst := Path.join dst (snd (Path.split (Str.rstrip "/" src))) in
      if exists_ f real_dst
      then (Raise (OSError "Destination path already exists"), f)
      else rename src real_dst f
  else rename src dst f.

(** [glob]'s test for wildcard characters *)
Definition has_magic (s : string) : bool :=
  Str.has_char "*" s || Str.has_char "?" s || Str.has_char "[" s.

(** [glob]'s test for hidden names *)
Definition ishidden (name : string) : bool := Str.startswith name ".".

(** [glob.glob(os.path.join(dir, '*'))]: the pattern [*] matches every name
    that is not hidden; a directory name with wildcards is expanded first,
    by [expand]. *)
Definition glob_star (expand : files -> string -> list string) (f : files)
    (dir : string) : list string :=
  let pathname := Path.join dir "*" in
  let dirname := fst (Path.split pathname) in
  let dirs :=
    if negb (Str.eqb dirname pathname) && has_magic dirname
    then expand f dirname else [dirname] in
  flat_map
    (fun d =>
       List.map (Path.join d)
         (List.filter (fun n => negb (ishidden n)) (listdir f d)))
    dirs.

End Calls.
End OS.

(** ** Text files *)

Definition nl : string := String (ascii_of_nat 10) EmptyString.
Definition cr : ascii := ascii_of_nat 13.
Definition lf : ascii := ascii_of_nat 10.

(** Reading in text mode turns every line ending into a line feed. *)
Fixpoint universal_newlines (s : string) : string :=
  match s with
  | EmptyString => EmptyString
  | String c s' =>
      if Ascii.eqb c cr then
        match s' with
        | String d s'' =>
            if Ascii.eqb d lf then String lf (universal_newlines s'')
            else String lf (universal_newlines s')
        | EmptyString => String lf EmptyString
        end
      else String c (universal_newlines s')
  end.

(** [readlines] of a text already read: lines keep their line feed. *)
Fixpoint readlines (s : string) : list string :=
  match s with
  | EmptyString => []
  | String c s' =>
      if Ascii.eqb c lf then String c EmptyString :: readlines s'
      else match readlines s' with
           | [] => [String c EmptyString]
           | l :: ls => String c l :: ls
           end
  end.

Fixpoint concat_str (l : list string) : string :=
  match l with
  | [] => EmptyString
  | x :: l' => x +:+ concat_str l'
  end.

Fixpoint mapM {A B} (f : A -> result B) (l : list A) : result (list B) :=
  match l with
  | [] => Ok []
  | x :: l' =>
      rbind (f x) (fun y => rbind (mapM f l') (fun ys => Ok (y :: ys)))
  end.

(** ** The program *)

(** The tuple [get_file] returns: [(absname, path, name, ext)], read in the
    source by index. *)
Record fdesc : Type := mk_fdesc {
  f_abs : string;   (* [0] *)
  f_dir : string;   (* [1] *)
  f_name : string;  (* [2] *)
  f_ext : string    (* [3] *)
}.

Definition HEADER_WIDTH : nat := 55.
Definition HEADER_LINES : list string := [
  " ____   ___    _   _  ___ _____   _____ ____ ___ _____ ";
  "|  _ \ / _ \  | \ | |/ _ \_   _| | ____|  _ \_ _|_   _|";
  "| | | | | | | |  \| | | | || |   |  _| | | | | |  | |  ";
  "| |_| | |_| | | |\  | |_| || |   | |___| |_| | |  | |  ";
  "|____/ \___/  |_| \_|\___/ |_|   |_____|____/___| |_|  "
].

Section Program.

Variable E : env.

Local Open Scope py_scope.

Definition sh (cmd : string) : M string := on_fs (shell E cmd).

(** The loop of [get_substituted_path] over [substitutions.items()]. *)
Fixpoint substitute_items (path : string) (items : list (string * json))
    : result string :=
  match items with
  | [] => Ok path
  | (key, value) :: rest =>
      let pattern := "[[" +:+ key +:+ "]]" in
      if Str.contains path pattern then
        match value with
        | JStr v => substitute_items (Str.replace path pattern v) rest
        | _ => Raise TypeError
        end
      else substitute_items path rest
  end.

Definition get_substituted_path (path : string) (substitutions : json)
    : result string :=
  match substitutions with
  | JDict items => substitute_items path items
  | _ => Raise AttributeError
  end.

Definition get_file (name : string) (path : option string)
    (substitutions : json) : result fdesc :=
  rbind (get_substituted_path name substitutions) (fun new_name =>
  let name := new_name in
  let name :=
    match path with
    | Some p => Path.join p name
    | None => name
    end in
  let absname := Path.abspath (cwd E) name in
  let (path, name) := Path.split absname in
  let ext :=
    if Str.has_char "." name then
      match Str.index_char "." name with
      | Some i => Str.drop (i + 1) name
      | None => EmptyString
      end
    else EmptyString in
  Ok (mk_fdesc absname path name ext)).

(** [get_file] on a field of the decoded document.  A name that is not a
    string never comes through: [pattern in name] or [name.replace] fails
    inside [get_substituted_path], or else [os.path] rejects the name. *)
Definition get_file_value (name : json) (path : option string)
    (substitutions : json) : result fdesc :=
  match name with
  | JStr s => get_file s path substitutions
  | _ =>
      match substitutions with
      | JDict items =>
          let hit (kv : string * json) :=
            let pattern := "[[" +:+ fst kv +:+ "]]" in
            match name with
            | JList l => existsb (fun x => json_eq_str x pattern) l
            | JDict d => dict_has pattern d
            | _ => false
            end in
          match name with
          | JList _ | JDict _ =>
              if existsb hit items then Raise AttributeError else Raise TypeError
          | _ => Raise TypeError
          end
      | _ => Raise AttributeError
      end
  end.

Definition check_file (abspath path : string) : result unit :=
  rbind (get_file path None (JDict [])) (fun d =>
  let source_dir := f_abs d in
  if negb (Str.startswith abspath source_dir)
  then Raise (Exception ("file [" +:+ abspath +:+ "] is not inside ["
                         +:+ source_dir +:+ "]"))
  else Ok tt).

(** The comment syntax for an extension: [(pre_block, post_block, pre_line,
    post_line)].  The last test of the source is [ext in ('php')], a test
    against the string ['php'], hence for a substring of it. *)
Definition header_style (ext : string)
    : option (string * string * string * string) :=
  let blanks := nl +:+ nl +:+ nl in
  if existsb (Str.eqb ext) ["html"; "xml"]
  then Some ("<!--" +:+ nl, "-->" +:+ nl +:+ blanks, "", "")
  else if existsb (Str.eqb ext)
            ["js"; "min.js"; "css"; "c"; "cpp"; "h"; "hpp"; "java"]
  then Some ("/*" +:+ nl, "*/" +:+ nl +:+ blanks, "", "")
  else if existsb (Str.eqb ext) ["py"; "r"; "coffee"; "htaccess"]
  then Some ("", blanks, "# ", " #")
  else if Str.contains "php" ext
  then Some ("<?php /*" +:+ nl, "*/" +:+ nl +:+ blanks +:+ "?>", "", "")
  else None.

(** The lines of the header: the banner, then the centred metadata. *)
Definition header_lines (repo_link commit : string) (t : Z) : list string :=
  let dt := isoformat E t in
  let lines := [
    "";
    "Automatically generated from sources at:";
    repo_link;
    "";
    "Commit hash: " +:+ commit;
    "Deployed at: " +:+ dt +:+ " (" +:+ Str.of_Z t +:+ ")"
  ] in
  HEADER_LINES ++ List.map (Str.center HEADER_WIDTH) lines.

(** The lines of the header as they are written, each between [pre_line]
    and [post_line]. *)
Definition header_body (pre_line post_line repo_link commit : string) (t : Z)
    : string :=
  concat_str
    (List.map (fun line => pre_line +:+ line +:+ post_line +:+ nl)
       (header_lines repo_link commit t)).

(** Everything [add_header] writes before the content of the source. *)
Definition header_text (style : string * string * string * string)
    (repo_link commit : string) (t : Z) : string :=
  let '(pre_block, post_block, pre_line, post_line) := style in
  pre_block +:+ header_body pre_line post_line repo_link commit t
  +:+ post_block.

(** [add_header].  Opening the new file empties it; what is written reaches
    it when it is closed, after the source has been read. *)
Definition add_header (repo_link commit : string) (src : fdesc)
    (dst_ext : string) : M fdesc :=
  let ext := Str.lower dst_ext in
  match header_style ext with
  | None => ret src
  | Some style =>
      fun w =>
        let t := clock w in
        (tmp <- lift (get_file (f_abs src +:+ "__header") None (JDict [])) ;;
         on_fs (OS.write_file (cwd E) (f_abs tmp) "") ;;
         r <- try (on_fs (fun f => (OS.read_file (cwd E) (f_abs src) f, f))) ;;
         match r with
         | Ok content =>
             on_fs (OS.write_file (cwd E) (f_abs tmp)
                      (header_text style repo_link commit t +:+ content)) ;;
             ret tmp
         | Raise e =>
             on_fs (OS.write_file (cwd E) (f_abs tmp)
                      (header_text style repo_link commit t)) ;;
             raise e
         end) w
  end.

(** [open(p, 'r').read()] *)
Definition read_text (p : string) : M string :=
  on_fs (fun f =>
    (rbind (OS.read_file (cwd E) p f) (fun c => Ok (universal_newlines c)), f)).

(** What [pairs.extend(x)] appends for a decoded value [x]. *)
Definition extend_items (x : json) : result (list json) :=
  match x with
  | JList l => Ok l
  | JDict d => Ok (List.map (fun kv => JStr (fst kv)) d)
  | JStr s => Ok (List.map (fun c => JStr (String c EmptyString))
                    (list_ascii_of_string s))
  | _ => Raise TypeError
  end.

(** The unpacking [(k, v) = item]. *)
Definition unpack_pair (item : json) : result (json * json) :=
  match item with
  | JList [k; v] => Ok (k, v)
  | JList _ => Raise ValueError
  | JDict [(k, _); (v, _)] => Ok (JStr k, JStr v)
  | JDict _ => Raise ValueError
  | JStr (String k (String v EmptyString)) =>
      Ok (JStr (String k EmptyString), JStr (String v EmptyString))
  | JStr _ => Raise ValueError
  | _ => Raise TypeError
  end.

(** The inner loop of [replace_keywords] on one line. *)
Fixpoint replace_pairs (pairs : list json) (line : string) : result string :=
  match pairs with
  | [] => Ok line
  | item :: rest =>
      rbind (unpack_pair item) (fun kv =>
      match kv with
      | (JStr k, JStr v) => replace_pairs rest (Str.replace line k v)
      | _ => Raise TypeError
      end)
  end.

(** The first loop of [replace_keywords]: the pairs of all template files. *)
Fixpoint load_pairs (templates : list fdesc) : M (list json) :=
  match templates with
  | [] => ret []
  | t :: rest =>
      text <- read_text (f_abs t) ;;
      x <- lift (json_loads E text) ;;
      items <- lift (extend_items x) ;;
      more <- load_pairs rest ;;
      ret (items ++ more)
  end.

(** [replace_keywords].  A failing pair fails on the first line, before
    anything is written. *)
Definition replace_keywords (src : fdesc) (templates : list fdesc) : M fdesc :=
  pairs <- load_pairs templates ;;
  tmp <- lift (get_file (f_abs src +:+ "__valued") None (JDict [])) ;;
  on_fs (OS.write_file (cwd E) (f_abs tmp) "") ;;
  text <- read_text (f_abs src) ;;
  lines <- lift (mapM (replace_pairs pairs) (readlines text)) ;;
  on_fs (OS.write_file (cwd E) (f_abs tmp) (concat_str lines)) ;;
  ret tmp.

Definition copymove_single (repo_link commit path : string)
    (row : list (string * json)) (src dst : fdesc) (is_move : bool) : M unit :=
  (* check access *)
  lift (check_file (f_abs src) path) ;;
  (* put a big "do not edit" warning at the top of the file *)
  src <- match dict_get "add-header-comment" row with
         | Some (JBool true) => add_header repo_link commit src (f_ext dst)
         | _ => ret src
         end ;;
  (* replace template keywords with values *)
  let templates :=
    match dict_get "replace-keywords" row with
    | Some (JStr s) => Some [JStr s]
    | Some (JList l) => Some l
    | _ => None
    end in
  src <- match templates with
         | Some ts =>
             tfiles <- lift (mapM (fun t => get_file_value t (Some path) (JDict [])) ts) ;;
             replace_keywords src tfiles
         | None => ret src
         end ;;
  (* make the copy (method depends on destination) *)
  (if Str.startswith (f_abs dst) "/var/www/html/" then
     tmp <- lift (get_file (f_name src +:+ "__tmp") (Some "/common/") (JDict [])) ;;
     on_fs (OS.copy (cwd E) (f_abs src) (f_abs tmp)) ;;
     sh ("sudo -u webadmin -s mkdir -p '" +:+ f_dir dst +:+ "'") ;;
     sh ("sudo -u webadmin -s mv -fv '" +:+ f_abs tmp +:+ "' '"
         +:+ f_abs dst +:+ "'") ;;
     ret tt
   else
     on_fs (OS.makedirs (cwd E) (f_dir dst) true) ;;
     on_fs (OS.copy (cwd E) (f_abs src) (f_abs dst))) ;;
  (* maybe delete the source file *)
  if is_move then on_fs (OS.remove (cwd E) (f_abs src)) else ret tt.

(** [re.match(row['match'], basename) is not None] *)
Definition match_basename (pattern : json) (basename : string) : result bool :=
  match pattern with
  | JStr p => re_match E p basename
  | _ => Raise TypeError
  end.

(** The loop of [copymove] over the names [glob] returns: the sources kept
    and their destinations. *)
Fixpoint select_matches (pattern : json) (dst : fdesc) (names : list string)
    : result (list (fdesc * fdesc)) :=
  match names with
  | [] => Ok []
  | name :: rest =>
      rbind (get_file name None (JDict [])) (fun src2 =>
      let basename := f_name src2 in
      rbind (match_basename pattern basename) (fun m =>
      rbind (if m
             then rbind (get_file (Path.join (f_abs dst) basename) None (JDict []))
                    (fun d => Ok [(src2, d)])
             else Ok []) (fun here =>
      rbind (select_matches pattern dst rest) (fun more =>
      Ok (here ++ more)))))
  end.

(** The first half of [copymove]: [zip(sources, destinations)]. *)
Definition copymove_files (path : string) (row : list (string * json))
    (substitutions : json) : M (list (fdesc * fdesc)) :=
  s <- lift (dict_item "src" row) ;;
  src <- lift (get_file_value s (Some path) substitutions) ;;
  d <- lift (dict_item "dst" row) ;;
  dst <- lift (get_file_value d (Some path) substitutions) ;;
  match dict_get "match" row with
  | Some pattern =>
      f <- get_fs ;;
      lift (select_matches pattern dst
              (OS.glob_star (cwd E) (glob_dirs E) f (f_abs src)))
  | None => ret [(src, dst)]
  end.

(** [row.get('type').lower()] *)
Definition row_type (row : list (string * json)) : result string :=
  match dict_get "type" row with
  | Some (JStr t) => Ok (Str.lower t)
  | _ => Raise AttributeError
  end.

Definition copymove (repo_link commit path : string)
    (row : list (string * json)) (substitutions : json) : M unit :=
  pairs <- copymove_files path row substitutions ;;
  action <- lift (row_type row) ;;
  let is_move := Str.eqb action "move" in
  for_each pairs (fun sd =>
    copymove_single repo_link commit path row (fst sd) (snd sd) is_move).

Definition compile_coffee (repo_link commit path : string)
    (row : list (string * json)) (substitutions : json) : M unit :=
  s <- lift (dict_item "src" row) ;;
  src <- lift (get_file_value s (Some path) substitutions) ;;
  dst <- match dict_get "dst" row with
         | Some d => lift (get_file_value d (Some path) substitutions)
         | None =>
             let basename := f_name src in
             let extension := f_ext src in
             let basename :=
               if negb (Str.eqb extension "")
               then Str.drop_end (String.length extension) basename +:+ "js"
               else basename +:+ ".js" in
             lift (get_file basename (Some (f_dir src)) (JDict []))
         end ;;
  (* check access *)
  lift (check_file (f_abs src) path) ;;
  (* compile *)
  action <- lift (row_type row) ;;
  sh ("coffee -c -p '" +:+ f_abs src +:+ "' > '" +:+ f_abs dst +:+ "'") ;;
  ret tt.

Definition minimize_js (repo_link commit path : string)
    (row : list (string * json)) (substitutions : json) : M unit :=
  s <- lift (dict_item "src" row) ;;
  src <- lift (get_file_value s (Some path) substitutions) ;;
  dst <- match dict_get "dst" row with
         | Some d => lift (get_file_value d (Some path) substitutions)
         | None => ret src
         end ;;
  (* check access *)
  lift (check_file (f_abs src) path) ;;
  (* minimize *)
  action <- lift (row_type row) ;;
  sh ("uglifyjs '" +:+ f_abs src +:+ "' -c -m -o '" +:+ f_abs dst +:+ "'") ;;
  ret tt.

Definition action_export (repo_link commit path : string)
    (row : list (string * json)) (substitutions : json) : M unit :=
  s <- lift (dict_item "src" row) ;;
  src <- lift (get_file_value s (Some path) substitutions) ;;
  named <- lift (get_file_value
                   (default (JStr (f_name src)) (dict_get "name" row))
                   None (JDict [])) ;;
  let basename := f_name named in
  dst <- lift (get_file basename (Some "exports/") substitutions) ;;
  (* copy to shared directory *)
  copymove_single repo_link commit path row src dst false.

Definition action_import (repo_link commit path : string)
    (row : list (string * json)) (substitutions : json) : M unit :=
  d <- lift (dict_item "dst" row) ;;
  dst <- lift (get_file_value d (Some path) substitutions) ;;
  named <- lift (get_file_value
                   (default (JStr (f_name dst)) (dict_get "name" row))
                   None (JDict [])) ;;
  let basename := f_name named in
  src <- lift (get_file basename (Some "exports/") substitutions) ;;
  (* link to shared directory *)
  on_fs (OS.makedirs (cwd E) (f_dir dst) true) ;;
  f <- get_fs ;;
  if negb (OS.exists_ (cwd E) f (f_abs dst)) then
    on_fs (OS.symlink (cwd E) (f_abs src) (f_abs dst))
  else if OS.islink (cwd E) f (f_abs dst) then
    ret tt
  else
    raise (Exception "object with destination name already exists").

(** [v_min <= x <= v_max] with [v_min = v_max = 1] *)
Definition version_in_range (x : json) : result bool :=
  match x with
  | JBool b => Ok b
  | JInt n => Ok ((1 <=? n)%Z && (n <=? 1)%Z)
  | JFloat (FNum q) => Ok (Qle_bool 1 q && Qle_bool q 1)
  | JFloat _ => Ok false
  | _ => Raise TypeError
  end.

(** [len(x)] *)
Definition json_len (x : json) : result nat :=
  match x with
  | JStr s => Ok (String.length s)
  | JList l => Ok (length l)
  | JDict d => Ok (length d)
  | _ => Raise TypeError
  end.

(** The table [executors]. *)
Definition executors (action : string)
    : option (string -> string -> string -> list (string * json) -> json -> M unit) :=
  if Str.eqb action "copy" then Some copymove
  else if Str.eqb action "move" then Some copymove
  else if Str.eqb action "compile-coffee" then Some compile_coffee
  else if Str.eqb action "minimize-js" then Some minimize_js
  else if Str.eqb action "export" then Some action_export
  else if Str.eqb action "import" then Some action_import
  else None.

(** The loop of [execute] over [enumerate(actions)], from index [idx]. *)
Fixpoint run_actions (repo_link commit path : string) (paths : json)
    (total idx : nat) (rows : list json) : M unit :=
  match rows with
  | [] => ret tt
  | row :: rest =>
      match row with
      | JStr _ => run_actions repo_link commit path paths total (S idx) rest
      | JDict r =>
          match dict_get "type" r with
          | Some (JStr t) =>
              (* handle the action based on its type *)
              let action := Str.lower t in
              match executors action with
              | Some run =>
                  log (EvAction action) ;;
                  run repo_link commit path r paths ;;
                  run_actions repo_link commit path paths total (S idx) rest
              | None => raise (Exception ("unsupported action: " +:+ action))
              end
          | _ =>
              raise (Exception ("invalid action ("
                       +:+ Str.of_Z (Z.of_nat (idx + 1)) +:+ "/"
                       +:+ Str.of_Z (Z.of_nat total) +:+ ")"))
          end
      | _ =>
          raise (Exception ("invalid action ("
                   +:+ Str.of_Z (Z.of_nat (idx + 1)) +:+ "/"
                   +:+ Str.of_Z (Z.of_nat total) +:+ ")"))
      end
  end.

Definition typestr : string := "delphi deploy config".

(** The sanity checks of [execute].  The list of the three results is built
    before the loop looks at any of them, so a version that cannot be
    compared with a number fails first. *)
Definition sanity_checks (cfg : list (string * json)) : result unit :=
  let type_ok := json_eq_str (default JNull (dict_get "type" cfg)) typestr in
  rbind (version_in_range (default (JInt 0) (dict_get "version" cfg)))
    (fun version_ok =>
  let actions_ok :=
    match dict_get "actions" cfg with Some (JList _) => true | _ => false end in
  if negb type_ok
  then Raise (Exception "missing or invalid deploy config `type`")
  else if negb version_ok
  then Raise (Exception "missing or invalid deploy config `version`")
  else if negb actions_ok
  then Raise (Exception "missing or invalid deploy config `actions`")
  else Ok tt).

(** [execute] once the configuration file has been decoded. *)
Definition execute_config (repo_link commit path : string) (c : json) : M unit :=
  match c with
  | JDict cfg =>
      (* sanity checks *)
      lift (sanity_checks cfg) ;;
      (* just in case *)
      match dict_get "skip" cfg with
      | Some (JBool true) => ret tt
      | _ =>
          (* optional path substitution *)
          let paths := default (JDict []) (dict_get "paths" cfg) in
          n <- lift (json_len paths) ;;
          (if (0 <? n)%nat
           then match paths with JDict _ => ret tt | _ => raise AttributeError end
           else ret tt) ;;
          (* execute actions sequentially *)
          match dict_get "actions" cfg with
          | Some (JList actions) =>
              run_actions repo_link commit path paths (length actions) 0 actions
          | _ => raise TypeError
          end
      end
  | _ => raise (Exception "unable to load deploy config file")
  end.

Definition execute (repo_link commit path config : string) : M unit :=
  (* parse the config file *)
  text <- read_text (Path.join path config) ;;
  cfg <- lift (json_loads E text) ;;
  execute_config repo_link commit path cfg.

(** The default of the column [commit]: forty zeros. *)
Definition no_commit : string := Str.replicate 40 "0".

(** [set_repo_status]: insert the row, or on a duplicate key update it. *)
Definition set_repo_status (owner name : string) (commit : option string)
    (status : Z) : M unit :=
  fun w =>
    let repo := owner +:+ "/" +:+ name in
    let old := db w !! repo in
    let new :=
      match commit with
      | Some c => mk_repo_row c (clock w) status
      | None =>
          mk_repo_row (default no_commit (row_commit <$> old)) (clock w) status
      end in
    (Ok tt,
     mk_world (fs w) (<[repo := new]> (db w)) (clock w)
       (trace w ++ [EvStatus repo status])).

Definition is_space (c : ascii) : bool :=
  let n := nat_of_ascii c in
  ((9 <=? n)%nat && (n <=? 13)%nat) || ((28 <=? n)%nat && (n <=? 32)%nat).

Fixpoint lstrip (s : string) : string :=
  match s with
  | String c s' => if is_space c then lstrip s' else s
  | EmptyString => EmptyString
  end.

Fixpoint rstrip_space (s : string) : string :=
  match s with
  | EmptyString => EmptyString
  | String a s' =>
      match rstrip_space s' with
      | EmptyString => if is_space a then EmptyString else String a EmptyString
      | r => String a r
      end
  end.

(** [s.strip()] *)
Definition strip (s : string) : string := rstrip_space (lstrip s).

Definition tmpdir : string := "github_deploy_repo__tmp".

(** The [try] block of [deploy_repo] up to the assignment of [commit]:
    the value of [(commit, url)]. *)
Definition fetch (owner name : string) : M (string * string) :=
  (* a place for temporary files *)
  on_fs (OS.makedirs (cwd E) tmpdir false) ;;
  if Str.eqb owner "<local>" then
    (* hash the file for record keeping *)
    sha1sum <- sh ("sha1sum '" +:+ name +:+ "'") ;;
    ret (Str.take 40 sha1sum, "file://" +:+ name)
  else
    (* build the github repo link *)
    let url := "https://github.com/" +:+ owner +:+ "/" +:+ name +:+ ".git" in
    (* clone the repo *)
    sh ("git clone " +:+ url +:+ " " +:+ tmpdir) ;;
    (* get the latest commit hash *)
    out <- sh ("git --git-dir " +:+ tmpdir +:+ "/.git rev-parse HEAD") ;;
    ret (strip out, url).

(** The [try] block from there to the configuration file: a package is
    extracted, and moved up when it holds a single directory. *)
Definition unpack (owner name : string) : M unit :=
  if Str.eqb owner "<local>" then
    (* extract the file *)
    on_fs (extract E name tmpdir) ;;
    (* workaround for zipped github repos where deploy.json isn't at the
       root *)
    f <- get_fs ;;
    match OS.glob_star (cwd E) (glob_dirs E) f tmpdir with
    | [only] =>
        if OS.isdir (cwd E) f only then
          let tmpdir2 := tmpdir +:+ "2" in
          on_fs (OS.move (cwd E) only tmpdir2) ;;
          on_fs (OS.rmtree (cwd E) tmpdir) ;;
          on_fs (OS.move (cwd E) tmpdir2 tmpdir)
        else ret tt
    | _ => ret tt
    end
  else ret tt.

Definition config_name : string := "deploy.json".
Definition config_file : string := Path.join tmpdir config_name.

(** The end of the [try] block: the value assigned to [status]. *)
Definition deploy_config (commit url : string) : M Z :=
  f <- get_fs ;;
  if OS.isfile (cwd E) f config_file then
    execute (Str.drop_end 4 url) commit tmpdir config_name ;;
    ret 1%Z
  else ret 2%Z.

(** The statements of the [try] block, taken together: the values of
    [(commit, status)] when the block is left at its end. *)
Definition try_block (owner name : string) : M (string * Z) :=
  cu <- fetch owner name ;;
  unpack owner name ;;
  status <- deploy_config (fst cu) (snd cu) ;;
  ret (fst cu, status).

(** The whole [try ... except Exception as ex] of [deploy_repo]: the values
    of [(exception, commit, status)] after it.  [commit] is assigned once,
    at the end of [fetch], and [status] once, at the end of the block. *)
Definition deploy_try (owner name : string)
    : M (option exn * option string * Z) :=
  fetched <- try (fetch owner name) ;;
  match fetched with
  | Raise ex => ret (Some ex, None, (-1)%Z)
  | Ok (commit, url) =>
      deployed <- try (unpack owner name ;; deploy_config commit url) ;;
      match deployed with
      | Raise ex => ret (Some ex, Some commit, (-1)%Z)
      | Ok status => ret (None, Some commit, status)
      end
  end.

(** [shutil.rmtree(tmpdir)] under its own [try]: the exception after it. *)
Definition cleanup (exception : option exn) : M (option exn) :=
  log EvTeardown ;;
  cleaned <- try (on_fs (OS.rmtree (cwd E) tmpdir)) ;;
  ret (match cleaned, exception with
       | Raise ex, None => Some ex
       | _, _ => exception
       end).

Definition deploy_repo (owner name : string) : M unit :=
  log (EvDeploy owner name) ;;
  (* try to deploy, but catch any exceptions that may arise *)
  outcome <- deploy_try owner name ;;
  let '(exception, commit, status) := outcome in
  (* safely cleanup temporary files *)
  exception <- cleanup exception ;;
  (* update repo status *)
  set_repo_status owner name commit status ;;
  (* throw the exception, if it exists *)
  match exception with
  | Some ex => raise ex
  | None => ret tt
  end.

(** The loop of [deploy_all]: the exceptions caught, in order. *)
Fixpoint deploy_each (repos : list (string * string)) : M (list exn) :=
  match repos with
  | [] => ret []
  | (owner, name) :: rest =>
      r <- try (deploy_repo owner name) ;;
      exceptions <- deploy_each rest ;;
      ret (match r with
           | Raise ex => ex :: exceptions
           | Ok _ => exceptions
           end)
  end.

Definition deploy_all (repos : list (string * string)) : M unit :=
  (* deploy one at a time, keeping track of any errors along the way *)
  exceptions <- deploy_each repos ;;
  (* throw the first exception, if there is one *)
  match exceptions with
  | ex :: _ => raise ex
  | [] => ret tt
  end.

End Program.

(** ** A concrete environment

    The statements that evaluate the program need an environment to run in:
    a working directory, a clock in UTC, a machine without the external
    tools, and a matcher for a fragment of Python's regular expressions. *)

Module Re.

(** Patterns: a sequence of items, each a literal character, an escaped
    punctuation character, [.] or [$], optionally followed by [*]. *)
Inductive regex : Type :=
  | Fail
  | Eps
  | Chr (c : ascii)
  | AnyChar
  | EndOfString
  | Seq (r1 r2 : regex)
  | Alt (r1 r2 : regex)
  | Star (r : regex).

Inductive token : Type :=
  | TLit (c : ascii)
  | TDot
  | TDollar
  | TStar
  | TBad.

Definition is_alnum (c : ascii) : bool :=
  let n := nat_of_ascii c in
  ((48 <=? n)%nat && (n <=? 57)%nat) || ((65 <=? n)%nat && (n <=? 90)%nat)
  || ((97 <=? n)%nat && (n <=? 122)%nat).

Fixpoint tokens (escaped : bool) (s : string) : list token :=
  match s with
  | EmptyString => if escaped then [TBad] else []
  | String c s' =>
      if escaped then (if is_alnum c then TBad else TLit c) :: tokens false s'
      else if Ascii.eqb c "\" then tokens true s'
      else if Ascii.eqb c "." then TDot :: tokens false s'
      else if Ascii.eqb c "$" then TDollar :: tokens false s'
      else if Ascii.eqb c "*" then TStar :: tokens false s'
      else if Str.has_char c "^+?{}[]()|" then TBad :: tokens false s'
      else TLit c :: tokens false s'
  end.

Definition atom (t : token) : option regex :=
  match t with
  | TLit c => Some (Chr c)
  | TDot => Some AnyChar
  | TDollar => Some EndOfString
  | _ => None
  end.

Fixpoint items (l : list token) : option regex :=
  match l with
  | [] => Some Eps
  | t :: l' =>
      match atom t with
      | None => None
      | Some a =>
          match l' with
          | TStar :: l'' =>
              match items l'' with
              | Some r => Some (Seq (Star a) r)
              | None => None
              end
          | _ =>
              match items l' with
              | Some r => Some (Seq a r)
              | None => None
              end
          end
      end
  end.

Definition compile (pattern : string) : option regex :=
  items (tokens false pattern).

(** Does [r] match the empty string in front of the input [rest]?  [$]
    does at the end of the string and before a final line feed. *)
Fixpoint nullable (rest : string) (r : regex) : bool :=
  match r with
  | Fail | Chr _ | AnyChar => false
  | Eps | Star _ => true
  | EndOfString => Str.eqb rest "" || Str.eqb rest nl
  | Seq r1 r2 => nullable rest r1 && nullable rest r2
  | Alt r1 r2 => nullable rest r1 || nullable rest r2
  end.

(** What is left of [r] once it has read [c], the input being [c] followed
    by [rest]. *)
Fixpoint deriv (rest : string) (c : ascii) (r : regex) : regex :=
  match r with
  | Fail | Eps | EndOfString => Fail
  | Chr a => if Ascii.eqb a c then Eps else Fail
  | AnyChar => if Ascii.eqb c lf then Fail else Eps
  | Seq r1 r2 =>
      Alt (Seq (deriv rest c r1) r2)
          (if nullable (String c rest) r1 then deriv rest c r2 else Fail)
  | Alt r1 r2 => Alt (deriv rest c r1) (deriv rest c r2)
  | Star r1 => Seq (deriv rest c r1) (Star r1)
  end.

(** [re.match]: some prefix of [s] is matched by [r]. *)
Fixpoint matches (r : regex) (s : string) : bool :=
  nullable s r ||
  match s with
  | EmptyString => false
  | String c s' => matches (deriv s' c r) s'
  end.

Definition re_match (pattern s : string) : result bool :=
  match compile pattern with
  | Some r => Ok (matches r s)
  | None => Raise (OSError "pattern outside the fragment")
  end.

End Re.

Module Clock.

Local Open Scope Z_scope.

Definition pad2 (n : Z) : string :=
  if n <? 10 then "0" +:+ Str.of_Z n else Str.of_Z n.

Definition pad4 (n : Z) : string :=
  Str.replicate (4 - String.length (Str.of_Z n)) "0" +:+ Str.of_Z n.

(** The civil date of a day number counted from 1970-01-01. *)
Definition civil (days : Z) : Z * Z * Z :=
  let z := days + 719468 in
  let era := z / 146097 in
  let doe := z - era * 146097 in
  let yoe := (doe - doe / 1460 + doe / 36524 - doe / 146096) / 365 in
  let doy := doe - (365 * yoe + yoe / 4 - yoe / 100) in
  let mp := (5 * doy + 2) / 153 in
  let d := doy - (153 * mp + 2) / 5 + 1 in
  let m := if mp <? 10 then mp + 3 else mp - 9 in
  let y := yoe + era * 400 + (if m <=? 2 then 1 else 0) in
  (y, m, d).

(** [datetime.fromtimestamp(t).isoformat(' ')] with the local time zone
    UTC. *)
Definition isoformat (t : Z) : string :=
  let '(y, m, d) := civil (t / 86400) in
  let s := t mod 86400 in
  pad4 y +:+ "-" +:+ pad2 m +:+ "-" +:+ pad2 d +:+ " "
  +:+ pad2 (s / 3600) +:+ ":" +:+ pad2 (s mod 3600 / 60) +:+ ":"
  +:+ pad2 (s mod 60).

End Clock.

Module Demo.

(** No external tool is installed: every command fails. *)
Definition no_shell (cmd : string) (f : files) : result string * files :=
  (Raise (CalledProcessError cmd), f).

Definition no_extract (name dir : string) (f : files) : result unit * files :=
  (Raise (FileNotFoundError name), f).

Definition no_json (text : string) : result json := Raise ValueError.

Definition E : env := {|
  cwd := "/srv/deploy";
  shell := no_shell;
  extract := no_extract;
  json_loads := no_json;
  re_match := Re.re_match;
  isoformat := Clock.isoformat;
  glob_dirs := fun _ _ => []
|}.

Definition workspace : string := "/srv/deploy/github_deploy_repo__tmp".

(** A host with the working directory and an output directory. *)
Definition host : files :=
  list_to_map [
    ("/", Dir true);
    ("/srv", Dir true);
    ("/srv/deploy", Dir true);
    ("/srv/out", Dir true)
  ].

Definition at_time (f : files) : world := mk_world f ∅ 1481803200 [].

(** *** A machine that deploys local packages *)

Definition quote : string := String (ascii_of_nat 34) EmptyString.
Definition dq (s : string) : string := quote +:+ s +:+ quote.

(** An instruction document with [skip] set and one action. *)
Definition skip_text : string :=
  "{" +:+ dq "type" +:+ ": " +:+ dq "delphi deploy config" +:+ ", "
  +:+ dq "version" +:+ ": 1, " +:+ dq "skip" +:+ ": true, "
  +:+ dq "actions" +:+ ": [{" +:+ dq "type" +:+ ": " +:+ dq "copy" +:+ ", "
  +:+ dq "src" +:+ ": " +:+ dq "a.txt" +:+ ", "
  +:+ dq "dst" +:+ ": " +:+ dq "/srv/out/a.txt" +:+ "}]}".

Definition skip_cfg : list (string * json) :=
  [("type", JStr "delphi deploy config"); ("version", JInt 1);
   ("skip", JBool true);
   ("actions", JList [JDict [("type", JStr "copy"); ("src", JStr "a.txt");
                             ("dst", JStr "/srv/out/a.txt")]])].

(** The same document without [skip]. *)
Definition copy_text : string :=
  "{" +:+ dq "type" +:+ ": " +:+ dq "delphi deploy config" +:+ ", "
  +:+ dq "version" +:+ ": 1, "
  +:+ dq "actions" +:+ ": [{" +:+ dq "type" +:+ ": " +:+ dq "copy" +:+ ", "
  +:+ dq "src" +:+ ": " +:+ dq "a.txt" +:+ ", "
  +:+ dq "dst" +:+ ": " +:+ dq "/srv/out/a.txt" +:+ "}]}".

Definition copy_cfg : list (string * json) :=
  [("type", JStr "delphi deploy config"); ("version", JInt 1);
   ("actions", JList [JDict [("type", JStr "copy"); ("src", JStr "a.txt");
                             ("dst", JStr "/srv/out/a.txt")]])].

(** [json.loads] on the documents above. *)
Definition pkg_json (text : string) : result json :=
  if Str.eqb text skip_text then Ok (JDict skip_cfg)
  else if Str.eqb text copy_text then Ok (JDict copy_cfg)
  else Raise ValueError.

(** [sha1sum] is installed, [git] is not; the hash printed is the one of
    the empty file. *)
Definition pkg_shell (cmd : string) (f : files) : result string * files :=
  if Str.startswith cmd "sha1sum '" && negb (Str.contains cmd "missing")
  then (Ok ("da39a3ee5e6b4b0d3255bfef95601890afd80709  "
            +:+ Str.drop 8 cmd +:+ nl), f)
  else (Raise (CalledProcessError cmd), f).

Definition put (dir name : string) (n : node) (f : files) : files :=
  <[Path.abspath "/srv/deploy" (Path.join dir name) := n]> f.

(** The packages: [skip.tgz] and [copy.tgz] hold a file and an instruction
    document, [docs.tgz] holds a file only, [locked.tgz] holds a file and a
    read-only directory with a file in it. *)
Definition pkg_extract (name dir : string) (f : files) : result unit * files :=
  if Str.eqb name "skip.tgz" then
    (Ok tt, put dir "a.txt" (File "a") (put dir "deploy.json" (File skip_text) f))
  else if Str.eqb name "copy.tgz" then
    (Ok tt, put dir "a.txt" (File "a") (put dir "deploy.json" (File copy_text) f))
  else if Str.eqb name "docs.tgz" then
    (Ok tt, put dir "README" (File "read me") (put dir "LICENSE" (File "MIT") f))
  else if Str.eqb name "locked.tgz" then
    (Ok tt, put dir "README" (File "read me")
              (put dir "ro" (Dir false) (put dir "ro/data" (File "x") f)))
  else (Raise (FileNotFoundError name), f).

Definition E_pkg : env := {|
  cwd := "/srv/deploy";
  shell := pkg_shell;
  extract := pkg_extract;
  json_loads := pkg_json;
  re_match := Re.re_match;
  isoformat := Clock.isoformat;
  glob_dirs := fun _ _ => []
|}.

Definition w_host : world := at_time host.

(** The same host with a working directory that cannot be written to. *)
Definition w_readonly : world :=
  at_time (<["/srv/deploy" := Dir false]> host).

End Demo.

(** The value of [get_file(name)], without directory and substitutions. *)
Definition plain_file (E : env) (name : string) : fdesc :=
  let absname := Path.abspath (cwd E) name in
  let name' := snd (Path.split absname) in
  mk_fdesc absname (fst (Path.split absname)) name'
    (if Str.has_char "." name' then
       match Str.index_char "." name' with
       | Some i => Str.drop (i + 1) name'
       | None => ""
       end
     else "").

(** ** What a computation leaves untouched *)

Definition is_action (e : event) : Prop := exists kind, e = EvAction kind.

Definition no_event (e : event) : Prop := False.

(** [m] leaves the status table and the clock alone and records only
    events that satisfy [P]. *)
Definition quiet {A} (P : event -> Prop) (m : M A) : Prop :=
  forall w,
    db (snd (m w)) = db w /\ clock (snd (m w)) = clock w
    /\ exists evs, trace (snd (m w)) = trace w ++ evs /\ Forall P evs.

(** ** The batch, told unit by unit *)

(** The outcome of every unit of a batch, each run in the world the one
    before it left, whatever that outcome was. *)
Fixpoint unit_results (E : env) (repos : list (string * string)) (w : world)
    : list (result unit) :=
  match repos with
  | [] => []
  | (owner, name) :: rest =>
      let (r, w1) := deploy_repo E owner name w in
      r :: unit_results E rest w1
  end.

(** The first failure among the outcomes, if there is one. *)
Fixpoint first_failure (rs : list (result unit)) : result unit :=
  match rs with
  | [] => Ok tt
  | Raise ex :: _ => Raise ex
  | Ok _ :: rest => first_failure rest
  end.

(** The units whose deployment was begun, in order. *)
Fixpoint deploys (evs : list event) : list (string * string) :=
  match evs with
  | [] => []
  | EvDeploy owner name :: rest => (owner, name) :: deploys rest
  | _ :: rest => deploys rest
  end.

(** The exception [deploy_repo] ends with: the one of the [try] block if
    there is one, else the one of the cleanup if there is one. *)
Definition final_exception (exc : option exn) (cleaned : result unit)
    : option exn :=
  match cleaned, exc with
  | Raise ex, None => Some ex
  | _, _ => exc
  end.

(** The world in which the [try] block of a deployment starts. *)
Definition begun (owner name : string) (w : world) : world :=
  snd (log (EvDeploy owner name) w).

(** The status recorded for a unit. *)
Definition status_of (w : world) (owner name : string) : option Z :=
  row_status <$> (db w !! (owner +:+ "/" +:+ name)).

(** ** The notions of the specification *)

Module Spec.

(** The components of a path name. *)
Definition components (p : string) : list string :=
  List.filter (fun c => negb (Str.eqb c "")) (Str.split "/" p).

Fixpoint is_prefix (l1 l2 : list string) : bool :=
  match l1, l2 with
  | [], _ => true
  | _ :: _, [] => false
  | a :: l1', b :: l2' => Str.eqb a b && is_prefix l1' l2'
  end.

(** [p] is a descendant of [root]: [p] names something strictly inside the
    directory [root]. *)
Definition descendant (root p : string) : bool :=
  is_prefix (components root) (components p)
  && (length (components root) <? length (components p))%nat.

(** The extensions the specification lists for the header. *)
Definition supported_extensions : list string :=
  ["js"; "min.js"; "css"; "c"; "cpp"; "h"; "hpp"; "java"; "html"; "xml";
   "py"; "r"; "coffee"; "htaccess"; "php"].

(** A name a directory listing can contain. *)
Definition plain_name (n : string) : bool :=
  negb (Str.eqb n "") && negb (Str.has_char "/" n)
  && negb (Str.eqb n ".") && negb (Str.eqb n "..").

(** [p] ends in the component [n]: it is [n], or something, a separator
    and [n]. *)
Definition ends_in (n p : string) : Prop :=
  p = n \/ exists x, p = x +:+ "/" +:+ n.

(** The content the specification gives the file with header: the prefix
    of the wrapper, the lines of the header, the original content, the
    suffix of the wrapper. *)
Definition content_then_suffix (E : env)
    (style : string * string * string * string) (repo_link commit : string)
    (t : Z) (content : string) : string :=
  let '(pre_block, post_block, pre_line, post_line) := style in
  pre_block +:+ header_body E pre_line post_line repo_link commit t
  +:+ content +:+ post_block.

(** The three defects of an instruction document the validation looks
    for. *)
Definition type_invalid (cfg : list (string * json)) : Prop :=
  json_eq_str (default JNull (dict_get "type" cfg)) typestr = false.

Definition version_outside (cfg : list (string * json)) : Prop :=
  version_in_range (default (JInt 0) (dict_get "version" cfg)) = Ok false.

Definition actions_invalid (cfg : list (string * json)) : Prop :=
  match dict_get "actions" cfg with
  | Some (JList _) => False
  | _ => True
  end.

(** The version can be compared with a number: it is absent, a number or a
    boolean. *)
Definition version_comparable (cfg : list (string * json)) : Prop :=
  exists b, version_in_range (default (JInt 0) (dict_get "version" cfg)) = Ok b.

Definition invalid_config (field : string) : exn :=
  Exception ("missing or invalid deploy config `" +:+ field +:+ "`").

End Spec.

(** ** Scenarios *)

Module Scenario.

Definition repo_link : string := "https://github.com/cmu-delphi/www-nowcast".
Definition commit : string := "0123456789abcdef0123456789abcdef01234567".

(** A fetched workspace: the directory [js] holds exactly [a.js], [b.js]
    and [c.txt], the directory [site] a page and the hidden [.htaccess];
    next to the workspace, the directory the program itself uses as a
    second temporary directory. *)
Definition fetched : files :=
  list_to_map [
    ("/", Dir true);
    ("/srv", Dir true);
    ("/srv/deploy", Dir true);
    ("/srv/out", Dir true);
    ("/srv/deploy/github_deploy_repo__tmp", Dir true);
    ("/srv/deploy/github_deploy_repo__tmp/js", Dir true);
    ("/srv/deploy/github_deploy_repo__tmp/js/a.js", File "var a;");
    ("/srv/deploy/github_deploy_repo__tmp/js/b.js", File "var b;");
    ("/srv/deploy/github_deploy_repo__tmp/js/c.txt", File "text");
    ("/srv/deploy/github_deploy_repo__tmp/site", Dir true);
    ("/srv/deploy/github_deploy_repo__tmp/site/index.html", File "<html/>");
    ("/srv/deploy/github_deploy_repo__tmp/site/.htaccess", File "Deny from all");
    ("/srv/deploy/github_deploy_repo__tmp2", Dir true);
    ("/srv/deploy/github_deploy_repo__tmp2/secret.txt", File "secret")
  ].

Definition w_fetched : world := Demo.at_time fetched.

(** [{"type": "copy", "src": "js", "dst": "/srv/out/js", "match": pattern}] *)
Definition copy_match (pattern : string) : list (string * json) :=
  [("type", JStr "copy"); ("src", JStr "js"); ("dst", JStr "/srv/out/js");
   ("match", JStr pattern)].

(** [{"type": "move", "src": "site", "dst": "/srv/out/site", "match": ".*"}] *)
Definition move_site : list (string * json) :=
  [("type", JStr "move"); ("src", JStr "site"); ("dst", JStr "/srv/out/site");
   ("match", JStr ".*")].

(** The one file of [site] that is not hidden, and where it goes. *)
Definition site_pairs : list (fdesc * fdesc) :=
  [(mk_fdesc "/srv/deploy/github_deploy_repo__tmp/site/index.html"
      "/srv/deploy/github_deploy_repo__tmp/site" "index.html" "html",
    mk_fdesc "/srv/out/site/index.html" "/srv/out/site" "index.html" "html")].

(** The descriptor [get_file] returns for a directory of the workspace. *)
Definition dir_js : fdesc :=
  mk_fdesc "/srv/deploy/github_deploy_repo__tmp/js"
    "/srv/deploy/github_deploy_repo__tmp" "js" "".
Definition dir_out_js : fdesc := mk_fdesc "/srv/out/js" "/srv/out" "js" "".

(** [re.match(".*\.js$", n) is not None] in the concrete environment *)
Definition ends_js (n : string) : bool :=
  match Re.compile ".*\.js$" with
  | Some r => Re.matches r n
  | None => false
  end.

(** [{"type": "copy", "src": "../github_deploy_repo__tmp2/secret.txt",
      "dst": "/srv/out/secret.txt"}] *)
Definition copy_sibling : list (string * json) :=
  [("type", JStr "copy");
   ("src", JStr "../github_deploy_repo__tmp2/secret.txt");
   ("dst", JStr "/srv/out/secret.txt")].

(** The file [a.js] of the workspace and the comment syntax of [js]. *)
Definition a_js : fdesc :=
  mk_fdesc "/srv/deploy/github_deploy_repo__tmp/js/a.js"
    "/srv/deploy/github_deploy_repo__tmp/js" "a.js" "js".
Definition a_js_header : string :=
  "/srv/deploy/github_deploy_repo__tmp/js/a.js__header".
Definition js_style : string * string * string * string :=
  ("/*" +:+ nl, "*/" +:+ nl +:+ nl +:+ nl +:+ nl, "", "").

(** A file without extension. *)
Definition makefile : fdesc :=
  mk_fdesc "/srv/deploy/github_deploy_repo__tmp/Makefile"
    "/srv/deploy/github_deploy_repo__tmp" "Makefile" "".
Definition w_makefile : world :=
  Demo.at_time (<[f_abs makefile := File "all:"]> fetched).

(** A document with a wrong type sentinel, a version given as a string,
    and [skip] set:
    [{"type": "deploy", "version": "1", "skip": true, "actions": []}] *)
Definition text_version_cfg : list (string * json) :=
  [("type", JStr "deploy"); ("version", JStr "1"); ("skip", JBool true);
   ("actions", JList [])].

(** [{"type": "import", "dst": "/srv/out/lib/util.js"}] *)
Definition import_util : list (string * json) :=
  [("type", JStr "import"); ("dst", JStr "/srv/out/lib/util.js")].

Definition util_link : string := "/srv/out/lib/util.js".
Definition util_export : string := "/srv/deploy/exports/util.js".

(** The workspace when another unit has exported [util.js] already. *)
Definition w_exported : world :=
  Demo.at_time
    (<["/srv/deploy/exports" := Dir true]>
       (<[util_export := File "function util() {}"]> fetched)).

(** The workspace when a file that is no link is where the link is to
    go. *)
Definition w_occupied : world :=
  Demo.at_time
    (<["/srv/out/lib" := Dir true]>
       (<[util_link := File "local copy"]> fetched)).

(** The batch of three packages, the second of which cannot be fetched. *)
Definition batch : list (string * string) :=
  [("<local>", "docs.tgz"); ("<local>", "missing.tgz"); ("<local>", "skip.tgz")].

Definition sha1 : string := "da39a3ee5e6b4b0d3255bfef95601890afd80709".

(** The world after the [try] block of a deployment of a package. *)
Definition tried (name : string) (w : world) : world :=
  snd (deploy_try Demo.E_pkg "<local>" name (begun "<local>" name w)).

(** The world after a package has been fetched and unpacked. *)
Definition fetched_pkg (name : string) (w : world) : world :=
  snd (fetch Demo.E_pkg "<local>" name (begun "<local>" name w)).
Definition unpacked_pkg (name : string) (w : world) : world :=
  snd (unpack Demo.E_pkg "<local>" name (fetched_pkg name w)).

End Scenario.


(** ** The command line and the queue *)

(** [get_repo_list]: the names of the rows with status 0, each split at the
    slashes, in the order the cursor yields them. *)
Definition get_repo_list : M (list (list string)) :=
  fun w =>
    (Ok (List.map (fun kv => Str.split "/" (fst kv))
           (List.filter (fun kv => (row_status (snd kv) =? 0)%Z)
              (map_to_list (db w)))),
     w).

(** The values [argparse] hands to [main]. *)
Record args : Type := mk_args {
  arg_database : bool;
  arg_repo : option string;
  arg_package : option string
}.

(** The truth value of an optional string argument: [None] and the empty
    string count as false. *)
Definition truthy (a : option string) : bool :=
  match a with
  | Some s => negb (Str.eqb s "")
  | None => false
  end.

Definition count (cond : bool) : nat := if cond then 1 else 0.

(** The unpacking [(owner, name) = item] of a list of strings. *)
Definition unpack_repo (item : list string) : result (string * string) :=
  match item with
  | [owner; name] => Ok (owner, name)
  | _ => Raise ValueError
  end.

(** How [main] ends: with [sys.exit], or by returning or raising. *)
Inductive ending : Type :=
  | SysExit (code : Z)
  | Finished (r : result unit).

(** [main], from the parsed arguments on.  The loop that prints the queued
    repositories unpacks every one of them before [deploy_all] is called. *)
Definition main (E : env) (a : args) : world -> ending * world :=
  fun w =>
    (* require exactly one deploy source *)
    let sources :=
      count (arg_database a) + count (truthy (arg_repo a))
      + count (truthy (arg_package a)) in
    if negb (sources =? 1)%nat then (SysExit 0, w)
    else
      let (r, w') :=
        (if arg_database a then
           (* deploy github repos from the database *)
           bind get_repo_list (fun repos =>
             if (0 <? length repos)%nat then
               bind (lift (mapM unpack_repo repos)) (fun pairs =>
                 deploy_all E pairs)
             else ret tt)
         else if truthy (arg_repo a) then
           (* deploy a specific github repo *)
           bind (lift (unpack_repo
                         (Str.split "/" (default EmptyString (arg_repo a)))))
             (fun on => deploy_repo E (fst on) (snd on))
         else
           (* deploy a local tar/zip file as if it were a repo *)
           deploy_repo E "<local>" (default EmptyString (arg_package a))) w in
      (Finished r, w').

(** The names of the queued rows. *)
Definition queued (w : world) : list string :=
  List.map fst
    (List.filter (fun kv => (row_status (snd kv) =? 0)%Z) (map_to_list (db w))).

(** The name of the row of a unit: ['%s/%s' % (owner, name)]. *)
Definition unit_key (on : string * string) : string :=
  fst on +:+ "/" +:+ snd on.

(** ** Canonical path names *)

(** An absolute path name in canonical form: one or two slashes, then the
    components, separated by single slashes. *)
Definition canonical (k : nat) (comps : list string) : string :=
  Str.replicate k "/" +:+ Str.join "/" comps.

(** The number of slashes [normpath] keeps in front of an absolute name. *)
Definition initial_slashes (p : string) : nat :=
  if Str.startswith p "//" && negb (Str.startswith p "///") then 2 else 1.

(** ** A status table *)

Module Table.

(** Two packages are queued; a repository was deployed before. *)
Definition queue : gmap string repo_row :=
  list_to_map [
    ("<local>/docs.tgz", mk_repo_row Scenario.sha1 1481716800 0);
    ("cmu-delphi/www-nowcast", mk_repo_row Scenario.commit 1481716800 1);
    ("<local>/skip.tgz", mk_repo_row no_commit 1481716800 0)
  ].

Definition w_queue : world := mk_world Demo.host queue 1481803200 [].

(** The same host when a workspace was left behind. *)
Definition w_stale : world :=
  mk_world (<[Demo.workspace := Dir true]>
              (<[Demo.workspace +:+ "/old.txt" := File "old"]> Demo.host))
    queue 1481803200 [].

(** A table in which a name without owner is queued. *)
Definition w_orphan : world :=
  mk_world Demo.host
    (<["www-nowcast" := mk_repo_row no_commit 1481716800 0]> queue)
    1481803200 [].

End Table.

(** ** The rows of [actions] *)

(** [type(row) == str]: the row is a comment. *)
Definition is_comment (row : json) : bool :=
  match row with JStr _ => true | _ => false end.

(** The negation of [type(row) != dict or 'type' not in row or
    type(row['type']) != str]. *)
Definition is_action_row (row : json) : bool :=
  match row with
  | JDict r => match dict_get "type" r with Some (JStr _) => true | _ => false end
  | _ => false
  end.

(** ** What a computation keeps and what it returns *)

(** [m] keeps the property [P] of the file system, whatever its outcome. *)
Definition preserves {A} (P : files -> Prop) (m : M A) : Prop :=
  forall w, P (fs w) -> P (fs (snd (m w))).

(** Every value [m] returns satisfies [Q]. *)
Definition returns {A} (Q : A -> Prop) (m : M A) : Prop :=
  forall w a w', m w = (Ok a, w') -> Q a.

(** The web root: a destination below it is written by way of the shell. *)
Definition web_root : string := "/var/www/html/".

(** ** A script with two extensions *)

Module Coffee.

Definition app : fdesc :=
  mk_fdesc "/srv/deploy/github_deploy_repo__tmp/js/app.min.coffee"
    "/srv/deploy/github_deploy_repo__tmp/js" "app.min.coffee" "min.coffee".

(** [{"type": "compile-coffee", "src": "js/app.min.coffee"}] *)
Definition row : list (string * json) :=
  [("type", JStr "compile-coffee"); ("src", JStr "js/app.min.coffee")].

End Coffee.

(** ** A package that cannot be removed *)

Module Locked.

(** The package [frozen.tgz] holds the instruction document of [skip.tgz],
    the file it would copy, and a read-only directory with a file in it;
    the other packages are those of [Demo]. *)
Definition frozen_extract (name dir : string) (f : files)
    : result unit * files :=
  if Str.eqb name "frozen.tgz" then
    (Ok tt,
     Demo.put dir "a.txt" (File "a")
       (Demo.put dir "deploy.json" (File Demo.skip_text)
          (Demo.put dir "ro" (Dir false)
             (Demo.put dir "ro/data" (File "x") f))))
  else Demo.pkg_extract name dir f.

Definition E : env := {|
  cwd := "/srv/deploy";
  shell := Demo.pkg_shell;
  extract := frozen_extract;
  json_loads := Demo.pkg_json;
  re_match := Re.re_match;
  isoformat := Clock.isoformat;
  glob_dirs := fun _ _ => []
|}.

End Locked.

(** ** A header file that is the source *)

Module Alias.

(** The fetched workspace when [a.js__header] is a link to [a.js]. *)
Definition w_linked : world :=
  Demo.at_time (<[Scenario.a_js_header := Link "a.js"]> Scenario.fetched).

End Alias.

(** ** Template files *)

Module Keywords.

Definition ws : string := "/srv/deploy/github_deploy_repo__tmp".

(** [[["@VERSION@", "1.2"]]] *)
Definition version_text : string :=
  "[[" +:+ Demo.dq "@VERSION@" +:+ ", " +:+ Demo.dq "1.2" +:+ "]]".
Definition version_pairs : list json :=
  [JList [JStr "@VERSION@"; JStr "1.2"]].

(** [[["var a;\nvar b;", "var c;"]]]: the key holds a line feed, written
    with its escape in the file. *)
Definition break_text : string :=
  "[[" +:+ Demo.dq "var a;\nvar b;" +:+ ", " +:+ Demo.dq "var c;" +:+ "]]".
Definition break_pairs : list json :=
  [JList [JStr ("var a;" +:+ nl +:+ "var b;"); JStr "var c;"]].

(** [json.loads] on the two template files. *)
Definition loads (text : string) : result json :=
  if Str.eqb text version_text then Ok (JList version_pairs)
  else if Str.eqb text break_text then Ok (JList break_pairs)
  else Raise ValueError.

Definition E : env := {|
  cwd := "/srv/deploy";
  shell := Demo.no_shell;
  extract := Demo.no_extract;
  json_loads := loads;
  re_match := Re.re_match;
  isoformat := Clock.isoformat;
  glob_dirs := fun _ _ => []
|}.

(** A script of two lines, and the two template files. *)
Definition ab_text : string := "var a;" +:+ nl +:+ "var b;".
Definition ab_js : fdesc :=
  mk_fdesc (ws +:+ "/js/ab.js") (ws +:+ "/js") "ab.js" "js".
Definition version_json : fdesc :=
  mk_fdesc (ws +:+ "/version.json") ws "version.json" "json".
Definition break_json : fdesc :=
  mk_fdesc (ws +:+ "/break.json") ws "break.json" "json".

Definition w_templates : world :=
  Demo.at_time
    (<[f_abs ab_js := File ab_text]>
       (<[f_abs version_json := File version_text]>
          (<[f_abs break_json := File break_text]> Scenario.fetched))).

End Keywords.
(** * Properties *)

(** ** Strings and path names *)

Lemma app_cons_str (x : ascii) (a b : string) :
  String x a +:+ b = String x (a +:+ b).
Proof. reflexivity. Qed.

Lemma app_assoc_str (a b c : string) : (a +:+ b) +:+ c = a +:+ (b +:+ c).
Proof.
  induction a as [|x a IH]; [reflexivity|].
  rewrite !app_cons_str. now f_equal.
Qed.

Lemma app_nil_r_str (a : string) : a +:+ "" = a.
Proof.
  induction a as [|x a IH]; [reflexivity|].
  rewrite app_cons_str. now f_equal.
Qed.

Lemma startswith_app (s t : string) : Str.startswith (s +:+ t) s = true.
Proof.
  induction s as [|c s IH].
  - now destruct t.
  - rewrite app_cons_str. simpl. now rewrite Ascii.eqb_refl, IH.
Qed.

Lemma startswith_inv (s p : string) :
  Str.startswith s p = true -> exists t, s = p +:+ t.
Proof.
  revert s; induction p as [|a p IH]; intros s H.
  - now exists s.
  - destruct s as [|b s]; simpl in H; [discriminate|].
    apply andb_prop in H as [Hab Hs].
    apply Ascii.eqb_eq in Hab as ->.
    destruct (IH _ Hs) as [t ->]. now exists t.
Qed.

Lemma get_file_plain (E : env) (name : string) :
  get_file E name None (JDict []) = Ok (plain_file E name).
Proof.
  unfold get_file, get_substituted_path, substitute_items, rbind, plain_file.
  now destruct (Path.split (Path.abspath (cwd E) name)).
Qed.

(** ** check_file *)

(** The check accepts every name that continues the workspace root with a
    separator: it never rejects a path strictly inside the root. *)
Lemma check_file_inside (E : env) (path rest : string) :
  check_file E (Path.abspath (cwd E) path +:+ "/" +:+ rest) path = Ok tt.
Proof.
  unfold check_file. rewrite get_file_plain.
  unfold rbind, plain_file. cbn [f_abs].
  now rewrite startswith_app.
Qed.

(** The check rejects every name that does not start with the root. *)
Lemma check_file_outside (E : env) (a path : string) :
  Str.startswith a (Path.abspath (cwd E) path) = false ->
  exists msg, check_file E a path = Raise (Exception msg).
Proof.
  intros H. unfold check_file. rewrite get_file_plain.
  unfold rbind, plain_file. cbn [f_abs].
  rewrite H. cbn [negb]. eauto.
Qed.

(** An absolute path outside the root and a path escaping with [..] are
    both rejected. *)
Example check_file_rejects_etc_passwd :
  is_ok (check_file Demo.E "/etc/passwd" tmpdir) = false
  /\ is_ok (rbind (get_file Demo.E "../../../etc/passwd" (Some tmpdir) (JDict []))
              (fun d => check_file Demo.E (f_abs d) tmpdir)) = false.
Proof. vm_compute. split; reflexivity. Qed.

(** C1.  The access guard compares strings: a path in a sibling directory
    whose name continues the name of the workspace root is accepted,
    although it is no descendant of the root.  The sibling here is the
    program's own second temporary directory, reached from a [copy] action
    through [..]; the file is copied out of it. *)
Theorem check_file_accepts_sibling :
  check_file Demo.E "/srv/deploy/github_deploy_repo__tmp2/secret.txt" tmpdir
    = Ok tt
  /\ Spec.descendant Demo.workspace
       "/srv/deploy/github_deploy_repo__tmp2/secret.txt" = false
  /\ fst (copymove Demo.E Scenario.repo_link Scenario.commit tmpdir
            Scenario.copy_sibling (JDict []) Scenario.w_fetched) = Ok tt
  /\ fs (snd (copymove Demo.E Scenario.repo_link Scenario.commit tmpdir
                Scenario.copy_sibling (JDict []) Scenario.w_fetched))
       !! "/srv/out/secret.txt" = Some (File "secret").
Proof. vm_compute. repeat split; reflexivity. Qed.

(** ** The last component of a path name *)

Lemma has_char_cons (c a : ascii) (s : string) :
  Str.has_char c (String a s) = false ->
  Ascii.eqb a c = false /\ Str.has_char c s = false.
Proof. simpl. intros H. now apply orb_false_elim in H. Qed.

Lemma split_last_noslash (n : string) :
  Str.has_char "/" n = false -> Path.split_last n = ("", n).
Proof.
  induction n as [|c n IH]; intros H; [reflexivity|].
  apply has_char_cons in H as [Hc Hn].
  simpl. rewrite (IH Hn). now rewrite Hc.
Qed.

Lemma split_last_tail (x n : string) :
  Str.has_char "/" n = false ->
  Path.split_last (x +:+ "/" +:+ n) = (x +:+ "/", n).
Proof.
  intros Hn. induction x as [|c x IH].
  - change ("" +:+ "/" +:+ n) with (String "/" n).
    simpl. now rewrite (split_last_noslash n Hn).
  - change (String c x +:+ "/" +:+ n) with (String c (x +:+ "/" +:+ n)).
    change (String c x +:+ "/") with (String c (x +:+ "/")).
    cbn [Path.split_last]. rewrite IH.
    destruct x; reflexivity.
Qed.

Lemma split_snd (p : string) : snd (Path.split p) = snd (Path.split_last p).
Proof.
  unfold Path.split. destruct (Path.split_last p) as [h t].
  now destruct (negb (Str.eqb h "") && negb (Str.all_char "/" h)).
Qed.

Lemma split_ends_in (n p : string) :
  Str.has_char "/" n = false -> Spec.ends_in n p -> snd (Path.split p) = n.
Proof.
  intros Hn [-> | [x ->]]; rewrite split_snd.
  - now rewrite split_last_noslash.
  - now rewrite split_last_tail.
Qed.

Lemma str_split_nonnil (sep : ascii) (s : string) : Str.split sep s <> [].
Proof.
  destruct s as [|c s]; simpl; [discriminate|].
  destruct (Ascii.eqb c sep); [discriminate|].
  destruct (Str.split sep s); discriminate.
Qed.

Lemma str_split_none (sep : ascii) (n : string) :
  Str.has_char sep n = false -> Str.split sep n = [n].
Proof.
  induction n as [|c n IH]; intros H; [reflexivity|].
  apply has_char_cons in H as [Hc Hn].
  simpl. rewrite Hc, (IH Hn). reflexivity.
Qed.

Lemma str_split_app (sep : ascii) (x y : string) :
  Str.split sep (x +:+ String sep y) = Str.split sep x ++ Str.split sep y.
Proof.
  induction x as [|c x IH].
  - simpl. now rewrite Ascii.eqb_refl.
  - rewrite app_cons_str. simpl. rewrite IH.
    destruct (Ascii.eqb c sep); [reflexivity|].
    destruct (Str.split sep x) as [|h t] eqn:Hx; [|reflexivity].
    now destruct (str_split_nonnil sep x).
Qed.

Lemma ends_in_split (n p : string) :
  Str.has_char "/" n = false -> Spec.ends_in n p ->
  exists L, Str.split "/" p = L ++ [n].
Proof.
  intros Hn [-> | [x ->]].
  - exists []. now apply str_split_none.
  - exists (Str.split "/" x).
    change ("/" +:+ n) with (String "/" n).
    now rewrite str_split_app, (str_split_none _ _ Hn).
Qed.

Lemma plain_name_inv (n : string) :
  Spec.plain_name n = true ->
  Str.eqb n "" = false /\ Str.has_char "/" n = false
  /\ Str.eqb n "." = false /\ Str.eqb n ".." = false.
Proof.
  unfold Spec.plain_name. intros H.
  repeat (apply andb_prop in H as [H ?]).
  repeat split; now apply negb_true_iff.
Qed.

Lemma normpath_step_plain (k : nat) (M : list string) (n : string) :
  Spec.plain_name n = true -> Path.normpath_step k M n = M ++ [n].
Proof.
  intros H. apply plain_name_inv in H as (H0 & _ & H1 & H2).
  unfold Path.normpath_step. now rewrite H0, H1, H2.
Qed.

Lemma join_snoc (M : list string) (n : string) :
  Str.join "/" (M ++ [n]) =
  match M with [] => n | _ => Str.join "/" M +:+ "/" +:+ n end.
Proof.
  induction M as [|a M IH]; [reflexivity|].
  change ((a :: M) ++ [n]) with (a :: (M ++ [n])).
  destruct M as [|b M].
  - reflexivity.
  - change (Str.join "/" (a :: (b :: M) ++ [n]))
      with (a +:+ "/" +:+ Str.join "/" ((b :: M) ++ [n])).
    rewrite IH.
    change (Str.join "/" (a :: b :: M))
      with (a +:+ "/" +:+ Str.join "/" (b :: M)).
    now rewrite !app_assoc_str.
Qed.

Lemma ends_in_nonempty (n p : string) :
  n <> "" -> Spec.ends_in n p -> p <> "".
Proof.
  intros Hn [-> | [x ->]]; [assumption|].
  destruct x; discriminate.
Qed.

Lemma eqb_false_ne (a b : string) : Str.eqb a b = false -> a <> b.
Proof. apply String.eqb_neq. Qed.

(** [normpath] keeps a plain last component. *)
Lemma normpath_ends_in (n p : string) :
  Spec.plain_name n = true -> Spec.ends_in n p ->
  Spec.ends_in n (Path.normpath p).
Proof.
  intros Hp He. pose proof (plain_name_inv n Hp) as (H0 & Hs & _ & _).
  apply eqb_false_ne in H0.
  destruct (ends_in_split n p Hs He) as [L HL].
  unfold Path.normpath.
  destruct (Str.eqb p "") eqn:Hpe.
  { apply String.eqb_eq in Hpe. now destruct (ends_in_nonempty n p H0 He). }
  rewrite HL, fold_left_app. cbn [fold_left].
  rewrite (normpath_step_plain _ _ _ Hp), join_snoc.
  set (k := if Str.startswith p "/" then _ else _).
  set (M := fold_left (Path.normpath_step k) L []).
  assert (Hres : Spec.ends_in n
            (Str.replicate k "/" +:+
             match M with [] => n | _ => Str.join "/" M +:+ "/" +:+ n end)).
  { destruct M as [|a M'].
    - destruct k as [|k].
      + now left.
      + right. exists (Str.replicate k "/").
        clear. induction k as [|k IH]; [reflexivity|].
        change (Str.replicate (S (S k)) "/") with (String "/" (Str.replicate (S k) "/")).
        rewrite app_cons_str, IH.
        change (Str.replicate (S k) "/") with (String "/" (Str.replicate k "/")).
        now rewrite !app_cons_str.
    - right. exists (Str.replicate k "/" +:+ Str.join "/" (a :: M')).
      now rewrite !app_assoc_str. }
  match goal with
  | |- context [if ?b then _ else _] => destruct b eqn:Hq
  end; [|exact Hres].
  apply String.eqb_eq in Hq. now destruct (ends_in_nonempty n _ H0 Hres).
Qed.

Lemma endswith_char_inv (a : string) (c : ascii) :
  Str.endswith_char a c = true -> exists a', a = a' +:+ String c "".
Proof.
  induction a as [|x a IH]; [discriminate|].
  destruct a as [|y a].
  - simpl. intros H. apply Ascii.eqb_eq in H as ->. now exists "".
  - intros H. destruct (IH H) as [a' Ha']. exists (String x a').
    rewrite app_cons_str. now f_equal.
Qed.

Lemma ends_in_join (n a q : string) :
  Spec.ends_in n q -> Spec.ends_in n (Path.join a q).
Proof.
  intros He. unfold Path.join.
  destruct (Str.startswith q "/"); [assumption|].
  destruct (Str.eqb a "") eqn:Ha.
  { apply String.eqb_eq in Ha as ->. exact He. }
  cbn [orb].
  destruct (Str.endswith_char a "/") eqn:Hs.
  - destruct (endswith_char_inv _ _ Hs) as [a' ->].
    destruct He as [-> | [x ->]]; right.
    + exists a'. now rewrite app_assoc_str.
    + exists ((a' +:+ "/") +:+ x). now rewrite !app_assoc_str.
  - destruct He as [-> | [x ->]]; right.
    + now exists a.
    + exists (a +:+ "/" +:+ x). now rewrite !app_assoc_str.
Qed.

Lemma abspath_ends_in (wd n q : string) :
  Spec.plain_name n = true -> Spec.ends_in n q ->
  Spec.ends_in n (Path.abspath wd q).
Proof.
  intros Hp He. unfold Path.abspath. apply normpath_ends_in; [assumption|].
  destruct (Path.isabs q); [assumption | now apply ends_in_join].
Qed.

(** The base name [get_file] finds for an entry [n] of a directory [d] is
    [n]. *)
Lemma plain_file_entry (E : env) (d n : string) :
  Spec.plain_name n = true -> f_name (plain_file E (Path.join d n)) = n.
Proof.
  intros Hp. unfold plain_file. cbn [f_name].
  apply split_ends_in.
  - now apply plain_name_inv in Hp.
  - apply abspath_ends_in; [assumption|]. apply ends_in_join. now left.
Qed.

(** ** Directory listings *)

Lemma child_name_plain (a k n : string) :
  OS.child_name a k = Some n -> Spec.plain_name n = true.
Proof.
  unfold OS.child_name, Spec.plain_name.
  destruct (Str.startswith k _); [|discriminate].
  set (m := Str.drop _ k).
  destruct (Str.eqb m "") eqn:H0; [discriminate|].
  destruct (Str.has_char "/" m) eqn:H1; [discriminate|].
  destruct (Str.eqb m ".") eqn:H2; [discriminate|].
  destruct (Str.eqb m "..") eqn:H3; [discriminate|].
  cbn. intros [= <-]. now rewrite H0, H1, H2, H3.
Qed.

Lemma listdir_plain (wd : string) (f : files) (d n : string) :
  In n (OS.listdir wd f d) -> Spec.plain_name n = true.
Proof.
  unfold OS.listdir.
  destruct (OS.follow 40 f (Path.abspath wd d)) as [a|]; [|intros []].
  destruct (f !! a) as [[| |]|]; try (intros []).
  intros H. apply list_elem_of_In, list_elem_of_omap in H as (kv & _ & H).
  now apply child_name_plain in H.
Qed.

(** Every name [glob] returns for the pattern [*] is an entry that is not
    hidden, joined to its directory. *)
Lemma glob_star_elem (wd : string) expand (f : files) (dir p : string) :
  In p (OS.glob_star wd expand f dir) ->
  exists d n, p = Path.join d n /\ Spec.plain_name n = true
              /\ OS.ishidden n = false.
Proof.
  unfold OS.glob_star. intros H.
  apply in_flat_map in H as (d & _ & H).
  apply in_map_iff in H as (n & <- & H).
  apply filter_In in H as [Hn Hh].
  exists d, n. repeat split.
  - now apply listdir_plain in Hn.
  - now apply negb_true_iff in Hh.
Qed.

(** ** Running in the monad *)

Lemma bind_ok {A B} (m : M A) (k : A -> M B) (w w1 : world) (a : A) :
  m w = (Ok a, w1) -> bind m k w = k a w1.
Proof. unfold bind. now intros ->. Qed.

Lemma bind_lift_ok {A B} (r : result A) (k : A -> M B) (w : world) (a : A) :
  r = Ok a -> bind (lift r) k w = k a w.
Proof. now intros ->. Qed.

(** ** copymove: the files selected *)

Lemma select_matches_in (E : env) (pattern : json) (dst : fdesc)
    (names : list string) (pairs : list (fdesc * fdesc)) :
  select_matches E pattern dst names = Ok pairs ->
  forall sd, In sd pairs ->
    exists name, In name names /\ fst sd = plain_file E name
      /\ snd sd = plain_file E (Path.join (f_abs dst) (f_name (fst sd))).
Proof.
  revert pairs. induction names as [|name rest IH]; intros pairs H sd Hin.
  - injection H as <-. destruct Hin.
  - cbn [select_matches] in H. rewrite get_file_plain in H.
    cbn [rbind] in H.
    destruct (match_basename E pattern (f_name (plain_file E name)))
      as [m|e]; [|discriminate].
    cbn [rbind] in H.
    destruct (select_matches E pattern dst rest) as [more|e] eqn:Hrest.
    2:{ destruct m; [rewrite get_file_plain in H|]; discriminate. }
    destruct m.
    + rewrite get_file_plain in H. cbn [rbind] in H. injection H as <-.
      destruct Hin as [<- | Hin].
      * exists name. split; [now left | split; reflexivity].
      * destruct (IH more eq_refl sd Hin) as (nm & ? & ? & ?).
        exists nm. split; [now right | split; assumption].
    + cbn [rbind] in H. injection H as <-.
      destruct (IH more eq_refl sd Hin) as (nm & ? & ? & ?).
      exists nm. split; [now right | split; assumption].
Qed.

Lemma select_matches_total (E : env) (pattern : json) (dst : fdesc)
    (m : string -> bool) (names : list string) :
  (forall n, match_basename E pattern n = Ok (m n)) ->
  select_matches E pattern dst names =
  Ok (List.map
        (fun name =>
           (plain_file E name,
            plain_file E (Path.join (f_abs dst) (f_name (plain_file E name)))))
        (List.filter (fun name => m (f_name (plain_file E name))) names)).
Proof.
  intros Hm. induction names as [|name rest IH]; [reflexivity|].
  cbn [select_matches List.filter]. rewrite get_file_plain. cbn [rbind].
  rewrite Hm. cbn [rbind]. rewrite IH.
  destruct (m (f_name (plain_file E name))).
  - rewrite get_file_plain. reflexivity.
  - reflexivity.
Qed.

Lemma filter_map_entries (E : env) (m : string -> bool) (d : string)
    (ns : list string) :
  Forall (fun n => Spec.plain_name n = true) ns ->
  List.filter (fun name => m (f_name (plain_file E name)))
    (List.map (Path.join d) ns)
  = List.map (Path.join d) (List.filter m ns).
Proof.
  induction 1 as [|n ns Hn _ IH]; [reflexivity|].
  cbn [List.map List.filter]. rewrite (plain_file_entry E d n Hn), IH.
  now destruct (m n).
Qed.

(** ** The shape of a normalised path name *)

Lemma str_split_nosep (sep : ascii) (s : string) :
  Forall (fun c => Str.has_char sep c = false) (Str.split sep s).
Proof.
  induction s as [|c s IH]; [repeat constructor|].
  cbn [Str.split]. destruct (Ascii.eqb c sep) eqn:Hc.
  - constructor; [reflexivity | exact IH].
  - destruct (Str.split sep s) as [|h t].
    + constructor; [|constructor]. cbn. now rewrite Hc.
    + inversion IH as [|? ? Hh Ht]; subst.
      constructor; [|exact Ht]. cbn. now rewrite Hc, Hh.
Qed.

Lemma Forall_removelast {A} (P : A -> Prop) (l : list A) :
  Forall P l -> Forall P (removelast l).
Proof.
  induction 1 as [|x l Hx Hl IH]; [constructor|].
  cbn. destruct l; [constructor | now constructor].
Qed.

Lemma normpath_comps (k : nat) (L M : list string) :
  Forall (fun c => Str.has_char "/" c = false) L ->
  Forall (fun c => c <> "" /\ Str.has_char "/" c = false) M ->
  Forall (fun c => c <> "" /\ Str.has_char "/" c = false)
    (fold_left (Path.normpath_step k) L M).
Proof.
  intros HL. revert M. induction HL as [|c L Hc _ IH]; intros M HM; [exact HM|].
  cbn [fold_left]. apply IH. unfold Path.normpath_step.
  destruct (Str.eqb c "") eqn:H0; [exact HM|].
  cbn [orb]. destruct (Str.eqb c "."); [exact HM|].
  match goal with |- context [if ?b then _ else _] => destruct b end.
  - apply Forall_app_2; [exact HM|]. constructor; [|constructor].
    split; [now apply eqb_false_ne | exact Hc].
  - now apply Forall_removelast.
Qed.

Lemma nosep_endswith (c : ascii) (s : string) :
  Str.has_char c s = false -> Str.endswith_char s c = false.
Proof.
  induction s as [|a s IH]; [reflexivity|].
  intros H. apply has_char_cons in H as [Ha Hs].
  destruct s; [exact Ha | now apply IH].
Qed.

Lemma endswith_app (p y : string) (c : ascii) :
  y <> "" -> Str.endswith_char (p +:+ y) c = Str.endswith_char y c.
Proof.
  intros Hy. induction p as [|a p IH]; [reflexivity|].
  rewrite app_cons_str. cbn [Str.endswith_char].
  destruct (p +:+ y) eqn:Hpy; [|exact IH].
  destruct p; [now destruct Hy | discriminate].
Qed.

Lemma app_nonempty_r (p y : string) : y <> "" -> p +:+ y <> "".
Proof. intros Hy. destruct p; [exact Hy | discriminate]. Qed.

Lemma join_shape (comps : list string) :
  Forall (fun c => c <> "" /\ Str.has_char "/" c = false) comps ->
  comps <> [] ->
  Str.join "/" comps <> ""
  /\ Str.endswith_char (Str.join "/" comps) "/" = false.
Proof.
  induction 1 as [|c comps [Hc Hs] Hcs IH]; intros Hne; [now destruct Hne|].
  destruct comps as [|d comps].
  - split; [exact Hc | now apply nosep_endswith].
  - destruct IH as [IH1 IH2]; [discriminate|].
    change (Str.join "/" (c :: d :: comps))
      with (c +:+ "/" +:+ Str.join "/" (d :: comps)).
    split.
    + apply app_nonempty_r, app_nonempty_r, IH1.
    + rewrite endswith_app by (apply app_nonempty_r, IH1).
      now rewrite endswith_app.
Qed.

Lemma replicate_all_char (k : nat) (c : ascii) :
  Str.all_char c (Str.replicate k c) = true.
Proof. induction k; cbn; [reflexivity | now rewrite Ascii.eqb_refl]. Qed.

(** A normalised path name is not empty, and ends in a separator only when
    it consists of separators. *)
Lemma normpath_shape (q : string) :
  Path.normpath q <> ""
  /\ (Str.all_char "/" (Path.normpath q) = true
      \/ Str.endswith_char (Path.normpath q) "/" = false).
Proof.
  unfold Path.normpath.
  destruct (Str.eqb q ""); [split; [discriminate | now right]|].
  set (k := if Str.startswith q "/" then _ else _).
  pose proof (normpath_comps k (Str.split "/" q) []
                (str_split_nosep "/" q) (List.Forall_nil _)) as Hcomps.
  destruct (fold_left (Path.normpath_step k) (Str.split "/" q) [])
    as [|c comps] eqn:Hfold.
  - cbn [Str.join]. rewrite app_nil_r_str.
    destruct (Str.eqb (Str.replicate k "/") "") eqn:Hk.
    + split; [discriminate | now right].
    + split; [now apply eqb_false_ne | left; apply replicate_all_char].
  - destruct (join_shape (c :: comps) Hcomps) as [J1 J2]; [discriminate|].
    assert (Hne : Str.replicate k "/" +:+ Str.join "/" (c :: comps) <> "")
      by now apply app_nonempty_r.
    apply String.eqb_neq in Hne as Hne'. unfold Str.eqb. rewrite Hne'.
    split; [exact Hne|]. right. now rewrite endswith_app.
Qed.

Lemma all_char_endswith (c : ascii) (s : string) :
  s <> "" -> Str.all_char c s = true -> Str.endswith_char s c = true.
Proof.
  induction s as [|a s IH]; intros Hne H; [now destruct Hne|].
  cbn [Str.all_char] in H. apply andb_prop in H as [Ha Hs].
  destruct s; [exact Ha|]. apply IH; [discriminate | exact Hs].
Qed.

Lemma all_char_app_false (c : ascii) (s t : string) :
  Str.all_char c s = false -> Str.all_char c (s +:+ t) = false.
Proof.
  induction s as [|a s IH]; [discriminate|].
  rewrite app_cons_str. cbn [Str.all_char].
  destruct (Ascii.eqb a c); [exact IH | reflexivity].
Qed.

Lemma rstrip_app_sep (c : ascii) (s : string) :
  s <> "" -> Str.endswith_char s c = false ->
  Str.rstrip c (s +:+ String c "") = s.
Proof.
  induction s as [|a s IH]; intros Hne He; [now destruct Hne|].
  rewrite app_cons_str. cbn [Str.rstrip].
  destruct s as [|b s].
  - cbn [Str.endswith_char] in He.
    change ("" +:+ String c "") with (String c "").
    cbn [Str.rstrip]. rewrite Ascii.eqb_refl. now rewrite He.
  - rewrite IH; [reflexivity | discriminate | exact He].
Qed.

(** The directory [glob] lists for the pattern [x/*] is [x] itself, when
    [x] is normalised. *)
Lemma split_join_star (q : string) :
  fst (Path.split (Path.join (Path.normpath q) "*")) = Path.normpath q.
Proof.
  destruct (normpath_shape q) as [Hne Hsh].
  set (x := Path.normpath q) in *.
  unfold Path.join. change (Str.startswith "*" "/") with false.
  apply String.eqb_neq in Hne as Hne'. unfold Str.eqb at 1. rewrite Hne'.
  cbn [orb]. destruct (Str.endswith_char x "/") eqn:He.
  - destruct Hsh as [Hall|Hno]; [|discriminate].
    destruct (endswith_char_inv _ _ He) as [x' Hx'].
    unfold Path.split. rewrite Hx', app_assoc_str.
    rewrite (split_last_tail x' "*" eq_refl). rewrite <- Hx', Hall.
    rewrite andb_false_r. reflexivity.
  - unfold Path.split. rewrite (split_last_tail x "*" eq_refl).
    assert (Hall : Str.all_char "/" x = false).
    { destruct (Str.all_char "/" x) eqn:Ha; [|reflexivity].
      rewrite (all_char_endswith _ _ Hne Ha) in He. discriminate. }
    rewrite (all_char_app_false _ _ "/" Hall).
    assert (Hx : Str.eqb (x +:+ "/") "" = false).
    { apply String.eqb_neq. now apply app_nonempty_r. }
    rewrite Hx. cbn [negb andb fst].
    now apply rstrip_app_sep.
Qed.

Lemma get_file_value_abs (E : env) (s : json) (path : option string)
    (subs : json) (src : fdesc) :
  get_file_value E s path subs = Ok src ->
  exists q, f_abs src = Path.normpath q.
Proof.
  destruct s; cbn [get_file_value];
    try (destruct subs; try discriminate;
         match goal with
         | |- context [existsb ?h ?d] => destruct (existsb h d)
         | _ => idtac
         end; discriminate).
  unfold get_file.
  destruct (get_substituted_path _ _) as [new_name|]; [|discriminate].
  cbn [rbind]. destruct (Path.split _) as [dir name].
  intros [= <-]. cbn [f_abs]. unfold Path.abspath. eauto.
Qed.

(** ** C2 and C10: the files a [copy] or [move] with [match] works on *)

(** C10.  With [match] present, every file [copymove] selects has a base
    name that does not begin with a dot, whatever the regular expression
    matches; [copymove] copies or moves the selected files and no others. *)
Theorem copymove_skips_hidden (E : env) (repo_link commit path : string)
    (row : list (string * json)) (subs pattern : json) (w w' : world)
    (pairs : list (fdesc * fdesc)) :
  dict_get "match" row = Some pattern ->
  copymove_files E path row subs w = (Ok pairs, w') ->
  (forall sd, In sd pairs ->
     OS.ishidden (f_name (fst sd)) = false
     /\ OS.ishidden (snd (Path.split (f_abs (fst sd)))) = false
     /\ OS.ishidden (f_name (snd sd)) = false)
  /\ copymove E repo_link commit path row subs w =
     bind (lift (row_type row)) (fun action =>
       for_each pairs (fun sd =>
         copymove_single E repo_link commit path row (fst sd) (snd sd)
           (Str.eqb action "move"))) w'.
Proof.
  intros Hm H. split.
  - unfold copymove_files, bind, lift, get_fs in H. rewrite Hm in H.
    destruct (dict_item "src" row) as [s|]; [|discriminate].
    destruct (get_file_value E s (Some path) subs) as [src|]; [|discriminate].
    destruct (dict_item "dst" row) as [d|]; [|discriminate].
    destruct (get_file_value E d (Some path) subs) as [dst|]; [|discriminate].
    destruct (select_matches _ _ _ _) as [ps|] eqn:Hs; [|discriminate].
    injection H as <- <-.
    intros sd Hin.
    destruct (select_matches_in _ _ _ _ _ Hs sd Hin) as (name & Hn & Hf & Hd).
    apply glob_star_elem in Hn as (dir & n & -> & Hp & Hh).
    assert (Hname : f_name (fst sd) = n)
      by (rewrite Hf; now apply plain_file_entry).
    repeat split.
    + now rewrite Hname.
    + rewrite Hf. unfold plain_file at 1. cbn [f_abs].
      change (snd (Path.split (Path.abspath (cwd E) (Path.join dir n))))
        with (f_name (plain_file E (Path.join dir n))).
      now rewrite plain_file_entry.
    + rewrite Hd, Hname. now rewrite plain_file_entry.
  - unfold copymove. now rewrite (bind_ok _ _ _ _ _ H).
Qed.

(** In the workspace of the scenario, [site] holds [.htaccess], which the
    expression [.*] matches; a [move] of [site] with that expression selects
    [index.html] alone. *)
Lemma copymove_skips_hidden_witness :
  Re.re_match ".*" ".htaccess" = Ok true
  /\ (forall sd, In sd Scenario.site_pairs ->
        OS.ishidden (f_name (fst sd)) = false
        /\ OS.ishidden (snd (Path.split (f_abs (fst sd)))) = false
        /\ OS.ishidden (f_name (snd sd)) = false).
Proof.
  split; [reflexivity|].
  apply (copymove_skips_hidden Demo.E Scenario.repo_link Scenario.commit
           tmpdir Scenario.move_site (JDict []) (JStr ".*")
           Scenario.w_fetched Scenario.w_fetched Scenario.site_pairs).
  - reflexivity.
  - vm_compute. reflexivity.
Defined.

(** The general half of C2, as the code has it: with [match] present and no
    wildcard character in the name of the source directory, [copymove]
    works on the entries of the source directory that are not hidden and
    that [re.match] accepts, in the order of the listing, each under its own
    base name in the source and in the destination directory. *)
Lemma copymove_match_files (E : env) (repo_link commit path : string)
    (row : list (string * json)) (subs s d : json) (src dst : fdesc)
    (p action : string) (m : string -> bool) (w : world) :
  dict_get "src" row = Some s ->
  get_file_value E s (Some path) subs = Ok src ->
  dict_get "dst" row = Some d ->
  get_file_value E d (Some path) subs = Ok dst ->
  dict_get "match" row = Some (JStr p) ->
  (forall n, re_match E p n = Ok (m n)) ->
  row_type row = Ok action ->
  OS.has_magic (f_abs src) = false ->
  let chosen :=
    List.filter m
      (List.filter (fun n => negb (OS.ishidden n))
         (OS.listdir (cwd E) (fs w) (f_abs src))) in
  let pair n :=
    (plain_file E (Path.join (f_abs src) n),
     plain_file E (Path.join (f_abs dst) n)) in
  copymove E repo_link commit path row subs w =
    for_each (List.map pair chosen)
      (fun sd => copymove_single E repo_link commit path row (fst sd) (snd sd)
                   (Str.eqb action "move")) w
  /\ Forall (fun n => f_name (fst (pair n)) = n /\ f_name (snd (pair n)) = n)
       chosen.
Proof.
  intros Hs Hsrc Hd Hdst Hm Hre Hty Hmagic chosen pair.
  assert (Hplain : Forall (fun n => Spec.plain_name n = true) chosen).
  { apply List.Forall_forall. intros n Hn. unfold chosen in Hn.
    apply filter_In in Hn as [Hn _]. apply filter_In in Hn as [Hn _].
    now apply listdir_plain in Hn. }
  split.
  - destruct (get_file_value_abs _ _ _ _ _ Hsrc) as [q Hq].
    assert (Hglob : OS.glob_star (cwd E) (glob_dirs E) (fs w) (f_abs src)
              = List.map (Path.join (f_abs src))
                  (List.filter (fun n => negb (OS.ishidden n))
                     (OS.listdir (cwd E) (fs w) (f_abs src)))).
    { unfold OS.glob_star. rewrite Hq, split_join_star, <- Hq, Hmagic.
      rewrite andb_false_r. cbn [flat_map]. apply app_nil_r. }
    assert (Hfiles : copymove_files E path row subs w
              = (Ok (List.map pair chosen), w)).
    { unfold copymove_files, dict_item. rewrite Hs, Hd, Hm.
      rewrite (bind_lift_ok _ _ _ _ eq_refl), (bind_lift_ok _ _ _ _ Hsrc).
      rewrite (bind_lift_ok _ _ _ _ eq_refl), (bind_lift_ok _ _ _ _ Hdst).
      unfold bind, get_fs, lift. rewrite Hglob.
      rewrite (select_matches_total E (JStr p) dst m) by exact Hre.
      rewrite filter_map_entries.
      2:{ apply List.Forall_forall. intros n Hn.
          apply filter_In in Hn as [Hn _]. now apply listdir_plain in Hn. }
      rewrite List.map_map. do 2 f_equal.
      apply List.map_ext_in. intros n Hn. unfold pair. f_equal.
      rewrite plain_file_entry; [reflexivity|].
      eapply List.Forall_forall in Hplain; [exact Hplain | exact Hn]. }
    unfold copymove. rewrite (bind_ok _ _ _ _ _ Hfiles).
    now rewrite (bind_lift_ok _ _ _ _ Hty).
  - eapply List.Forall_impl; [|exact Hplain].
    intros n Hn. unfold pair. cbn [fst snd].
    split; now apply plain_file_entry.
Qed.

(** The scenario of C2 as the specification writes it: [re.match] looks for
    the expression at the beginning of the base name, so [\.js$] accepts
    none of [a.js], [b.js] and [c.txt]; the action succeeds and copies
    nothing. *)
Lemma copy_match_js_copies_nothing :
  copymove Demo.E Scenario.repo_link Scenario.commit tmpdir
    (Scenario.copy_match "\.js$") (JDict []) Scenario.w_fetched
    = (Ok tt, Scenario.w_fetched)
  /\ fs Scenario.w_fetched !! "/srv/out/js/a.js" = None
  /\ fs Scenario.w_fetched !! "/srv/out/js/b.js" = None
  /\ List.map (fun n => Re.re_match "\.js$" n) ["a.js"; "b.js"; "c.txt"]
     = [Ok false; Ok false; Ok false].
Proof. vm_compute. repeat split; reflexivity. Qed.

(** C2, amended.  With [match] present and no wildcard character in the
    name of the source directory, [copymove] works on exactly the entries of
    the source directory that are not hidden and whose base name [re.match]
    accepts, that is, matches from its beginning; each is copied under its
    own base name.  In the scenario, the expression [.*\.js$] copies [a.js]
    and [b.js] and leaves [c.txt]. *)
Theorem copymove_match_selects :
  (forall (E : env) (repo_link commit path : string)
     (row : list (string * json)) (subs s d : json) (src dst : fdesc)
     (p action : string) (m : string -> bool) (w : world),
     dict_get "src" row = Some s ->
     get_file_value E s (Some path) subs = Ok src ->
     dict_get "dst" row = Some d ->
     get_file_value E d (Some path) subs = Ok dst ->
     dict_get "match" row = Some (JStr p) ->
     (forall n, re_match E p n = Ok (m n)) ->
     row_type row = Ok action ->
     OS.has_magic (f_abs src) = false ->
     let chosen :=
       List.filter m
         (List.filter (fun n => negb (OS.ishidden n))
            (OS.listdir (cwd E) (fs w) (f_abs src))) in
     let pair n :=
       (plain_file E (Path.join (f_abs src) n),
        plain_file E (Path.join (f_abs dst) n)) in
     copymove E repo_link commit path row subs w =
       for_each (List.map pair chosen)
         (fun sd => copymove_single E repo_link commit path row
                      (fst sd) (snd sd) (Str.eqb action "move")) w
     /\ Forall (fun n => f_name (fst (pair n)) = n
                         /\ f_name (snd (pair n)) = n) chosen)
  /\ (let out := copymove Demo.E Scenario.repo_link Scenario.commit tmpdir
                   (Scenario.copy_match ".*\.js$") (JDict [])
                   Scenario.w_fetched in
      OS.listdir "/srv/deploy" Scenario.fetched "github_deploy_repo__tmp/js"
        = ["c.txt"; "a.js"; "b.js"]
      /\ fst out = Ok tt
      /\ fs (snd out) !! "/srv/out/js/a.js" = Some (File "var a;")
      /\ fs (snd out) !! "/srv/out/js/b.js" = Some (File "var b;")
      /\ fs (snd out) !! "/srv/out/js/c.txt" = None
      /\ OS.listdir "/srv/deploy" (fs (snd out)) "/srv/out/js"
         = ["a.js"; "b.js"]).
Proof.
  split.
  - intros. eapply copymove_match_files; eassumption.
  - vm_compute. repeat split; reflexivity.
Qed.

(** The general statement at the scenario: of the three entries of [js],
    the expression [.*\.js$] chooses [a.js] and [b.js]. *)
Lemma copymove_match_selects_witness :
  copymove Demo.E Scenario.repo_link Scenario.commit tmpdir
    (Scenario.copy_match ".*\.js$") (JDict []) Scenario.w_fetched =
  for_each
    (List.map
       (fun n =>
          (plain_file Demo.E (Path.join (f_abs Scenario.dir_js) n),
           plain_file Demo.E (Path.join (f_abs Scenario.dir_out_js) n)))
       (List.filter Scenario.ends_js
          (List.filter (fun n => negb (OS.ishidden n))
             (OS.listdir (cwd Demo.E) (fs Scenario.w_fetched)
                (f_abs Scenario.dir_js)))))
    (fun sd => copymove_single Demo.E Scenario.repo_link Scenario.commit
                 tmpdir (Scenario.copy_match ".*\.js$") (fst sd) (snd sd)
                 (Str.eqb "copy" "move")) Scenario.w_fetched
  /\ List.filter Scenario.ends_js
       (List.filter (fun n => negb (OS.ishidden n))
          (OS.listdir (cwd Demo.E) (fs Scenario.w_fetched)
             (f_abs Scenario.dir_js))) = ["a.js"; "b.js"].
Proof.
  split.
  - apply (proj1 copymove_match_selects Demo.E Scenario.repo_link
             Scenario.commit tmpdir (Scenario.copy_match ".*\.js$")
             (JDict []) (JStr "js") (JStr "/srv/out/js")
             Scenario.dir_js Scenario.dir_out_js ".*\.js$" "copy"
             Scenario.ends_js Scenario.w_fetched);
      intros; vm_compute; reflexivity.
  - vm_compute. reflexivity.
Defined.

(** ** The status table and the record of events *)

Section Quiet.

Context {P : event -> Prop}.

Lemma quiet_ret {A} (a : A) : quiet P (ret a).
Proof. intros w. repeat split. exists []. now rewrite app_nil_r. Qed.

Lemma quiet_raise {A} (e : exn) : quiet P (@raise A e).
Proof. intros w. repeat split. exists []. now rewrite app_nil_r. Qed.

Lemma quiet_lift {A} (r : result A) : quiet P (lift r).
Proof. intros w. repeat split. exists []. now rewrite app_nil_r. Qed.

Lemma quiet_get_fs : quiet P get_fs.
Proof. intros w. repeat split. exists []. now rewrite app_nil_r. Qed.

Lemma quiet_on_fs {A} (op : files -> result A * files) : quiet P (on_fs op).
Proof.
  intros w. unfold on_fs. destruct (op (fs w)) as [r f]. cbn.
  repeat split. exists []. now rewrite app_nil_r.
Qed.

Lemma quiet_log (e : event) : P e -> quiet P (log e).
Proof.
  intros He w. cbn. repeat split. exists [e]. split; [reflexivity|].
  now constructor.
Qed.

Lemma quiet_bind {A B} (m : M A) (k : A -> M B) :
  quiet P m -> (forall a, quiet P (k a)) -> quiet P (bind m k).
Proof.
  intros Hm Hk w. unfold bind.
  destruct (Hm w) as (Hd & Hc & evs & Ht & Hf).
  destruct (m w) as [[a|e] w1]; cbn in *.
  - destruct (Hk a w1) as (Hd' & Hc' & evs' & Ht' & Hf').
    rewrite Hd', Hc', Ht', Hd, Hc, Ht. repeat split.
    exists (evs ++ evs'). rewrite app_assoc. split; [reflexivity|].
    now apply Forall_app_2.
  - repeat split; try assumption. now exists evs.
Qed.

Lemma quiet_try {A} (m : M A) : quiet P m -> quiet P (try m).
Proof.
  intros Hm w. unfold try. specialize (Hm w).
  now destruct (m w) as [r w1].
Qed.

Lemma quiet_for_each {A} (l : list A) (body : A -> M unit) :
  (forall x, quiet P (body x)) -> quiet P (for_each l body).
Proof.
  intros Hb. induction l as [|x l IH]; cbn [for_each].
  - apply quiet_ret.
  - apply quiet_bind; [apply Hb | intros _; exact IH].
Qed.

End Quiet.

Lemma quiet_weaken {A} (P Q : event -> Prop) (m : M A) :
  (forall e, P e -> Q e) -> quiet P m -> quiet Q m.
Proof.
  intros HPQ Hm w. destruct (Hm w) as (Hd & Hc & evs & Ht & Hf).
  repeat split; try assumption. exists evs. split; [assumption|].
  eapply List.Forall_impl; [exact HPQ | exact Hf].
Qed.

Create HintDb quiet.

(** One step of a proof that a computation is quiet. *)
Ltac quiet_step :=
  first
    [ solve [auto 1 with quiet nocore]
    | apply quiet_ret | apply quiet_raise | apply quiet_lift
    | apply quiet_get_fs | apply quiet_on_fs | apply quiet_try
    | apply quiet_bind; [|intros ?]
    | apply quiet_for_each; intros ?
    | match goal with
      | |- quiet _ (match ?x with _ => _ end) => destruct x
      | |- quiet _ (if ?b then _ else _) => destruct b
      | |- quiet _ (let (_, _) := ?x in _) => destruct x
      end ].

Ltac quiet_auto := repeat quiet_step.

Section QuietProgram.

Variable E : env.

Lemma quiet_add_header (repo_link commit : string) (src : fdesc)
    (dst_ext : string) :
  quiet no_event (add_header E repo_link commit src dst_ext).
Proof.
  unfold add_header. destruct (header_style _) as [style|]; [|apply quiet_ret].
  intros w.
  match goal with
  | |- context [?m w] =>
      assert (H : quiet no_event m) by quiet_auto; exact (H w)
  end.
Qed.
#[local] Hint Resolve quiet_add_header : quiet.

Lemma quiet_load_pairs (templates : list fdesc) :
  quiet no_event (load_pairs E templates).
Proof.
  induction templates as [|t rest IH]; cbn [load_pairs]; unfold read_text;
    quiet_auto.
Qed.
#[local] Hint Resolve quiet_load_pairs : quiet.

Lemma quiet_replace_keywords (src : fdesc) (templates : list fdesc) :
  quiet no_event (replace_keywords E src templates).
Proof. unfold replace_keywords, read_text. quiet_auto. Qed.
#[local] Hint Resolve quiet_replace_keywords : quiet.

Lemma quiet_copymove_single (repo_link commit path : string)
    (row : list (string * json)) (src dst : fdesc) (is_move : bool) :
  quiet no_event (copymove_single E repo_link commit path row src dst is_move).
Proof. unfold copymove_single, sh. quiet_auto. Qed.
#[local] Hint Resolve quiet_copymove_single : quiet.

Lemma quiet_copymove_files (path : string) (row : list (string * json))
    (subs : json) : quiet no_event (copymove_files E path row subs).
Proof. unfold copymove_files. quiet_auto. Qed.
#[local] Hint Resolve quiet_copymove_files : quiet.

Lemma quiet_copymove (repo_link commit path : string)
    (row : list (string * json)) (subs : json) :
  quiet no_event (copymove E repo_link commit path row subs).
Proof. unfold copymove. quiet_auto. Qed.

Lemma quiet_compile_coffee (repo_link commit path : string)
    (row : list (string * json)) (subs : json) :
  quiet no_event (compile_coffee E repo_link commit path row subs).
Proof. unfold compile_coffee, sh. quiet_auto. Qed.

Lemma quiet_minimize_js (repo_link commit path : string)
    (row : list (string * json)) (subs : json) :
  quiet no_event (minimize_js E repo_link commit path row subs).
Proof. unfold minimize_js, sh. quiet_auto. Qed.

Lemma quiet_action_export (repo_link commit path : string)
    (row : list (string * json)) (subs : json) :
  quiet no_event (action_export E repo_link commit path row subs).
Proof. unfold action_export. quiet_auto. Qed.

Lemma quiet_action_import (repo_link commit path : string)
    (row : list (string * json)) (subs : json) :
  quiet no_event (action_import E repo_link commit path row subs).
Proof. unfold action_import. quiet_auto. Qed.

Lemma quiet_executors (action : string) run :
  executors E action = Some run ->
  forall repo_link commit path row subs,
    quiet no_event (run repo_link commit path row subs).
Proof.
  unfold executors. intros H.
  repeat match type of H with
         | (if ?b then _ else _) = _ => destruct b
         end;
    try discriminate; injection H as <-; intros.
  - apply quiet_copymove.
  - apply quiet_copymove.
  - apply quiet_compile_coffee.
  - apply quiet_minimize_js.
  - apply quiet_action_export.
  - apply quiet_action_import.
Qed.

Lemma quiet_run_actions (repo_link commit path : string) (paths : json)
    (total idx : nat) (rows : list json) :
  quiet is_action (run_actions E repo_link commit path paths total idx rows).
Proof.
  revert idx. induction rows as [|row rest IH]; intros idx; cbn [run_actions].
  - apply quiet_ret.
  - destruct row as [| | | | s | l | r]; try apply quiet_raise.
    + apply IH.
    + destruct (dict_get "type" r) as [[| | | | t | |]|]; try apply quiet_raise.
      destruct (executors E (Str.lower t)) as [run|] eqn:Hrun;
        [|apply quiet_raise].
      apply quiet_bind; [apply quiet_log; now eexists | intros _].
      apply quiet_bind; [|intros _; apply IH].
      apply (quiet_weaken no_event); [intros ? [] |].
      now apply (quiet_executors _ _ Hrun).
Qed.
#[local] Hint Resolve quiet_run_actions : quiet.

Lemma quiet_execute_config (repo_link commit path : string) (c : json) :
  quiet is_action (execute_config E repo_link commit path c).
Proof. unfold execute_config. quiet_auto. Qed.
#[local] Hint Resolve quiet_execute_config : quiet.

Lemma quiet_execute (repo_link commit path config : string) :
  quiet is_action (execute E repo_link commit path config).
Proof. unfold execute, read_text. quiet_auto. Qed.
#[local] Hint Resolve quiet_execute : quiet.

Lemma silent_fetch (owner name : string) : quiet no_event (fetch E owner name).
Proof. unfold fetch, sh. quiet_auto. Qed.

Lemma silent_unpack (owner name : string) : quiet no_event (unpack E owner name).
Proof. unfold unpack. quiet_auto. Qed.

Lemma quiet_fetch (owner name : string) : quiet is_action (fetch E owner name).
Proof. apply (quiet_weaken no_event); [intros ? [] | apply silent_fetch]. Qed.

Lemma quiet_unpack (owner name : string) : quiet is_action (unpack E owner name).
Proof. apply (quiet_weaken no_event); [intros ? [] | apply silent_unpack]. Qed.

Lemma quiet_deploy_config (commit url : string) :
  quiet is_action (deploy_config E commit url).
Proof. unfold deploy_config. quiet_auto. Qed.
#[local] Hint Resolve quiet_fetch quiet_unpack quiet_deploy_config : quiet.

Lemma quiet_deploy_try (owner name : string) :
  quiet is_action (deploy_try E owner name).
Proof. unfold deploy_try. quiet_auto. Qed.

End QuietProgram.

(** ** deploy_repo *)

Section Deploy.

Variable E : env.

(** The [try] block catches what its statements raise: it fails with the
    status [-1], and ends with the status its last statement assigns. *)
Lemma deploy_try_block (owner name : string) (w : world) :
  match try_block E owner name w with
  | (Ok (commit, status), w1) =>
      deploy_try E owner name w = (Ok (None, Some commit, status), w1)
      /\ (status = 1 \/ status = 2)%Z
  | (Raise ex, w1) =>
      exists commit,
        deploy_try E owner name w = (Ok (Some ex, commit, (-1)%Z), w1)
  end.
Proof.
  unfold try_block, deploy_try, bind, try, ret.
  destruct (fetch E owner name w) as [[[commit url]|ex] w1]; [|eauto].
  cbn [fst snd].
  destruct (unpack E owner name w1) as [[[]|ex] w2]; [|eauto].
  unfold deploy_config, bind, get_fs, ret.
  destruct (OS.isfile (cwd E) (fs w2) config_file).
  - destruct (execute E _ commit tmpdir config_name w2) as [[[]|ex] w3];
      [split; [reflexivity | now left] | eauto].
  - split; [reflexivity | now right].
Qed.

Lemma deploy_try_total (owner name : string) (w : world) :
  exists exc commit status w1,
    deploy_try E owner name w = (Ok (exc, commit, status), w1)
    /\ (forall ex, exc = Some ex -> status = (-1)%Z)
    /\ (exc = None -> status = 1%Z \/ status = 2%Z).
Proof.
  pose proof (deploy_try_block owner name w) as H.
  destruct (try_block E owner name w) as [[[commit status]|ex] w1].
  - destruct H as [H Hs]. exists None, (Some commit), status, w1.
    split; [exact H|]. split; [discriminate | intros _; exact Hs].
  - destruct H as [commit H]. exists (Some ex), commit, (-1)%Z, w1.
    split; [exact H|]. split; [reflexivity | discriminate].
Qed.

(** [deploy_repo], step by step: the [try] block, the removal of the
    workspace, the status record, the exception. *)
Lemma deploy_repo_steps (owner name : string) (w w1 : world)
    (exc : option exn) (commit : option string) (status : Z) :
  deploy_try E owner name (begun owner name w)
    = (Ok (exc, commit, status), w1) ->
  deploy_repo E owner name w =
    (match final_exception exc (fst (OS.rmtree (cwd E) tmpdir (fs w1))) with
     | Some ex => Raise ex
     | None => Ok tt
     end,
     mk_world (snd (OS.rmtree (cwd E) tmpdir (fs w1)))
       (<[owner +:+ "/" +:+ name :=
            mk_repo_row
              (match commit with
               | Some c => c
               | None =>
                   default no_commit
                     (row_commit <$> (db w1 !! (owner +:+ "/" +:+ name)))
               end)
              (clock w1) status]> (db w1))
       (clock w1)
       (trace w1 ++ [EvTeardown; EvStatus (owner +:+ "/" +:+ name) status])).
Proof.
  intros H. unfold deploy_repo. unfold begun in H.
  unfold bind at 1. cbn [log]. cbn [log snd] in H.
  unfold bind at 1. rewrite H.
  unfold cleanup, bind, try, on_fs, log, ret, set_repo_status, raise.
  cbn [fs db clock trace].
  destruct (OS.rmtree (cwd E) tmpdir (fs w1)) as [cleaned f2].
  cbn [fst snd fs db clock trace]. rewrite <- app_assoc. cbn [app].
  destruct commit as [c|];
    destruct cleaned as [[]|ex2], exc as [ex|]; reflexivity.
Qed.

(** What a deployment leaves in the record of events and in the table. *)
Lemma deploy_repo_record (owner name : string) (w : world) :
  exists exc commit status w1 acts,
    deploy_try E owner name (begun owner name w)
      = (Ok (exc, commit, status), w1)
    /\ (forall ex, exc = Some ex -> status = (-1)%Z)
    /\ (exc = None -> status = 1%Z \/ status = 2%Z)
    /\ Forall is_action acts
    /\ db w1 = db w
    /\ trace (snd (deploy_repo E owner name w))
       = trace w ++ [EvDeploy owner name] ++ acts
         ++ [EvTeardown; EvStatus (owner +:+ "/" +:+ name) status]
    /\ status_of (snd (deploy_repo E owner name w)) owner name = Some status
    /\ (forall k, is_Some (db w !! k) ->
                  is_Some (db (snd (deploy_repo E owner name w)) !! k))
    /\ fst (deploy_repo E owner name w)
       = match final_exception exc (fst (OS.rmtree (cwd E) tmpdir (fs w1))) with
         | Some ex => Raise ex
         | None => Ok tt
         end.
Proof.
  destruct (deploy_try_total owner name (begun owner name w))
    as (exc & commit & status & w1 & Htry & Hfail & Hok).
  destruct (quiet_deploy_try E owner name (begun owner name w))
    as (Hdb & _ & acts & Htr & Hacts).
  rewrite Htry in Hdb, Htr. unfold begun in Hdb, Htr.
  cbn [snd log db trace] in Hdb, Htr.
  exists exc, commit, status, w1, acts.
  rewrite (deploy_repo_steps _ _ _ _ _ _ _ Htry). cbn [fst snd trace db].
  repeat split; try assumption.
  - rewrite Htr. now rewrite <- !app_assoc.
  - unfold status_of. cbn [db]. now rewrite lookup_insert_eq.
  - intros k Hk. rewrite <- Hdb in Hk.
    destruct (decide (owner +:+ "/" +:+ name = k)) as [<-|Hne].
    + rewrite lookup_insert_eq. eauto.
    + now rewrite lookup_insert_ne.
Qed.

End Deploy.

(** ** C8: the workspace is removed on every path *)

(** C8.  Whatever the [try] block of [deploy_repo] ended with, the removal
    of the workspace is attempted next: the files left are those
    [shutil.rmtree] leaves, and the attempt is recorded after the events of
    the block.  An exception of the block is raised again whether or not the
    removal fails; the exception of a failing removal is raised when the
    block raised none; else nothing is raised.  (By [deploy_try_total] the
    block always ends in one of these ways.) *)
Theorem teardown_on_every_path (E : env) (owner name : string) (w w1 : world)
    (exc : option exn) (commit : option string) (status : Z) :
  deploy_try E owner name (begun owner name w)
    = (Ok (exc, commit, status), w1) ->
  fs (snd (deploy_repo E owner name w))
    = snd (OS.rmtree (cwd E) tmpdir (fs w1))
  /\ (exists acts,
        Forall is_action acts
        /\ trace w1 = trace w ++ [EvDeploy owner name] ++ acts
        /\ trace (snd (deploy_repo E owner name w))
           = trace w1
             ++ [EvTeardown; EvStatus (owner +:+ "/" +:+ name) status])
  /\ fst (deploy_repo E owner name w)
     = match exc, fst (OS.rmtree (cwd E) tmpdir (fs w1)) with
       | Some ex, _ => Raise ex
       | None, Raise ex => Raise ex
       | None, Ok _ => Ok tt
       end.
Proof.
  intros Htry.
  destruct (quiet_deploy_try E owner name (begun owner name w))
    as (_ & _ & acts & Htr & Hacts).
  rewrite Htry in Htr. unfold begun in Htr. cbn [snd log trace] in Htr.
  rewrite (deploy_repo_steps _ _ _ _ _ _ _ _ Htry). cbn [fst snd fs trace].
  split; [reflexivity|]. split.
  - exists acts. split; [exact Hacts|]. split; [|reflexivity].
    now rewrite Htr, <- app_assoc.
  - unfold final_exception.
    destruct exc, (fst (OS.rmtree (cwd E) tmpdir (fs w1))) as [[]|];
      reflexivity.
Qed.

(** The three ways out at work.  A package with a read-only directory: the
    block raises nothing, the removal fails, its exception is raised.  A
    repository that cannot be cloned: the exception of the block is raised.
    In a working directory that is read-only, creating the workspace fails
    and so does removing it: the first exception is the one raised. *)
Lemma teardown_on_every_path_witness :
  deploy_try Demo.E_pkg "<local>" "locked.tgz" (begun "<local>" "locked.tgz" Demo.w_host)
    = (Ok (None, Some Scenario.sha1, 2%Z), Scenario.tried "locked.tgz" Demo.w_host)
  /\ fst (OS.rmtree (cwd Demo.E_pkg) tmpdir
            (fs (Scenario.tried "locked.tgz" Demo.w_host)))
     = Raise (PermissionError Demo.workspace)
  /\ fst (deploy_repo Demo.E_pkg "<local>" "locked.tgz" Demo.w_host)
     = Raise (PermissionError Demo.workspace).
Proof.
  assert (H : deploy_try Demo.E_pkg "<local>" "locked.tgz"
                (begun "<local>" "locked.tgz" Demo.w_host)
              = (Ok (None, Some Scenario.sha1, 2%Z),
                 Scenario.tried "locked.tgz" Demo.w_host))
    by (vm_compute; reflexivity).
  split; [exact H|]. split; [vm_compute; reflexivity|].
  destruct (teardown_on_every_path _ _ _ _ _ _ _ _ H) as (_ & _ & Hr).
  rewrite Hr. vm_compute. reflexivity.
Defined.

Example teardown_keeps_first_exception :
  fst (fetch Demo.E_pkg "cmu-delphi" "www" (begun "cmu-delphi" "www" Demo.w_readonly))
    = Raise (PermissionError Demo.workspace)
  /\ fst (OS.rmtree (cwd Demo.E_pkg) tmpdir (fs Demo.w_readonly))
     = Raise (FileNotFoundError Demo.workspace)
  /\ fst (deploy_repo Demo.E_pkg "cmu-delphi" "www" Demo.w_readonly)
     = Raise (PermissionError Demo.workspace)
  /\ trace (snd (deploy_repo Demo.E_pkg "cmu-delphi" "www" Demo.w_readonly))
     = [EvDeploy "cmu-delphi" "www"; EvTeardown; EvStatus "cmu-delphi/www" (-1)].
Proof. vm_compute. repeat split; reflexivity. Qed.

(** ** C3: what is recorded for a failed and for a skipped unit *)

Lemma isfile_false_status (E : env) (owner name commit url : string)
    (w w1 w2 : world) :
  fetch E owner name w = (Ok (commit, url), w1) ->
  unpack E owner name w1 = (Ok tt, w2) ->
  OS.isfile (cwd E) (fs w2) config_file = false ->
  deploy_try E owner name w = (Ok (None, Some commit, 2%Z), w2).
Proof.
  intros Hf Hu Hc. unfold deploy_try, bind, try. rewrite Hf, Hu.
  unfold deploy_config, bind, get_fs, ret. now rewrite Hc.
Qed.

(** A unit that is skipped and fails: the package [locked.tgz] holds no
    instruction document, its status is recorded as skipped, and the
    deployment raises the exception of the failed removal. *)
Lemma skipped_unit_raises_cleanup_error :
  OS.isfile (cwd Demo.E_pkg) (fs (Scenario.unpacked_pkg "locked.tgz" Demo.w_host))
    config_file = false
  /\ status_of (snd (deploy_repo Demo.E_pkg "<local>" "locked.tgz" Demo.w_host))
       "<local>" "locked.tgz" = Some 2%Z
  /\ fst (deploy_repo Demo.E_pkg "<local>" "locked.tgz" Demo.w_host)
     = Raise (PermissionError Demo.workspace).
Proof. vm_compute. repeat split; reflexivity. Qed.

(** C3, amended.  When a statement of the [try] block raises (in the fetch,
    in the validation of the document or in an action), the status recorded
    is [-1] and that exception is the one [deploy_repo] raises, the record
    being made before.  When the fetched workspace holds no instruction
    document, the status recorded is [2], and [deploy_repo] raises nothing
    if the removal of the workspace succeeds, the exception of the removal
    if it fails. *)
Theorem failure_and_skip_recorded (E : env) (owner name : string) (w : world) :
  (forall ex w1,
     try_block E owner name (begun owner name w) = (Raise ex, w1) ->
     fst (deploy_repo E owner name w) = Raise ex
     /\ status_of (snd (deploy_repo E owner name w)) owner name = Some (-1)%Z
     /\ exists evs,
          trace (snd (deploy_repo E owner name w))
          = evs ++ [EvStatus (owner +:+ "/" +:+ name) (-1)%Z])
  /\ (forall commit url w1 w2,
        fetch E owner name (begun owner name w) = (Ok (commit, url), w1) ->
        unpack E owner name w1 = (Ok tt, w2) ->
        OS.isfile (cwd E) (fs w2) config_file = false ->
        status_of (snd (deploy_repo E owner name w)) owner name = Some 2%Z
        /\ fst (deploy_repo E owner name w)
           = match fst (OS.rmtree (cwd E) tmpdir (fs w2)) with
             | Ok _ => Ok tt
             | Raise ex => Raise ex
             end).
Proof.
  split.
  - intros ex w1 Hb.
    pose proof (deploy_try_block E owner name (begun owner name w)) as Ht.
    rewrite Hb in Ht. destruct Ht as [commit Ht].
    rewrite (deploy_repo_steps _ _ _ _ _ _ _ _ Ht).
    cbn [fst snd]. unfold status_of. cbn [db trace].
    rewrite lookup_insert_eq. split; [|split; [reflexivity|]].
    + unfold final_exception.
      now destruct (fst (OS.rmtree (cwd E) tmpdir (fs w1))).
    + exists (trace w1 ++ [EvTeardown]). now rewrite <- app_assoc.
  - intros commit url w1 w2 Hf Hu Hc.
    pose proof (isfile_false_status _ _ _ _ _ _ _ _ Hf Hu Hc) as Ht.
    rewrite (deploy_repo_steps _ _ _ _ _ _ _ _ Ht).
    cbn [fst snd]. unfold status_of. cbn [db].
    rewrite lookup_insert_eq. split; [reflexivity|].
    unfold final_exception.
    now destruct (fst (OS.rmtree (cwd E) tmpdir (fs w2))) as [[]|].
Qed.

(** Both halves at work: the package that cannot be fetched is recorded as
    failed and its exception raised; the package without instruction
    document is recorded as skipped and nothing is raised. *)
Lemma failure_and_skip_recorded_witness :
  (fst (deploy_repo Demo.E_pkg "<local>" "missing.tgz" Demo.w_host)
     = Raise (CalledProcessError "sha1sum 'missing.tgz'")
   /\ status_of (snd (deploy_repo Demo.E_pkg "<local>" "missing.tgz" Demo.w_host))
        "<local>" "missing.tgz" = Some (-1)%Z)
  /\ (status_of (snd (deploy_repo Demo.E_pkg "<local>" "docs.tgz" Demo.w_host))
        "<local>" "docs.tgz" = Some 2%Z
      /\ fst (deploy_repo Demo.E_pkg "<local>" "docs.tgz" Demo.w_host) = Ok tt).
Proof.
  split.
  - destruct (proj1 (failure_and_skip_recorded Demo.E_pkg "<local>"
                       "missing.tgz" Demo.w_host)
                (CalledProcessError "sha1sum 'missing.tgz'")
                (snd (try_block Demo.E_pkg "<local>" "missing.tgz"
                        (begun "<local>" "missing.tgz" Demo.w_host))))
      as (H1 & H2 & _).
    + vm_compute. reflexivity.
    + split; assumption.
  - destruct (proj2 (failure_and_skip_recorded Demo.E_pkg "<local>"
                       "docs.tgz" Demo.w_host)
                Scenario.sha1 "file://docs.tgz"
                (Scenario.fetched_pkg "docs.tgz" Demo.w_host)
                (Scenario.unpacked_pkg "docs.tgz" Demo.w_host))
      as (H1 & H2).
    + vm_compute. reflexivity.
    + vm_compute. reflexivity.
    + vm_compute. reflexivity.
    + split; [exact H1|]. rewrite H2. vm_compute. reflexivity.
Defined.

(** ** C4: the batch *)






Lemma first_failure_none (rs : list (result unit)) :
  Forall (fun r => is_ok r = true) rs -> first_failure rs = Ok tt.
Proof.
  induction 1 as [|r rs Hr _ IH]; [reflexivity|].
  destruct r as [[]|]; [exact IH | discriminate].
Qed.

Lemma first_failure_first (oks rs : list (result unit)) (ex : exn) :
  Forall (fun r => is_ok r = true) oks ->
  first_failure (oks ++ Raise ex :: rs) = Raise ex.
Proof.
  induction 1 as [|r oks Hr _ IH]; [reflexivity|].
  destruct r as [[]|]; [exact IH | discriminate].
Qed.



(** The batch of the specification: three packages, the second of which
    cannot be fetched.  All three are begun and recorded, and the exception
    raised is the one of the second. *)
Example deploy_all_three_units :
  unit_results Demo.E_pkg Scenario.batch Demo.w_host
    = [Ok tt; Raise (CalledProcessError "sha1sum 'missing.tgz'"); Ok tt]
  /\ fst (deploy_all Demo.E_pkg Scenario.batch Demo.w_host)
     = Raise (CalledProcessError "sha1sum 'missing.tgz'")
  /\ deploys (trace (snd (deploy_all Demo.E_pkg Scenario.batch Demo.w_host)))
     = Scenario.batch
  /\ List.map (fun on => status_of (snd (deploy_all Demo.E_pkg Scenario.batch
                                           Demo.w_host)) (fst on) (snd on))
       Scenario.batch
     = [Some 2%Z; Some (-1)%Z; Some 1%Z].
Proof. vm_compute. repeat split; reflexivity. Qed.

(** ** C7: a document with [skip] set *)

Lemma read_file_isfile (wd p : string) (f : files) (c : string) :
  OS.read_file wd p f = Ok c -> OS.isfile wd f p = true.
Proof.
  unfold OS.read_file, OS.isfile, OS.stat.
  destruct (OS.follow 40 f (Path.abspath wd p)) as [q|]; [|discriminate].
  destruct (f !! q) as [[| |]|]; try discriminate. reflexivity.
Qed.

(** With [skip] set in a valid document, [execute] returns at once: the
    world is as it was, no action has been run. *)
Lemma execute_config_skip (E : env) (repo_link commit path : string)
    (cfg : list (string * json)) (w : world) :
  sanity_checks cfg = Ok tt ->
  dict_get "skip" cfg = Some (JBool true) ->
  execute_config E repo_link commit path (JDict cfg) w = (Ok tt, w).
Proof.
  intros Hv Hs. unfold execute_config.
  rewrite (bind_lift_ok _ _ _ _ Hv). now rewrite Hs.
Qed.

(** What a removal that succeeds leaves: nothing of the tree. *)
Lemma rmtree_ok_removed (wd p : string) (f f' : files) :
  OS.rmtree wd p f = (Ok tt, f') ->
  forall k, OS.under (Path.abspath wd p) k = true -> f' !! k = None.
Proof.
  unfold OS.rmtree. intros H k Hk.
  destruct (f !! Path.abspath wd p) as [[| |]|]; try discriminate.
  destruct (OS.removable wd f (Path.abspath wd p)); [|discriminate].
  injection H as <-. apply map_lookup_filter_None. right.
  intros x _. cbn [fst]. now rewrite Hk.
Qed.

(** The package [frozen.tgz]: a valid document with [skip] set and one
    action, and a directory that cannot be emptied.  No action is run and
    the status [1] is recorded, but the workspace is not torn down: the
    directory of the workspace and the file in the read-only directory are
    still there, and the deployment raises the error of the removal. *)
Lemma skip_workspace_remains :
  sanity_checks Demo.skip_cfg = Ok tt
  /\ dict_get "skip" Demo.skip_cfg = Some (JBool true)
  /\ (exists row, dict_get "actions" Demo.skip_cfg = Some (JList [row]))
  /\ rbind (OS.read_file (cwd Locked.E) config_file
              (fs (snd (unpack Locked.E "<local>" "frozen.tgz"
                          (snd (fetch Locked.E "<local>" "frozen.tgz"
                                  (begun "<local>" "frozen.tgz" Demo.w_host)))))))
        (fun content => json_loads Locked.E (universal_newlines content))
      = Ok (JDict Demo.skip_cfg)
  /\ trace (snd (deploy_repo Locked.E "<local>" "frozen.tgz" Demo.w_host))
     = [EvDeploy "<local>" "frozen.tgz"; EvTeardown;
        EvStatus "<local>/frozen.tgz" 1%Z]
  /\ status_of (snd (deploy_repo Locked.E "<local>" "frozen.tgz" Demo.w_host))
       "<local>" "frozen.tgz" = Some 1%Z
  /\ fs (snd (deploy_repo Locked.E "<local>" "frozen.tgz" Demo.w_host))
       !! Demo.workspace = Some (Dir true)
  /\ fs (snd (deploy_repo Locked.E "<local>" "frozen.tgz" Demo.w_host))
       !! (Demo.workspace +:+ "/ro/data") = Some (File "x")
  /\ exists p,
       fst (deploy_repo Locked.E "<local>" "frozen.tgz" Demo.w_host)
       = Raise (PermissionError p).
Proof.
  vm_compute.
  split; [reflexivity|]. split; [reflexivity|]. split; [eauto|].
  split; [reflexivity|]. split; [reflexivity|]. split; [reflexivity|].
  split; [reflexivity|]. split; [reflexivity|]. eauto.
Qed.

(** C7, amended.  For a valid instruction document with [skip] true and a
    list of actions that is not empty: [execute] runs no action and changes
    nothing; the events of the deployment are its beginning, the removal of
    the workspace and the record of the status [1], with no action between;
    the files left are those the removal of the workspace leaves.  When the
    removal succeeds, the deployment raises nothing and no entry of the
    workspace is left, the directory of the workspace included; when the
    removal raises, the deployment raises that exception, the status [1]
    being recorded all the same. *)
Theorem skip_runs_no_action (E : env) (owner name : string) (w w1 w2 : world)
    (commit url content : string) (cfg : list (string * json))
    (actions : list json) :
  fetch E owner name (begun owner name w) = (Ok (commit, url), w1) ->
  unpack E owner name w1 = (Ok tt, w2) ->
  OS.read_file (cwd E) config_file (fs w2) = Ok content ->
  json_loads E (universal_newlines content) = Ok (JDict cfg) ->
  sanity_checks cfg = Ok tt ->
  dict_get "skip" cfg = Some (JBool true) ->
  dict_get "actions" cfg = Some (JList actions) ->
  actions <> [] ->
  execute E (Str.drop_end 4 url) commit tmpdir config_name w2 = (Ok tt, w2)
  /\ trace (snd (deploy_repo E owner name w))
     = trace w ++ [EvDeploy owner name; EvTeardown;
                   EvStatus (owner +:+ "/" +:+ name) 1%Z]
  /\ status_of (snd (deploy_repo E owner name w)) owner name = Some 1%Z
  /\ fs (snd (deploy_repo E owner name w))
     = snd (OS.rmtree (cwd E) tmpdir (fs w2))
  /\ (fst (OS.rmtree (cwd E) tmpdir (fs w2)) = Ok tt ->
      fst (deploy_repo E owner name w) = Ok tt
      /\ forall k, OS.under (Path.abspath (cwd E) tmpdir) k = true ->
                   fs (snd (deploy_repo E owner name w)) !! k = None)
  /\ (forall ex, fst (OS.rmtree (cwd E) tmpdir (fs w2)) = Raise ex ->
                 fst (deploy_repo E owner name w) = Raise ex).
Proof.
  intros Hf Hu Hr Hj Hv Hs _ _.
  assert (Hex : execute E (Str.drop_end 4 url) commit tmpdir config_name w2
                = (Ok tt, w2)).
  { unfold execute, read_text, on_fs, bind.
    change (Path.join tmpdir config_name) with config_file.
    rewrite Hr. cbn [rbind lift]. rewrite Hj.
    rewrite (execute_config_skip _ _ _ _ _ _ Hv Hs). now destruct w2. }
  split; [exact Hex|].
  assert (Ht : deploy_try E owner name (begun owner name w)
               = (Ok (None, Some commit, 1%Z), w2)).
  { unfold deploy_try, bind, try. rewrite Hf, Hu.
    unfold deploy_config, bind, get_fs.
    rewrite (read_file_isfile _ _ _ _ Hr), Hex. reflexivity. }
  destruct (silent_fetch E owner name (begun owner name w))
    as (_ & _ & evs1 & Ht1 & He1).
  destruct (silent_unpack E owner name w1) as (_ & _ & evs2 & Ht2 & He2).
  rewrite Hf in Ht1. rewrite Hu in Ht2. cbn [snd] in Ht1, Ht2.
  assert (evs1 = []) as -> by (destruct He1 as [|? ? []]; reflexivity).
  assert (evs2 = []) as -> by (destruct He2 as [|? ? []]; reflexivity).
  rewrite app_nil_r in Ht1, Ht2.
  rewrite (deploy_repo_steps _ _ _ _ _ _ _ _ Ht). cbn [fst snd fs trace].
  unfold status_of. cbn [db]. rewrite lookup_insert_eq.
  split; [|split; [reflexivity|split; [reflexivity|]]].
  - rewrite Ht2, Ht1. unfold begun. cbn [snd log trace].
    now rewrite <- app_assoc.
  - unfold final_exception.
    destruct (OS.rmtree (cwd E) tmpdir (fs w2)) as [[[]|ex] f'] eqn:Hrm;
      cbn [fst snd]; split.
    + intros _. split; [reflexivity|]. apply (rmtree_ok_removed _ _ _ _ Hrm).
    + intros ex [=].
    + intros [=].
    + now intros ex' [= <-].
Qed.

(** The package [skip.tgz]: its document is valid, sets [skip] and lists a
    [copy]; the deployment copies nothing, records a success and, the
    removal of the workspace being possible, leaves nothing of it. *)
Lemma skip_runs_no_action_witness :
  execute Demo.E_pkg "file://skip" Scenario.sha1 tmpdir config_name
    (Scenario.unpacked_pkg "skip.tgz" Demo.w_host)
    = (Ok tt, Scenario.unpacked_pkg "skip.tgz" Demo.w_host)
  /\ trace (snd (deploy_repo Demo.E_pkg "<local>" "skip.tgz" Demo.w_host))
     = [EvDeploy "<local>" "skip.tgz"; EvTeardown;
        EvStatus "<local>/skip.tgz" 1%Z]
  /\ status_of (snd (deploy_repo Demo.E_pkg "<local>" "skip.tgz" Demo.w_host))
       "<local>" "skip.tgz" = Some 1%Z
  /\ fs (snd (deploy_repo Demo.E_pkg "<local>" "skip.tgz" Demo.w_host))
     = snd (OS.rmtree (cwd Demo.E_pkg) tmpdir
              (fs (Scenario.unpacked_pkg "skip.tgz" Demo.w_host)))
  /\ (fst (OS.rmtree (cwd Demo.E_pkg) tmpdir
             (fs (Scenario.unpacked_pkg "skip.tgz" Demo.w_host))) = Ok tt ->
      fst (deploy_repo Demo.E_pkg "<local>" "skip.tgz" Demo.w_host) = Ok tt
      /\ forall k, OS.under (Path.abspath (cwd Demo.E_pkg) tmpdir) k = true ->
                   fs (snd (deploy_repo Demo.E_pkg "<local>" "skip.tgz"
                              Demo.w_host)) !! k = None)
  /\ (forall ex,
        fst (OS.rmtree (cwd Demo.E_pkg) tmpdir
               (fs (Scenario.unpacked_pkg "skip.tgz" Demo.w_host))) = Raise ex ->
        fst (deploy_repo Demo.E_pkg "<local>" "skip.tgz" Demo.w_host)
        = Raise ex).
Proof.
  apply (skip_runs_no_action Demo.E_pkg "<local>" "skip.tgz" Demo.w_host
           (Scenario.fetched_pkg "skip.tgz" Demo.w_host)
           (Scenario.unpacked_pkg "skip.tgz" Demo.w_host)
           Scenario.sha1 "file://skip.tgz" Demo.skip_text Demo.skip_cfg
           [JDict [("type", JStr "copy"); ("src", JStr "a.txt");
                   ("dst", JStr "/srv/out/a.txt")]]);
    try (vm_compute; reflexivity).
  discriminate.
Defined.

(** Without [skip] the same package runs its action. *)
Example copy_package_runs_action :
  trace (snd (deploy_repo Demo.E_pkg "<local>" "copy.tgz" Demo.w_host))
    = [EvDeploy "<local>" "copy.tgz"; EvAction "copy"; EvTeardown;
       EvStatus "<local>/copy.tgz" 1%Z]
  /\ fs (snd (deploy_repo Demo.E_pkg "<local>" "copy.tgz" Demo.w_host))
       !! "/srv/out/a.txt" = Some (File "a")
  /\ fs (snd (deploy_repo Demo.E_pkg "<local>" "skip.tgz" Demo.w_host))
       !! "/srv/out/a.txt" = None.
Proof. vm_compute. repeat split; reflexivity. Qed.

(** ** C9: validation and [skip] *)

(** A document that fails a sanity check is never executed, and never
    skipped with success either: [execute] raises. *)
Lemma validation_precedes_skip (E : env) (repo_link commit path : string)
    (cfg : list (string * json)) (w : world) :
  Spec.type_invalid cfg \/ Spec.version_outside cfg \/ Spec.actions_invalid cfg ->
  exists ex, execute_config E repo_link commit path (JDict cfg) w = (Raise ex, w).
Proof.
  unfold Spec.type_invalid, Spec.version_outside, Spec.actions_invalid.
  intros H. unfold execute_config, sanity_checks, bind, lift.
  destruct (version_in_range _) as [b|ex]; cbn [rbind]; [|eauto].
  destruct (json_eq_str _ typestr); cbn [negb]; [|eauto].
  destruct b; cbn [negb]; [|eauto].
  destruct (dict_get "actions" cfg) as [[| | | | | l |]|]; cbn [negb]; eauto.
  destruct H as [H | [H | []]]; discriminate.
Qed.

(** Where the version can be compared with a number, the exception is the
    one of the sanity checks, naming the first field that fails. *)
Lemma invalid_config_raised (E : env) (repo_link commit path : string)
    (cfg : list (string * json)) (w : world) :
  Spec.version_comparable cfg ->
  Spec.type_invalid cfg \/ Spec.version_outside cfg \/ Spec.actions_invalid cfg ->
  exists field,
    In field ["type"; "version"; "actions"]
    /\ execute_config E repo_link commit path (JDict cfg) w
       = (Raise (Spec.invalid_config field), w).
Proof.
  unfold Spec.version_comparable, Spec.type_invalid, Spec.version_outside,
    Spec.actions_invalid.
  intros [b Hb] H. unfold execute_config, sanity_checks, bind, lift.
  rewrite Hb in *. cbn [rbind].
  destruct (json_eq_str _ typestr); cbn [negb].
  2:{ exists "type". split; [now left | reflexivity]. }
  destruct b; cbn [negb].
  2:{ exists "version". split; [right; now left | reflexivity]. }
  destruct (dict_get "actions" cfg) as [[| | | | | l |]|]; cbn [negb];
    try (exists "actions"; split; [right; right; now left | reflexivity]).
  destruct H as [H | [H | []]]; discriminate.
Qed.

(** C9.  The document has a wrong type sentinel and sets [skip]; its version
    is a string.  The three sanity checks are evaluated before any of them
    is looked at, and comparing the version with a number fails: [execute]
    raises [TypeError], not the exception of an invalid configuration. *)
Theorem text_version_raises_type_error (E : env)
    (repo_link commit path : string) (w : world) :
  Spec.type_invalid Scenario.text_version_cfg
  /\ dict_get "skip" Scenario.text_version_cfg = Some (JBool true)
  /\ execute_config E repo_link commit path (JDict Scenario.text_version_cfg) w
     = (Raise TypeError, w)
  /\ forall field, TypeError <> Spec.invalid_config field.
Proof. repeat split. discriminate. Qed.

(** ** C5: import *)

(** The first [import] creates the link. *)
Example import_creates_link :
  fst (action_import Demo.E Scenario.repo_link Scenario.commit tmpdir
         Scenario.import_util (JDict []) Scenario.w_fetched) = Ok tt
  /\ fs (snd (action_import Demo.E Scenario.repo_link Scenario.commit tmpdir
                Scenario.import_util (JDict []) Scenario.w_fetched))
       !! Scenario.util_link = Some (Link Scenario.util_export).
Proof. vm_compute. split; reflexivity. Qed.

(** When the exported file is there, a second [import] finds the link and
    changes nothing. *)
Example import_twice_exported :
  let w1 := snd (action_import Demo.E Scenario.repo_link Scenario.commit
                   tmpdir Scenario.import_util (JDict []) Scenario.w_exported) in
  fs w1 !! Scenario.util_link = Some (Link Scenario.util_export)
  /\ action_import Demo.E Scenario.repo_link Scenario.commit tmpdir
       Scenario.import_util (JDict []) w1 = (Ok tt, w1).
Proof. vm_compute. split; reflexivity. Qed.

(** A file that is no link at the destination: the conflict is reported,
    every time, and nothing changes. *)
Example import_conflict :
  action_import Demo.E Scenario.repo_link Scenario.commit tmpdir
    Scenario.import_util (JDict []) Scenario.w_occupied
  = (Raise (Exception "object with destination name already exists"),
     Scenario.w_occupied).
Proof. vm_compute. reflexivity. Qed.

(** C5.  The exported file is not there yet (the unit that exports it has
    not been deployed).  The first [import] creates the link; for the
    second, [os.path.exists] follows the link, finds nothing and answers
    false, and [os.symlink] fails on the link that exists: the second call
    raises [FileExistsError]. *)
Theorem import_twice_dangling :
  let w1 := snd (action_import Demo.E Scenario.repo_link Scenario.commit
                   tmpdir Scenario.import_util (JDict []) Scenario.w_fetched) in
  fs Scenario.w_fetched !! Scenario.util_export = None
  /\ fst (action_import Demo.E Scenario.repo_link Scenario.commit tmpdir
            Scenario.import_util (JDict []) Scenario.w_fetched) = Ok tt
  /\ fs w1 !! Scenario.util_link = Some (Link Scenario.util_export)
  /\ action_import Demo.E Scenario.repo_link Scenario.commit tmpdir
       Scenario.import_util (JDict []) w1
     = (Raise (FileExistsError Scenario.util_link), w1).
Proof. vm_compute. repeat split; reflexivity. Qed.

(** ** C6: the header *)

Lemma follow_end (fuel : nat) (f : files) (p q : string) :
  OS.follow fuel f p = Some q -> forall t, f !! q <> Some (Link t).
Proof.
  revert p. induction fuel as [|k IH]; intros p H t; cbn [OS.follow] in H.
  - destruct (f !! p) as [[| |]|] eqn:Hp; try discriminate;
      injection H as <-; rewrite Hp; discriminate.
  - destruct (f !! p) as [[| |t']|] eqn:Hp;
      try (injection H as <-; rewrite Hp; discriminate).
    now apply (IH _ H).
Qed.

(** Writing a file where a path leads does not change where it leads. *)
Lemma follow_insert (fuel : nat) (f : files) (p q c : string) :
  OS.follow fuel f p = Some q ->
  OS.follow fuel (<[q := File c]> f) p = Some q.
Proof.
  revert p. induction fuel as [|k IH]; intros p H;
    pose proof (follow_end _ _ _ _ H) as Hq; cbn [OS.follow] in *.
  - destruct (f !! p) as [[| |t]|] eqn:Hp; try discriminate;
      injection H as <-; now rewrite lookup_insert_eq.
  - destruct (f !! p) as [[| |t]|] eqn:Hp;
      try (injection H as <-; now rewrite lookup_insert_eq).
    assert (Hne : q <> p) by (intros ->; now apply (Hq t)).
    rewrite lookup_insert_ne by exact Hne. rewrite Hp. now apply IH.
Qed.

Lemma write_file_ok (wd p c : string) (f f1 : files) :
  OS.write_file wd p c f = (Ok tt, f1) ->
  exists q, OS.follow 40 f (Path.abspath wd p) = Some q
            /\ f1 = <[q := File c]> f.
Proof.
  unfold OS.write_file.
  destruct (OS.follow 40 f (Path.abspath wd p)) as [q|]; [|discriminate].
  intros H. exists q. split; [reflexivity|].
  destruct (f !! q) as [[| |]|].
  - now injection H as <-.
  - discriminate.
  - now injection H as <-.
  - destruct (OS.parent_writable wd f q) as [[|]|]; try discriminate.
    now injection H as <-.
Qed.

(** A file that has been written can be written again and read back. *)
Lemma write_again (wd p c c' : string) (f f1 : files) :
  OS.write_file wd p c f = (Ok tt, f1) ->
  exists f2, OS.write_file wd p c' f1 = (Ok tt, f2)
             /\ OS.read_file wd p f2 = Ok c'.
Proof.
  intros H. destruct (write_file_ok _ _ _ _ _ H) as (q & Hq & ->).
  exists (<[q := File c']> (<[q := File c]> f)).
  pose proof (follow_insert _ _ _ _ c Hq) as Hq1.
  pose proof (follow_insert _ _ _ _ c' Hq1) as Hq2.
  split.
  - unfold OS.write_file. rewrite Hq1, lookup_insert_eq. reflexivity.
  - unfold OS.read_file. rewrite Hq2, lookup_insert_eq. reflexivity.
Qed.

(** Writing a file does not change where another path leads, nor what is
    read there. *)
Lemma follow_insert_other (fuel : nat) (f : files) (p q r c : string) :
  (forall t, f !! q <> Some (Link t)) ->
  OS.follow fuel f p = Some r -> r <> q ->
  OS.follow fuel (<[q := File c]> f) p = Some r.
Proof.
  intros Hq. revert p. induction fuel as [|k IH]; intros p H Hne;
    cbn [OS.follow] in *.
  - destruct (f !! p) as [[| |t]|] eqn:Hp; try discriminate;
      injection H as <-; rewrite lookup_insert_ne by congruence;
      now rewrite Hp.
  - destruct (f !! p) as [[| |t]|] eqn:Hp;
      try (injection H as <-; rewrite lookup_insert_ne by congruence;
           now rewrite Hp).
    assert (Hpq : q <> p) by (intros ->; now apply (Hq t)).
    rewrite lookup_insert_ne by exact Hpq. rewrite Hp. now apply IH.
Qed.

Lemma read_after_write (wd p s c content : string) (f f1 : files) :
  OS.write_file wd p c f = (Ok tt, f1) ->
  OS.read_file wd s f = Ok content ->
  OS.samefile wd f s p = false ->
  OS.read_file wd s f1 = Ok content.
Proof.
  intros Hw Hr Hs. destruct (write_file_ok _ _ _ _ _ Hw) as (q & Hq & ->).
  unfold OS.read_file in *. unfold OS.samefile in Hs. rewrite Hq in Hs.
  destruct (OS.follow 40 f (Path.abspath wd s)) as [r|] eqn:Hfs;
    [|discriminate].
  assert (Hne : r <> q).
  { intros ->. unfold Str.eqb in Hs. rewrite String.eqb_refl in Hs.
    destruct (f !! q) as [[| |]|]; discriminate. }
  rewrite (follow_insert_other _ _ _ _ _ c (follow_end _ _ _ _ Hq) Hfs Hne).
  rewrite lookup_insert_ne by congruence. exact Hr.
Qed.

Lemma existsb_eqb_false (ext : string) (l : list string) :
  ~ In ext l -> existsb (Str.eqb ext) l = false.
Proof.
  intros H. destruct (existsb (Str.eqb ext) l) eqn:He; [|reflexivity].
  apply existsb_exists in He as (x & Hx & Heq).
  apply String.eqb_eq in Heq as ->. contradiction.
Qed.

(** An extension outside the list of the specification, and no part of
    [php], has no comment syntax. *)
Lemma header_style_none (ext : string) :
  ~ In ext Spec.supported_extensions ->
  Str.contains "php" ext = false ->
  header_style ext = None.
Proof.
  intros Hn Hp. unfold header_style.
  rewrite !existsb_eqb_false, Hp; [reflexivity | | |];
    intros Hin; apply Hn; unfold Spec.supported_extensions;
    cbn [In] in *; tauto.
Qed.

(** Every extension of the list has a comment syntax: the one the
    specification gives it. *)
Lemma header_style_supported :
  List.map header_style Spec.supported_extensions
  = [Some ("/*" +:+ nl, "*/" +:+ nl +:+ nl +:+ nl +:+ nl, "", "");
     Some ("/*" +:+ nl, "*/" +:+ nl +:+ nl +:+ nl +:+ nl, "", "");
     Some ("/*" +:+ nl, "*/" +:+ nl +:+ nl +:+ nl +:+ nl, "", "");
     Some ("/*" +:+ nl, "*/" +:+ nl +:+ nl +:+ nl +:+ nl, "", "");
     Some ("/*" +:+ nl, "*/" +:+ nl +:+ nl +:+ nl +:+ nl, "", "");
     Some ("/*" +:+ nl, "*/" +:+ nl +:+ nl +:+ nl +:+ nl, "", "");
     Some ("/*" +:+ nl, "*/" +:+ nl +:+ nl +:+ nl +:+ nl, "", "");
     Some ("/*" +:+ nl, "*/" +:+ nl +:+ nl +:+ nl +:+ nl, "", "");
     Some ("<!--" +:+ nl, "-->" +:+ nl +:+ nl +:+ nl +:+ nl, "", "");
     Some ("<!--" +:+ nl, "-->" +:+ nl +:+ nl +:+ nl +:+ nl, "", "");
     Some ("", nl +:+ nl +:+ nl, "# ", " #");
     Some ("", nl +:+ nl +:+ nl, "# ", " #");
     Some ("", nl +:+ nl +:+ nl, "# ", " #");
     Some ("", nl +:+ nl +:+ nl, "# ", " #");
     Some ("<?php /*" +:+ nl, "*/" +:+ nl +:+ nl +:+ nl +:+ nl +:+ "?>", "", "")].
Proof. vm_compute. reflexivity. Qed.

Lemma header_style_some (ext : string) :
  In ext Spec.supported_extensions -> is_Some (header_style ext).
Proof.
  unfold Spec.supported_extensions. cbn [In]. intros H.
  repeat (destruct H as [<- | H]; [vm_compute; eauto|]). destruct H.
Qed.

(** [add_header] for an extension with a comment syntax, when the new file
    can be opened, the source can be read and the two are not one file. *)
Lemma add_header_written (E : env) (repo_link commit : string) (src : fdesc)
    (dst_ext : string) (w : world) (style : string * string * string * string)
    (f1 : files) (content : string) :
  header_style (Str.lower dst_ext) = Some style ->
  OS.write_file (cwd E) (f_abs (plain_file E (f_abs src +:+ "__header"))) ""
    (fs w) = (Ok tt, f1) ->
  OS.read_file (cwd E) (f_abs src) (fs w) = Ok content ->
  OS.samefile (cwd E) (fs w) (f_abs src)
    (f_abs (plain_file E (f_abs src +:+ "__header"))) = false ->
  exists w',
    add_header E repo_link commit src dst_ext w
      = (Ok (plain_file E (f_abs src +:+ "__header")), w')
    /\ OS.read_file (cwd E) (f_abs (plain_file E (f_abs src +:+ "__header")))
         (fs w')
       = Ok (header_text E style repo_link commit (clock w) +:+ content)
    /\ db w' = db w /\ trace w' = trace w.
Proof.
  intros Hs Hw Hr0 Hsame.
  pose proof (read_after_write _ _ _ _ _ _ _ Hw Hr0 Hsame) as Hr.
  destruct (write_again _ _ _
              (header_text E style repo_link commit (clock w) +:+ content)
              _ _ Hw) as (f2 & Hw2 & Hr2).
  unfold add_header. rewrite Hs.
  rewrite (bind_lift_ok _ _ _ _ (get_file_plain E _)).
  unfold bind, on_fs, try, ret. rewrite Hw. cbn [fs db clock trace].
  rewrite Hr. cbn [fs db clock trace]. rewrite Hw2.
  eexists. split; [reflexivity|].
  cbn [fs db trace]. now rewrite Hr2.
Qed.

(** The content the specification gives is not the one written: for
    [a.js] the comment is closed before the content of the file, not after
    it. *)
Lemma header_closed_before_content :
  header_style "js" = Some Scenario.js_style
  /\ fst (add_header Demo.E Scenario.repo_link Scenario.commit Scenario.a_js
            "js" Scenario.w_fetched)
     = Ok (plain_file Demo.E Scenario.a_js_header)
  /\ fs (snd (add_header Demo.E Scenario.repo_link Scenario.commit
                Scenario.a_js "js" Scenario.w_fetched))
       !! Scenario.a_js_header
     = Some (File (header_text Demo.E Scenario.js_style Scenario.repo_link
                     Scenario.commit 1481803200 +:+ "var a;"))
  /\ header_text Demo.E Scenario.js_style Scenario.repo_link Scenario.commit
       1481803200 +:+ "var a;"
     <> Spec.content_then_suffix Demo.E Scenario.js_style Scenario.repo_link
          Scenario.commit 1481803200 "var a;".
Proof.
  split; [vm_compute; reflexivity|].
  split; [vm_compute; reflexivity|].
  split; [vm_compute; reflexivity|].
  vm_compute. discriminate.
Qed.

(** Why the header file must not be the source: when [a.js__header] is a
    link to [a.js], opening it for writing empties [a.js] before it is
    read; both the write and the read succeed, and what is produced is the
    header alone, in the source file itself. *)
Example header_link_loses_content :
  OS.samefile (cwd Demo.E) (fs Alias.w_linked) (f_abs Scenario.a_js)
    Scenario.a_js_header = true
  /\ OS.read_file (cwd Demo.E) (f_abs Scenario.a_js) (fs Alias.w_linked)
     = Ok "var a;"
  /\ fst (add_header Demo.E Scenario.repo_link Scenario.commit Scenario.a_js
            "js" Alias.w_linked)
     = Ok (plain_file Demo.E Scenario.a_js_header)
  /\ OS.read_file (cwd Demo.E) Scenario.a_js_header
       (fs (snd (add_header Demo.E Scenario.repo_link Scenario.commit
                   Scenario.a_js "js" Alias.w_linked)))
     = Ok (header_text Demo.E Scenario.js_style Scenario.repo_link
             Scenario.commit 1481803200).
Proof.
  split; [vm_compute; reflexivity|].
  split; [vm_compute; reflexivity|].
  split; [vm_compute; reflexivity|].
  vm_compute. reflexivity.
Qed.

(** A file without extension is given the header of [php]: the empty
    string is a part of ['php']. *)
Example header_for_no_extension :
  ~ In "" Spec.supported_extensions
  /\ header_style "" = header_style "php"
  /\ is_ok (fst (add_header Demo.E Scenario.repo_link Scenario.commit
                   Scenario.makefile "" Scenario.w_makefile)) = true
  /\ fst (add_header Demo.E Scenario.repo_link Scenario.commit
            Scenario.makefile "" Scenario.w_makefile) <> Ok Scenario.makefile.
Proof.
  split; [|split; [|split]].
  - unfold Spec.supported_extensions. cbn [In]. intuition discriminate.
  - vm_compute. reflexivity.
  - vm_compute. reflexivity.
  - vm_compute. discriminate.
Qed.

(** C6, amended.  For an extension that, in lower case, is in the supported
    set, a comment syntax is defined ([header_style_supported] lists them),
    and when the new file can be opened, the source can be read and the two
    are not one file, the file [add_header] produces holds the prefix of the
    wrapper, the banner and metadata lines, the suffix of the wrapper and
    then the original content.  For an extension that is neither in the set
    nor a part of the string [php], [add_header] returns the source file,
    changes nothing and raises nothing. *)
Theorem add_header_content (E : env) (repo_link commit : string) (src : fdesc)
    (dst_ext : string) (w : world) :
  (In (Str.lower dst_ext) Spec.supported_extensions ->
   exists style,
     header_style (Str.lower dst_ext) = Some style
     /\ forall f1 content,
          OS.write_file (cwd E)
            (f_abs (plain_file E (f_abs src +:+ "__header"))) "" (fs w)
            = (Ok tt, f1) ->
          OS.read_file (cwd E) (f_abs src) (fs w) = Ok content ->
          OS.samefile (cwd E) (fs w) (f_abs src)
            (f_abs (plain_file E (f_abs src +:+ "__header"))) = false ->
          exists w',
            add_header E repo_link commit src dst_ext w
              = (Ok (plain_file E (f_abs src +:+ "__header")), w')
            /\ OS.read_file (cwd E)
                 (f_abs (plain_file E (f_abs src +:+ "__header"))) (fs w')
               = Ok (header_text E style repo_link commit (clock w)
                     +:+ content))
  /\ (~ In (Str.lower dst_ext) Spec.supported_extensions ->
      Str.contains "php" (Str.lower dst_ext) = false ->
      add_header E repo_link commit src dst_ext w = (Ok src, w)).
Proof.
  split.
  - intros Hin. destruct (header_style_some _ Hin) as [style Hs].
    exists style. split; [exact Hs|]. intros f1 content Hw Hr Hsame.
    destruct (add_header_written E repo_link commit src dst_ext w style
                f1 content Hs Hw Hr Hsame) as (w' & H1 & H2 & _).
    now exists w'.
  - intros Hn Hp. unfold add_header.
    now rewrite (header_style_none _ Hn Hp).
Qed.

(** Both halves at work: the header of [a.js] for the extension [JS], and
    the extension [txt], which has none. *)
Lemma add_header_content_witness :
  (exists w',
     add_header Demo.E Scenario.repo_link Scenario.commit Scenario.a_js "JS"
       Scenario.w_fetched
     = (Ok (plain_file Demo.E (f_abs Scenario.a_js +:+ "__header")), w')
     /\ OS.read_file (cwd Demo.E)
          (f_abs (plain_file Demo.E (f_abs Scenario.a_js +:+ "__header")))
          (fs w')
        = Ok (header_text Demo.E Scenario.js_style Scenario.repo_link
                Scenario.commit (clock Scenario.w_fetched) +:+ "var a;"))
  /\ add_header Demo.E Scenario.repo_link Scenario.commit Scenario.a_js "txt"
       Scenario.w_fetched = (Ok Scenario.a_js, Scenario.w_fetched).
Proof.
  split.
  - destruct (proj1 (add_header_content Demo.E Scenario.repo_link
                       Scenario.commit Scenario.a_js "JS" Scenario.w_fetched))
      as (style & Hs & H).
    + vm_compute. tauto.
    + assert (style = Scenario.js_style) as ->
        by (vm_compute in Hs; now injection Hs as <-).
      apply (H (<[Scenario.a_js_header := File ""]> Scenario.fetched));
        vm_compute; reflexivity.
  - apply (proj2 (add_header_content Demo.E Scenario.repo_link
                    Scenario.commit Scenario.a_js "txt" Scenario.w_fetched)).
    + vm_compute. intuition discriminate.
    + vm_compute. reflexivity.
Defined.

(** * Further properties of the program *)

(** ** get_substituted_path and get_file *)

Lemma replace_from_absent (old new s : string) :
  Str.contains s old = false -> Str.replace_from old new 0 s = s.
Proof.
  induction s as [|c s IH]; intros H; [reflexivity|].
  cbn [Str.contains] in H. apply orb_false_elim in H as [H1 H2].
  cbn [Str.replace_from]. rewrite H1. now rewrite (IH H2).
Qed.

Lemma replace_absent (s old new : string) :
  Str.contains s old = false -> Str.replace s old new = s.
Proof.
  intros H. destruct old as [|a old].
  - destruct s; discriminate.
  - now apply replace_from_absent.
Qed.

(** X1.  A placeholder that does not occur in a name leaves the name as it
    is, whatever is bound to its key: [get_substituted_path] returns the
    name unchanged when none of the placeholders of the dictionary occurs in
    it, also when values of the dictionary are not strings. *)
Theorem substitution_absent_keys (path : string)
    (items : list (string * json)) :
  Forall (fun kv => Str.contains path ("[[" +:+ fst kv +:+ "]]") = false)
    items ->
  get_substituted_path path (JDict items) = Ok path.
Proof.
  unfold get_substituted_path.
  induction 1 as [|[key value] items Hk _ IH]; [reflexivity|].
  cbn [substitute_items]. cbn [fst] in Hk. now rewrite Hk.
Qed.

Lemma substitution_absent_keys_witness :
  get_substituted_path "js/[[lib]]/a.js"
    (JDict [("www", JInt 7); ("root", JStr "/var/www")])
  = Ok "js/[[lib]]/a.js".
Proof.
  apply substitution_absent_keys.
  repeat constructor.
Defined.

Lemma index_char_split (c : ascii) (s : string) (i : nat) :
  Str.index_char c s = Some i ->
  s = Str.take i s +:+ String c (Str.drop (S i) s)
  /\ Str.has_char c (Str.take i s) = false.
Proof.
  revert i. induction s as [|a s IH]; intros i H; [discriminate|].
  cbn [Str.index_char] in H. destruct (Ascii.eqb a c) eqn:Hac.
  - injection H as <-. apply Ascii.eqb_eq in Hac as ->. split; reflexivity.
  - destruct (Str.index_char c s) as [j|]; [|discriminate].
    injection H as <-. destruct (IH j eq_refl) as [Hs Hn].
    change (Str.drop (S (S j)) (String a s)) with (Str.drop (S j) s).
    cbn [Str.take Str.has_char]. rewrite Hac, Hn. split; [|reflexivity].
    change (String a (Str.take j s) +:+ String c (Str.drop (S j) s))
      with (String a (Str.take j s +:+ String c (Str.drop (S j) s))).
    f_equal. exact Hs.
Qed.

Lemma has_char_index (c : ascii) (s : string) :
  Str.has_char c s = true -> exists i, Str.index_char c s = Some i.
Proof.
  induction s as [|a s IH]; [discriminate|].
  cbn [Str.has_char Str.index_char]. destruct (Ascii.eqb a c); [eauto|].
  cbn [orb]. intros H. destruct (IH H) as [i ->]. eauto.
Qed.

(** The base name is a part without dot, a dot and the extension. *)
Lemma get_file_ext_shape (E : env) (name : string) (path : option string)
    (subs : json) (d : fdesc) :
  get_file E name path subs = Ok d ->
  (Str.has_char "." (f_name d) = false /\ f_ext d = "")
  \/ (exists stem,
        f_name d = stem +:+ "." +:+ f_ext d
        /\ Str.has_char "." stem = false).
Proof.
  unfold get_file. destruct (get_substituted_path name subs) as [n|];
    [|discriminate].
  cbn [rbind]. destruct (Path.split _) as [dir base].
  intros [= <-]. cbn [f_name f_ext].
  destruct (Str.has_char "." base) eqn:Hd; [right | now left].
  destruct (has_char_index _ _ Hd) as [i Hi]. rewrite Hi.
  destruct (index_char_split _ _ _ Hi) as [Hs Hn].
  exists (Str.take i base). split; [|exact Hn].
  now rewrite Nat.add_1_r.
Qed.

(** X2.  The extension [get_file] returns is what follows the first dot of
    the base name, and the empty string when the base name has no dot: the
    base name is a part without dot, a dot and the extension. *)
Theorem get_file_extension (E : env) (name : string) (path : option string)
    (subs : json) (d : fdesc) :
  get_file E name path subs = Ok d ->
  (Str.has_char "." (f_name d) = false /\ f_ext d = "")
  \/ (exists stem,
        f_name d = stem +:+ "." +:+ f_ext d
        /\ Str.has_char "." stem = false).
Proof.
  unfold get_file. destruct (get_substituted_path name subs) as [n|];
    [|discriminate].
  cbn [rbind]. destruct (Path.split _) as [dir base].
  intros [= <-]. cbn [f_name f_ext].
  destruct (Str.has_char "." base) eqn:Hd; [right | now left].
  destruct (has_char_index _ _ Hd) as [i Hi]. rewrite Hi.
  destruct (index_char_split _ _ _ Hi) as [Hs Hn].
  exists (Str.take i base). split; [|exact Hn].
  now rewrite Nat.add_1_r.
Qed.

Lemma get_file_extension_witness :
  (Str.has_char "." (f_name (plain_file Demo.E "/srv/www/jquery.min.js")) = false
   /\ f_ext (plain_file Demo.E "/srv/www/jquery.min.js") = "")
  \/ (exists stem,
        f_name (plain_file Demo.E "/srv/www/jquery.min.js")
          = stem +:+ "." +:+ f_ext (plain_file Demo.E "/srv/www/jquery.min.js")
        /\ Str.has_char "." stem = false).
Proof.
  apply (get_file_extension Demo.E "/srv/www/jquery.min.js" None (JDict [])).
  apply get_file_plain.
Defined.

(** ** Canonical path names *)

Lemma last_plain (M : list string) :
  Forall (fun c => Spec.plain_name c = true) M ->
  Str.eqb (List.last M "") ".." = false.
Proof.
  induction 1 as [|c M Hc HM IH]; [reflexivity|].
  destruct M as [|d M]; [|exact IH].
  now apply plain_name_inv in Hc.
Qed.

Lemma normpath_step_abs (k : nat) (M : list string) (c : string) :
  Forall (fun c => Spec.plain_name c = true) M ->
  Str.has_char "/" c = false ->
  Forall (fun c => Spec.plain_name c = true) (Path.normpath_step (S k) M c).
Proof.
  intros HM Hc. unfold Path.normpath_step.
  destruct (Str.eqb c "") eqn:H0; [exact HM|]. cbn [orb].
  destruct (Str.eqb c ".") eqn:H1; [exact HM|].
  destruct (Str.eqb c "..") eqn:H2.
  - cbn [negb Nat.eqb andb orb]. rewrite (last_plain _ HM), andb_false_r.
    now apply Forall_removelast.
  - cbn [negb orb]. apply Forall_app_2; [exact HM|].
    constructor; [|constructor].
    unfold Spec.plain_name. now rewrite H0, Hc, H1, H2.
Qed.

Lemma fold_abs (k : nat) (L M : list string) :
  Forall (fun c => Str.has_char "/" c = false) L ->
  Forall (fun c => Spec.plain_name c = true) M ->
  Forall (fun c => Spec.plain_name c = true)
    (fold_left (Path.normpath_step (S k)) L M).
Proof.
  intros HL. revert M. induction HL as [|c L Hc _ IH]; intros M HM; [exact HM|].
  cbn [fold_left]. apply IH. now apply normpath_step_abs.
Qed.

Lemma normpath_abs_eq (p : string) :
  Str.startswith p "/" = true ->
  Path.normpath p
  = canonical (initial_slashes p)
      (fold_left (Path.normpath_step (initial_slashes p)) (Str.split "/" p) []).
Proof.
  intros Hp. unfold Path.normpath.
  destruct (Str.eqb p "") eqn:He.
  { apply String.eqb_eq in He. subst. discriminate. }
  rewrite Hp. fold (initial_slashes p).
  assert (Hk : exists k, initial_slashes p = S k).
  { unfold initial_slashes. destruct (_ && _); eauto. }
  destruct Hk as [k Hk]. rewrite Hk. reflexivity.
Qed.

(** The normal form of an absolute name: its slashes in front, then plain
    components. *)
Lemma normpath_abs_shape (p : string) :
  Str.startswith p "/" = true ->
  exists comps,
    Forall (fun c => Spec.plain_name c = true) comps
    /\ Path.normpath p = canonical (initial_slashes p) comps.
Proof.
  intros Hp. rewrite (normpath_abs_eq p Hp).
  assert (Hk : exists k, initial_slashes p = S k).
  { unfold initial_slashes. destruct (_ && _); eauto. }
  destruct Hk as [k Hk]. rewrite Hk.
  eexists. split; [|reflexivity].
  apply fold_abs; [apply str_split_nosep | constructor].
Qed.

Lemma fold_plain (k : nat) (L M : list string) :
  Forall (fun c => Spec.plain_name c = true) L ->
  fold_left (Path.normpath_step k) L M = M ++ L.
Proof.
  intros HL. revert M. induction HL as [|c L Hc _ IH]; intros M.
  - now rewrite app_nil_r.
  - cbn [fold_left]. rewrite (normpath_step_plain _ _ _ Hc), IH.
    now rewrite <- app_assoc.
Qed.

Lemma join_not_abs (comps : list string) :
  Forall (fun c => Spec.plain_name c = true) comps ->
  Str.startswith (Str.join "/" comps) "/" = false.
Proof.
  intros H. destruct H as [|c comps Hc _]; [reflexivity|].
  apply plain_name_inv in Hc as (H0 & Hs & _ & _).
  destruct c as [|a c]; [discriminate|].
  apply has_char_cons in Hs as [Ha _].
  destruct comps; cbn [Str.join]; [|rewrite app_cons_str];
    cbn [Str.startswith]; rewrite Ascii.eqb_sym, Ha; reflexivity.
Qed.

Lemma split_join (comps : list string) :
  Forall (fun c => Spec.plain_name c = true) comps -> comps <> [] ->
  Str.split "/" (Str.join "/" comps) = comps.
Proof.
  induction 1 as [|c comps Hc Hcs IH]; intros Hne; [now destruct Hne|].
  apply plain_name_inv in Hc as (_ & Hs & _ & _).
  destruct comps as [|d comps].
  - now apply str_split_none.
  - change (Str.join "/" (c :: d :: comps))
      with (c +:+ String "/" (Str.join "/" (d :: comps))).
    rewrite str_split_app, (str_split_none _ _ Hs), IH by discriminate.
    reflexivity.
Qed.

Lemma startswith_empty (s : string) : Str.startswith s "" = true.
Proof. now destruct s. Qed.

Lemma canonical_abs (k : nat) (comps : list string) :
  Str.startswith (canonical (S k) comps) "/" = true.
Proof.
  unfold canonical.
  change (Str.replicate (S k) "/" +:+ Str.join "/" comps)
    with (String "/" (Str.replicate k "/" +:+ Str.join "/" comps)).
  cbn [Str.startswith]. now rewrite startswith_empty.
Qed.

Lemma split_slash (s : string) :
  Str.split "/" (String "/" s) = "" :: Str.split "/" s.
Proof. reflexivity. Qed.

(** A canonical name is its own normal form. *)
Lemma normpath_canonical (k : nat) (comps : list string) :
  k = 1 \/ k = 2 ->
  Forall (fun c => Spec.plain_name c = true) comps ->
  Path.normpath (canonical k comps) = canonical k comps
  /\ initial_slashes (canonical k comps) = k.
Proof.
  intros Hk Hc. pose proof (join_not_abs _ Hc) as Hj.
  assert (Hsplit : forall n, fold_left (Path.normpath_step n)
                     (Str.split "/" (Str.join "/" comps)) [] = comps).
  { intros n. destruct comps as [|c comps'].
    - reflexivity.
    - rewrite split_join by (assumption || discriminate).
      now rewrite fold_plain. }
  assert (Hi : initial_slashes (canonical k comps) = k).
  { unfold canonical, initial_slashes. destruct Hk as [-> | ->].
    - change (Str.replicate 1 "/" +:+ Str.join "/" comps)
        with (String "/" (Str.join "/" comps)).
      cbn [Str.startswith]. rewrite Hj, andb_false_r. reflexivity.
    - change (Str.replicate 2 "/" +:+ Str.join "/" comps)
        with (String "/" (String "/" (Str.join "/" comps))).
      cbn [Str.startswith]. rewrite Hj, !Ascii.eqb_refl, andb_false_r.
      now destruct (Str.join "/" comps). }
  split; [|exact Hi].
  assert (Ha : Str.startswith (canonical k comps) "/" = true)
    by (destruct Hk as [-> | ->]; apply canonical_abs).
  rewrite (normpath_abs_eq _ Ha), Hi. f_equal.
  unfold canonical. destruct Hk as [-> | ->].
  - change (Str.replicate 1 "/" +:+ Str.join "/" comps)
      with (String "/" (Str.join "/" comps)).
    rewrite split_slash. cbn [fold_left].
    change (Path.normpath_step 1 [] "") with (@nil string). apply Hsplit.
  - change (Str.replicate 2 "/" +:+ Str.join "/" comps)
      with (String "/" (String "/" (Str.join "/" comps))).
    rewrite !split_slash. cbn [fold_left].
    change (Path.normpath_step 2 [] "") with (@nil string).
    change (Path.normpath_step 2 [] "") with (@nil string). apply Hsplit.
Qed.

Lemma initial_slashes_cases (p : string) :
  initial_slashes p = 1 \/ initial_slashes p = 2.
Proof. unfold initial_slashes. destruct (_ && _); tauto. Qed.

(** [normpath] is idempotent on absolute names. *)
Lemma normpath_idem (p : string) :
  Str.startswith p "/" = true ->
  Path.normpath (Path.normpath p) = Path.normpath p
  /\ Str.startswith (Path.normpath p) "/" = true.
Proof.
  intros Hp. destruct (normpath_abs_shape p Hp) as (comps & Hc & ->).
  pose proof (initial_slashes_cases p) as Hk.
  split.
  - now apply normpath_canonical.
  - destruct Hk as [-> | ->]; apply canonical_abs.
Qed.

Lemma join_abs (wd p : string) :
  Path.isabs wd = true -> Str.startswith (Path.join wd p) "/" = true.
Proof.
  unfold Path.isabs, Path.join. intros Hw.
  destruct (Str.startswith p "/") eqn:Hp; [exact Hp|].
  destruct wd as [|a wd]; [discriminate|].
  cbn [Str.startswith] in Hw. apply andb_prop in Hw as [Ha _].
  destruct (_ || _); rewrite app_cons_str; cbn [Str.startswith];
    now rewrite Ha, startswith_empty.
Qed.

Lemma abspath_shape (wd p : string) :
  Path.isabs wd = true ->
  exists k comps,
    (k = 1 \/ k = 2)
    /\ Forall (fun c => Spec.plain_name c = true) comps
    /\ Path.abspath wd p = canonical k comps.
Proof.
  intros Hw. unfold Path.abspath.
  set (q := if Path.isabs p then p else Path.join wd p).
  assert (Hq : Str.startswith q "/" = true).
  { unfold q. destruct (Path.isabs p) eqn:Hp; [exact Hp | now apply join_abs]. }
  destruct (normpath_abs_shape q Hq) as (comps & Hc & ->).
  exists (initial_slashes q), comps.
  split; [apply initial_slashes_cases | now split].
Qed.

(** Resolving a resolved name changes nothing. *)
Lemma abspath_idem (wd p : string) :
  Path.isabs wd = true ->
  Path.abspath wd (Path.abspath wd p) = Path.abspath wd p.
Proof.
  intros Hw. destruct (abspath_shape wd p Hw) as (k & comps & Hk & Hc & ->).
  unfold Path.abspath, Path.isabs.
  assert (Ha : Str.startswith (canonical k comps) "/" = true)
    by (destruct Hk as [-> | ->]; apply canonical_abs).
  rewrite Ha. now apply normpath_canonical.
Qed.

Lemma plain_good (comps : list string) :
  Forall (fun c => Spec.plain_name c = true) comps ->
  Forall (fun c => c <> "" /\ Str.has_char "/" c = false) comps.
Proof.
  apply List.Forall_impl. intros c Hc.
  apply plain_name_inv in Hc as (H0 & Hs & _ & _).
  split; [now apply eqb_false_ne | exact Hs].
Qed.

Lemma plain_first (n : string) :
  Spec.plain_name n = true -> Str.startswith n "/" = false.
Proof.
  intros H. apply plain_name_inv in H as (_ & Hs & _ & _).
  destruct n as [|c n]; [reflexivity|].
  apply has_char_cons in Hs as [Hc _]. cbn [Str.startswith].
  now rewrite Ascii.eqb_sym, Hc.
Qed.

Lemma replicate_snoc (k : nat) (c : ascii) :
  Str.replicate (S k) c = Str.replicate k c +:+ String c "".
Proof.
  induction k as [|k IH]; [reflexivity|].
  change (String c (Str.replicate (S k) c)
          = String c (Str.replicate k c +:+ String c "")).
  f_equal. exact IH.
Qed.

Lemma replicate_endswith (k : nat) (c : ascii) :
  Str.endswith_char (Str.replicate (S k) c) c = true.
Proof.
  apply all_char_endswith; [discriminate | apply replicate_all_char].
Qed.

(** Splitting a canonical name and joining the two parts gives the name
    back; the second part is the last component. *)
Lemma split_canonical (k : nat) (comps : list string) :
  k = 1 \/ k = 2 ->
  Forall (fun c => Spec.plain_name c = true) comps ->
  Path.join (fst (Path.split (canonical k comps)))
    (snd (Path.split (canonical k comps)))
  = canonical k comps
  /\ snd (Path.split (canonical k comps)) = List.last comps ""
  /\ fst (Path.split (canonical k comps))
     = match removelast comps with
       | [] => Str.replicate k "/"
       | init => canonical k init
       end.
Proof.
  intros Hk Hc.
  destruct comps as [|c0 comps0] using rev_ind;
    [|clear IHcomps0; rename comps0 into init, c0 into n].
  - destruct Hk as [-> | ->]; vm_compute; repeat split; reflexivity.
  - apply List.Forall_app in Hc as [Hinit Hn].
    inversion Hn as [|? ? Hpn _]; subst.
    pose proof (plain_name_inv _ Hpn) as (Hn0 & Hns & _ & _).
    rewrite List.last_last, List.removelast_last.
    assert (Hk' : exists j, k = S j) by (destruct Hk as [-> | ->]; eauto).
    destruct Hk' as [j ->].
    unfold canonical. rewrite join_snoc.
    destruct init as [|c init].
    + assert (HX : Str.replicate (S j) "/" +:+ n
                   = Str.replicate j "/" +:+ "/" +:+ n)
        by (now rewrite replicate_snoc, app_assoc_str).
      assert (HS : Path.split (Str.replicate (S j) "/" +:+ n)
                   = (Str.replicate (S j) "/", n)).
      { rewrite HX. unfold Path.split. rewrite (split_last_tail _ _ Hns).
        rewrite <- replicate_snoc, replicate_all_char, andb_false_r.
        reflexivity. }
      rewrite HS. cbn [fst snd]. split; [|split; reflexivity].
      unfold Path.join. rewrite (plain_first _ Hpn).
      rewrite replicate_endswith, orb_true_r. reflexivity.
    + set (J := Str.join "/" (c :: init)).
      destruct (join_shape (c :: init) (plain_good _ Hinit)) as [J1 J2];
        [discriminate|]. fold J in J1, J2.
      set (Y := Str.replicate (S j) "/" +:+ J).
      assert (HY0 : Y <> "") by now apply app_nonempty_r.
      assert (HYe : Str.endswith_char Y "/" = false)
        by (unfold Y; now rewrite endswith_app).
      assert (HYa : Str.all_char "/" Y = false).
      { destruct (Str.all_char "/" Y) eqn:Ha; [|reflexivity].
        now rewrite (all_char_endswith _ _ HY0 Ha) in HYe. }
      replace (Str.replicate (S j) "/" +:+ J +:+ "/" +:+ n)
        with (Y +:+ "/" +:+ n) by (unfold Y; now rewrite app_assoc_str).
      unfold Path.split. rewrite (split_last_tail _ _ Hns).
      rewrite (all_char_app_false _ _ "/" HYa).
      assert (Hx : Str.eqb (Y +:+ "/") "" = false).
      { apply String.eqb_neq. now apply app_nonempty_r. }
      rewrite Hx. cbn [negb andb fst snd].
      rewrite (rstrip_app_sep _ _ HY0 HYe).
      split; [|split; reflexivity].
      unfold Path.join. rewrite (plain_first _ Hpn), HYe.
      apply String.eqb_neq in HY0. unfold Str.eqb. now rewrite HY0.
Qed.

(** X3.  The directory and the base name [get_file] returns, joined, are
    the absolute name it returns. *)
Theorem get_file_parts (E : env) (name : string) (path : option string)
    (subs : json) (d : fdesc) :
  Path.isabs (cwd E) = true ->
  get_file E name path subs = Ok d ->
  Path.join (f_dir d) (f_name d) = f_abs d.
Proof.
  intros Hw. unfold get_file.
  destruct (get_substituted_path name subs) as [n|]; [|discriminate].
  cbn [rbind].
  set (q := match path with Some p => Path.join p n | None => n end).
  destruct (abspath_shape (cwd E) q Hw) as (k & comps & Hk & Hc & Ha).
  destruct (split_canonical k comps Hk Hc) as (Hj & _).
  rewrite <- Ha in Hj.
  destruct (Path.split (Path.abspath (cwd E) q)) as [dir base].
  intros [= <-]. exact Hj.
Qed.

Lemma get_file_parts_witness :
  Path.join (f_dir Scenario.a_js) (f_name Scenario.a_js) = f_abs Scenario.a_js.
Proof.
  apply (get_file_parts Demo.E "js/../js/./a.js" (Some tmpdir) (JDict [])).
  - reflexivity.
  - vm_compute. reflexivity.
Defined.

(** X4.  [get_file] applied to the absolute name it returned returns the
    same descriptor: resolving a name a second time changes nothing. *)
Theorem get_file_again (E : env) (name : string) (path : option string)
    (subs : json) (d : fdesc) :
  Path.isabs (cwd E) = true ->
  get_file E name path subs = Ok d ->
  get_file E (f_abs d) None (JDict []) = Ok d.
Proof.
  intros Hw H. rewrite get_file_plain. f_equal.
  unfold get_file in H.
  destruct (get_substituted_path name subs) as [n|]; [|discriminate].
  cbn [rbind] in H.
  set (q := match path with Some p => Path.join p n | None => n end) in H.
  destruct (Path.split (Path.abspath (cwd E) q)) as [dir base] eqn:Hs.
  injection H as <-. unfold plain_file. cbn [f_abs].
  rewrite (abspath_idem _ _ Hw), Hs. reflexivity.
Qed.

Lemma get_file_again_witness :
  get_file Demo.E (f_abs Scenario.a_js) None (JDict []) = Ok Scenario.a_js.
Proof.
  apply (get_file_again Demo.E "js/../js/./a.js" (Some tmpdir) (JDict [])).
  - reflexivity.
  - vm_compute. reflexivity.
Defined.

(** ** deploy_repo and the status table *)

(** X5.  Deploying a unit changes no row of the status table but the row
    of that unit. *)
Theorem deploy_repo_other_rows (E : env) (owner name k : string) (w : world) :
  k <> owner +:+ "/" +:+ name ->
  db (snd (deploy_repo E owner name w)) !! k = db w !! k.
Proof.
  intros Hk.
  destruct (deploy_repo_record E owner name w)
    as (exc & commit & status & w1 & acts & Htry & _ & _ & _ & Hdb & _).
  rewrite (deploy_repo_steps E _ _ _ _ _ _ _ Htry). cbn [snd db].
  rewrite lookup_insert_ne by congruence. now rewrite Hdb.
Qed.

Lemma deploy_repo_other_rows_witness :
  db (snd (deploy_repo Demo.E_pkg "<local>" "docs.tgz" Table.w_queue))
    !! "cmu-delphi/www-nowcast"
  = db Table.w_queue !! "cmu-delphi/www-nowcast".
Proof.
  apply (deploy_repo_other_rows Demo.E_pkg "<local>" "docs.tgz").
  vm_compute. discriminate.
Defined.

(** X6.  When the fetch fails, the row of the unit gets the status [-1] and
    the time of the attempt, and keeps the commit recorded before; a unit
    without a row gets the default of the column, forty zeros. *)
Theorem failed_fetch_keeps_commit (E : env) (owner name : string)
    (w w1 : world) (ex : exn) :
  fetch E owner name (begun owner name w) = (Raise ex, w1) ->
  db (snd (deploy_repo E owner name w)) !! (owner +:+ "/" +:+ name)
  = Some (mk_repo_row
            (default no_commit
               (row_commit <$> (db w !! (owner +:+ "/" +:+ name))))
            (clock w) (-1))
  /\ fst (deploy_repo E owner name w) = Raise ex.
Proof.
  intros Hf.
  destruct (quiet_fetch E owner name (begun owner name w)) as (Hdb & Hck & _).
  rewrite Hf in Hdb, Hck. cbn [snd] in Hdb, Hck.
  assert (Ht : deploy_try E owner name (begun owner name w)
               = (Ok (Some ex, None, (-1)%Z), w1)).
  { unfold deploy_try, bind, try. now rewrite Hf. }
  rewrite (deploy_repo_steps E _ _ _ _ _ _ _ Ht). cbn [fst snd db].
  rewrite lookup_insert_eq, Hdb, Hck. split; [reflexivity|].
  unfold final_exception. now destruct (fst _).
Qed.

Lemma failed_fetch_keeps_commit_witness :
  db (snd (deploy_repo Demo.E "cmu-delphi" "www-nowcast" Table.w_queue))
    !! "cmu-delphi/www-nowcast"
  = Some (mk_repo_row Scenario.commit 1481803200 (-1))
  /\ fst (deploy_repo Demo.E "cmu-delphi" "www-nowcast" Table.w_queue)
     = Raise (CalledProcessError
                ("git clone https://github.com/cmu-delphi/www-nowcast.git "
                 +:+ tmpdir)).
Proof.
  eapply (failed_fetch_keeps_commit Demo.E "cmu-delphi" "www-nowcast"
            Table.w_queue).
  vm_compute. reflexivity.
Defined.

Lemma makedirs_tmpdir (wd : string) (f : files) :
  OS.makedirs wd tmpdir false f = OS.mkdir wd tmpdir f.
Proof.
  unfold OS.makedirs.
  change (S (String.length tmpdir)) with (S 23).
  cbn [OS.makedirs_fuel].
  assert (Hs : Path.split tmpdir = ("", tmpdir)) by (vm_compute; reflexivity).
  rewrite Hs.
  assert (He : Str.eqb tmpdir "" = false) by reflexivity.
  rewrite He.
  change (Str.eqb "" "") with true. cbn [negb andb orb].
  now destruct (OS.mkdir wd tmpdir f) as [[[]|e] f'].
Qed.

(** X7.  A workspace left behind by an earlier run makes the unit fail
    with [FileExistsError] and the status [-1] before anything is fetched;
    the cleanup of the failing run is the removal of that workspace, so
    that nothing of it is left when its entries can be removed. *)
Theorem stale_workspace_fails (E : env) (owner name : string) (w : world)
    (b : bool) :
  fs w !! Path.abspath (cwd E) tmpdir = Some (Dir b) ->
  OS.isdir (cwd E) (fs w) (fst (Path.split (Path.abspath (cwd E) tmpdir)))
    = true ->
  fst (deploy_repo E owner name w)
    = Raise (FileExistsError (Path.abspath (cwd E) tmpdir))
  /\ status_of (snd (deploy_repo E owner name w)) owner name = Some (-1)%Z
  /\ fs (snd (deploy_repo E owner name w))
     = snd (OS.rmtree (cwd E) tmpdir (fs w))
  /\ (OS.removable (cwd E) (fs w) (Path.abspath (cwd E) tmpdir) = true ->
      forall k, OS.under (Path.abspath (cwd E) tmpdir) k = true ->
                fs (snd (deploy_repo E owner name w)) !! k = None).
Proof.
  intros Hn Hd. set (a := Path.abspath (cwd E) tmpdir) in *.
  assert (Hm : OS.mkdir (cwd E) tmpdir (fs w) = (Raise (FileExistsError a), fs w)).
  { unfold OS.mkdir, OS.parent_writable. fold a.
    unfold OS.isdir in Hd.
    destruct (OS.stat (cwd E) (fs w) (fst (Path.split a))) as [[| |]|];
      try discriminate.
    now rewrite Hn. }
  assert (Hf : fetch E owner name (begun owner name w)
               = (Raise (FileExistsError a), begun owner name w)).
  { unfold fetch, bind, on_fs. unfold begun at 1 2. cbn [log snd fs].
    rewrite makedirs_tmpdir, Hm. reflexivity. }
  assert (Ht : deploy_try E owner name (begun owner name w)
               = (Ok (Some (FileExistsError a), None, (-1)%Z),
                  begun owner name w)).
  { unfold deploy_try, bind, try. now rewrite Hf. }
  rewrite (deploy_repo_steps E _ _ _ _ _ _ _ Ht).
  unfold status_of, begun. cbn [fst snd log fs db].
  rewrite lookup_insert_eq.
  split; [unfold final_exception;
          now destruct (fst (OS.rmtree (cwd E) tmpdir (fs w)))|].
  split; [reflexivity|]. split; [reflexivity|].
  intros Hr k Hk. unfold OS.rmtree. fold a. rewrite Hn, Hr. cbn [snd].
  apply map_lookup_filter_None. right. intros x _. cbn [fst].
  now rewrite Hk.
Qed.

Lemma stale_workspace_fails_witness :
  fst (deploy_repo Demo.E_pkg "<local>" "docs.tgz" Table.w_stale)
    = Raise (FileExistsError Demo.workspace)
  /\ status_of (snd (deploy_repo Demo.E_pkg "<local>" "docs.tgz" Table.w_stale))
       "<local>" "docs.tgz" = Some (-1)%Z
  /\ fs (snd (deploy_repo Demo.E_pkg "<local>" "docs.tgz" Table.w_stale))
     = snd (OS.rmtree "/srv/deploy" tmpdir (fs Table.w_stale))
  /\ (OS.removable "/srv/deploy" (fs Table.w_stale) Demo.workspace = true ->
      forall k, OS.under Demo.workspace k = true ->
                fs (snd (deploy_repo Demo.E_pkg "<local>" "docs.tgz"
                           Table.w_stale)) !! k = None).
Proof.
  apply (stale_workspace_fails Demo.E_pkg "<local>" "docs.tgz" Table.w_stale
           true).
  - vm_compute. reflexivity.
  - vm_compute. reflexivity.
Defined.

(** ** The loop of execute *)

(** The loop over a list of rows in two parts. *)
Lemma run_actions_split (E : env) (repo_link commit path : string)
    (paths : json) (total idx : nat) (rows1 rows2 : list json) (w : world) :
  run_actions E repo_link commit path paths total idx (rows1 ++ rows2) w
  = bind (run_actions E repo_link commit path paths total idx rows1)
      (fun _ => run_actions E repo_link commit path paths total
                  (idx + length rows1) rows2) w.
Proof.
  revert idx w. induction rows1 as [|row rows1 IH]; intros idx w.
  - cbn [app run_actions length]. rewrite Nat.add_0_r. reflexivity.
  - cbn [app length]. rewrite Nat.add_succ_r.
    change (S (idx + length rows1)) with (S idx + length rows1).
    cbn [run_actions].
    destruct row as [| | | | s | l | r]; try reflexivity.
    + apply IH.
    + destruct (dict_get "type" r) as [[| | | | t | |]|]; try reflexivity.
      destruct (executors E (Str.lower t)) as [run|]; [|reflexivity].
      unfold bind, log.
      destruct (run repo_link commit path r paths _) as [[[]|e] w2];
        [|reflexivity].
      rewrite IH. reflexivity.
Qed.

(** X8.  Running a list of rows is running a first part of it and then,
    when that part raised nothing, the rest, which counts its positions
    from where the first part ended.  So a row that raises ends the run:
    the rows after it are not run, and what the rows before it did
    stays. *)
Theorem run_actions_app (E : env) (repo_link commit path : string)
    (paths : json) (total idx : nat) (rows1 rows2 : list json) (w : world) :
  run_actions E repo_link commit path paths total idx (rows1 ++ rows2) w
  = bind (run_actions E repo_link commit path paths total idx rows1)
      (fun _ => run_actions E repo_link commit path paths total
                  (idx + length rows1) rows2) w.
Proof.
  revert idx w. induction rows1 as [|row rows1 IH]; intros idx w.
  - cbn [app run_actions length]. rewrite Nat.add_0_r. reflexivity.
  - cbn [app length]. rewrite Nat.add_succ_r.
    change (S (idx + length rows1)) with (S idx + length rows1).
    cbn [run_actions].
    destruct row as [| | | | s | l | r]; try reflexivity.
    + apply IH.
    + destruct (dict_get "type" r) as [[| | | | t | |]|]; try reflexivity.
      destruct (executors E (Str.lower t)) as [run|]; [|reflexivity].
      unfold bind, log.
      destruct (run repo_link commit path r paths _) as [[[]|e] w2];
        [|reflexivity].
      rewrite IH. reflexivity.
Qed.

(** X9.  Comments have no effect: when every row is a comment or an action
    with a string [type], the rows do what they do with the comments taken
    out, wherever the count of positions starts. *)
Theorem comments_have_no_effect (E : env) (repo_link commit path : string)
    (paths : json) (total total' idx idx' : nat) (rows : list json)
    (w : world) :
  Forall (fun row => is_comment row || is_action_row row = true) rows ->
  run_actions E repo_link commit path paths total idx rows w
  = run_actions E repo_link commit path paths total' idx'
      (List.filter (fun row => negb (is_comment row)) rows) w.
Proof.
  intros H. revert idx idx' w.
  induction H as [|row rows Hrow _ IH]; intros idx idx' w; [reflexivity|].
  destruct row as [| | | | s | l | r]; try discriminate.
  - cbn [List.filter is_comment negb run_actions]. apply IH.
  - cbn [List.filter is_comment negb run_actions].
    cbn [is_comment is_action_row orb] in Hrow.
    destruct (dict_get "type" r) as [[| | | | t | |]|]; try discriminate.
    destruct (executors E (Str.lower t)) as [run|]; [|reflexivity].
    unfold bind, log.
    destruct (run repo_link commit path r paths _) as [[[]|e] w2];
      [|reflexivity].
    apply IH.
Qed.

Lemma comments_have_no_effect_witness :
  run_actions Demo.E Scenario.repo_link Scenario.commit tmpdir (JDict []) 3 0
    [JStr "first the scripts"; JDict (Scenario.copy_match ".*\.js");
     JStr "then the pages"] Scenario.w_fetched
  = run_actions Demo.E Scenario.repo_link Scenario.commit tmpdir (JDict []) 1 0
      [JDict (Scenario.copy_match ".*\.js")] Scenario.w_fetched.
Proof.
  apply (comments_have_no_effect Demo.E Scenario.repo_link Scenario.commit
           tmpdir (JDict []) 3 1 0 0
           [JStr "first the scripts"; JDict (Scenario.copy_match ".*\.js");
            JStr "then the pages"]).
  repeat constructor.
Defined.

(** X10.  A row that is neither a comment nor an action with a string
    [type] ends the run with the message [invalid action (i/n)], where [i]
    is the position of the row, counted from 1 with the comments, and [n]
    the number of rows; what the rows before it did stays. *)
Theorem invalid_action_position (E : env) (repo_link commit path : string)
    (paths : json) (before after : list json) (bad : json) (w w1 : world) :
  is_comment bad = false -> is_action_row bad = false ->
  run_actions E repo_link commit path paths
    (length (before ++ bad :: after)) 0 before w = (Ok tt, w1) ->
  run_actions E repo_link commit path paths
    (length (before ++ bad :: after)) 0 (before ++ bad :: after) w
  = (Raise (Exception ("invalid action ("
              +:+ Str.of_Z (Z.of_nat (length before + 1)) +:+ "/"
              +:+ Str.of_Z (Z.of_nat (length (before ++ bad :: after)))
              +:+ ")")),
     w1).
Proof.
  intros Hc Ha Hb. rewrite run_actions_split. unfold bind at 1. rewrite Hb.
  cbn [Nat.add run_actions].
  destruct bad as [| | | | s | l | r]; try reflexivity; [discriminate|].
  cbn [is_action_row] in Ha.
  destruct (dict_get "type" r) as [[| | | | t | |]|];
    try reflexivity; discriminate.
Qed.

Lemma invalid_action_position_witness :
  run_actions Demo.E Scenario.repo_link Scenario.commit tmpdir (JDict []) 3 0
    [JStr "a comment"; JDict [("src", JStr "a.js")]; JStr "the end"]
    Scenario.w_fetched
  = (Raise (Exception "invalid action (2/3)"), Scenario.w_fetched).
Proof.
  apply (invalid_action_position Demo.E Scenario.repo_link Scenario.commit
           tmpdir (JDict []) [JStr "a comment"] [JStr "the end"]
           (JDict [("src", JStr "a.js")])); reflexivity.
Defined.

(** ** main and the queue *)

Lemma join_split (sep : ascii) (s : string) :
  Str.join (String sep "") (Str.split sep s) = s.
Proof.
  induction s as [|c s IH]; [reflexivity|].
  cbn [Str.split]. pose proof (str_split_nonnil sep s) as Hne.
  destruct (Ascii.eqb c sep) eqn:Hc.
  - apply Ascii.eqb_eq in Hc as ->.
    destruct (Str.split sep s) as [|h t]; [now destruct Hne|].
    change (Str.join (String sep "") ("" :: h :: t))
      with (String sep (Str.join (String sep "") (h :: t))).
    now rewrite IH.
  - destruct (Str.split sep s) as [|h t]; [now destruct Hne|].
    destruct t as [|h' t].
    + cbn [Str.join] in *. now rewrite IH.
    + change (Str.join (String sep "") (String c h :: h' :: t))
        with (String c (Str.join (String sep "") (h :: h' :: t))).
      now rewrite IH.
Qed.

(** What [deploy_repo] does to the table: one row is written, the row of
    the unit, with a status that is not 0. *)
Lemma deploy_repo_db (E : env) (owner name : string) (w : world) :
  exists row,
    db (snd (deploy_repo E owner name w))
      = <[owner +:+ "/" +:+ name := row]> (db w)
    /\ (row_status row = (-1)%Z \/ row_status row = 1%Z
        \/ row_status row = 2%Z).
Proof.
  destruct (deploy_repo_record E owner name w)
    as (exc & commit & status & w1 & acts & Htry & Hf & Hs & _ & Hdb & _).
  rewrite (deploy_repo_steps E _ _ _ _ _ _ _ Htry). cbn [snd db].
  rewrite Hdb. eexists. split; [reflexivity|]. cbn [row_status].
  destruct exc as [ex|]; [left; now apply (Hf ex) | right; now apply Hs].
Qed.

Lemma deploy_each_db (E : env) (repos : list (string * string)) (w : world) :
  (forall k, ~ In k (List.map unit_key repos) ->
             db (snd (deploy_each E repos w)) !! k = db w !! k)
  /\ (forall k, In k (List.map unit_key repos) ->
        exists row, db (snd (deploy_each E repos w)) !! k = Some row
                    /\ row_status row <> 0%Z).
Proof.
  revert w. induction repos as [|[owner name] rest IH]; intros w.
  - split; [reflexivity | intros k []].
  - assert (Hw : snd (deploy_each E ((owner, name) :: rest) w)
                 = snd (deploy_each E rest (snd (deploy_repo E owner name w)))).
    { cbn [deploy_each]. unfold bind at 1, try.
      destruct (deploy_repo E owner name w) as [r w1]. cbn [snd].
      unfold bind, ret.
      now destruct (deploy_each E rest w1) as [[excs|e] w2]. }
    rewrite Hw. clear Hw.
    destruct (IH (snd (deploy_repo E owner name w))) as [IH1 IH2].
    destruct (deploy_repo_db E owner name w) as (row & Hdb & Hst).
    cbn [List.map In]. unfold unit_key at 1 3. cbn [fst snd].
    split.
    + intros k Hk. rewrite IH1 by tauto. rewrite Hdb.
      apply lookup_insert_ne. intros <-. tauto.
    + intros k Hk.
      destruct (in_dec string_dec k (List.map unit_key rest)) as [Hin|Hin];
        [now apply IH2|].
      destruct Hk as [<-|Hk]; [|tauto].
      rewrite (IH1 _ Hin), Hdb, lookup_insert_eq.
      exists row. split; [reflexivity|]. lia.
Qed.

Lemma queued_spec (w : world) (k : string) :
  In k (queued w)
  <-> exists row, db w !! k = Some row /\ row_status row = 0%Z.
Proof.
  unfold queued. rewrite in_map_iff. split.
  - intros ([k' row] & <- & Hin). apply filter_In in Hin as [Hin Hs].
    apply list_elem_of_In, elem_of_map_to_list in Hin.
    exists row. cbn [fst snd] in *. split; [exact Hin | lia].
  - intros (row & Hk & Hs). exists (k, row). split; [reflexivity|].
    apply filter_In. split.
    + now apply list_elem_of_In, elem_of_map_to_list.
    + cbn [snd]. lia.
Qed.

Lemma queued_nil (w : world) :
  (forall k row, db w !! k = Some row -> row_status row <> 0%Z) ->
  queued w = [].
Proof.
  intros H. destruct (queued w) as [|k l] eqn:Hq; [reflexivity|].
  assert (Hin : In k (queued w)) by (rewrite Hq; now left).
  apply queued_spec in Hin as (row & Hk & Hs). now destruct (H k row Hk).
Qed.

Lemma get_repo_list_queued (w : world) :
  get_repo_list w = (Ok (List.map (Str.split "/") (queued w)), w).
Proof. unfold get_repo_list, queued. now rewrite List.map_map. Qed.

Lemma mapM_unpack_repo (keys : list string) :
  Forall (fun k => length (Str.split "/" k) = 2) keys ->
  exists pairs,
    mapM unpack_repo (List.map (Str.split "/") keys) = Ok pairs
    /\ List.map unit_key pairs = keys.
Proof.
  induction 1 as [|k keys Hk _ (pairs & Hp & Hkeys)]; [now exists []|].
  cbn [List.map mapM].
  pose proof (join_split "/" k) as Hj.
  destruct (Str.split "/" k) as [|owner [|name [|? ?]]]; try discriminate.
  exists ((owner, name) :: pairs). cbn [unpack_repo rbind]. rewrite Hp.
  split; [reflexivity|]. cbn [List.map]. rewrite Hkeys. f_equal. exact Hj.
Qed.

Lemma mapM_unpack_repo_bad (keys : list string) :
  Exists (fun k => length (Str.split "/" k) <> 2) keys ->
  mapM unpack_repo (List.map (Str.split "/") keys) = Raise ValueError.
Proof.
  induction keys as [|k keys IH]; intros H; [inversion H|].
  cbn [List.map mapM].
  destruct (Str.split "/" k) as [|owner [|name [|? ?]]] eqn:Hs;
    try reflexivity.
  cbn [unpack_repo rbind]. rewrite IH; [reflexivity|].
  inversion H as [? ? Hk|]; [|assumption]. rewrite Hs in Hk. now destruct Hk.
Qed.

Lemma deploy_all_world (E : env) (repos : list (string * string)) (w : world) :
  snd (deploy_all E repos w) = snd (deploy_each E repos w).
Proof.
  unfold deploy_all, bind.
  now destruct (deploy_each E repos w) as [[[|ex excs]|e] w1].
Qed.

Lemma main_database (E : env) (a : args) (w : world) :
  arg_database a = true ->
  truthy (arg_repo a) = false -> truthy (arg_package a) = false ->
  main E a w
  = let (r, w') :=
      (if (0 <? length (queued w))%nat
       then bind (lift (mapM unpack_repo (List.map (Str.split "/") (queued w))))
              (fun pairs => deploy_all E pairs)
       else ret tt) w in
    (Finished r, w').
Proof.
  intros Hd Hr Hp. unfold main. rewrite Hd, Hr, Hp. cbn [count Nat.add].
  cbn [Nat.eqb negb]. unfold bind at 1. rewrite get_repo_list_queued.
  now rewrite length_map.
Qed.

(** X11.  [main] with [--database] alone leaves no row queued when every
    queued name has exactly one slash: every row that had the status 0 has
    another status afterwards, whether or not a unit failed, and the rows
    that were not queued are as they were. *)
Theorem main_database_drains_queue (E : env) (a : args) (w : world) :
  arg_database a = true ->
  truthy (arg_repo a) = false -> truthy (arg_package a) = false ->
  Forall (fun k => length (Str.split "/" k) = 2) (queued w) ->
  queued (snd (main E a w)) = []
  /\ (forall k, ~ In k (queued w) -> db (snd (main E a w)) !! k = db w !! k).
Proof.
  intros Hd Hr Hp Hq. rewrite (main_database E a w Hd Hr Hp).
  destruct (queued w) as [|k0 ks] eqn:Hqueue.
  - cbn [length Nat.ltb Nat.leb ret snd]. rewrite Hqueue. now split.
  - rewrite <- Hqueue in *. replace (0 <? length (queued w))%nat with true
      by (rewrite Hqueue; reflexivity).
    destruct (mapM_unpack_repo _ Hq) as (pairs & Hm & Hkeys).
    unfold bind, lift. rewrite Hm.
    pose proof (deploy_all_world E pairs w) as Hw.
    destruct (deploy_all E pairs w) as [r w']. cbn [snd] in *. subst w'.
    destruct (deploy_each_db E pairs w) as [H1 H2]. rewrite Hkeys in H1, H2.
    split; [|exact H1].
    apply queued_nil. intros k row Hk.
    destruct (in_dec string_dec k (queued w)) as [Hin|Hin].
    + destruct (H2 k Hin) as (row' & Hk' & Hs). congruence.
    + rewrite (H1 k Hin) in Hk. intros Hs. apply Hin, queued_spec. eauto.
Qed.

Lemma main_database_drains_queue_witness :
  queued (snd (main Demo.E_pkg (mk_args true None None) Table.w_queue)) = []
  /\ (forall k, ~ In k (queued Table.w_queue) ->
        db (snd (main Demo.E_pkg (mk_args true None None) Table.w_queue)) !! k
        = db Table.w_queue !! k).
Proof.
  apply (main_database_drains_queue Demo.E_pkg (mk_args true None None)
           Table.w_queue); try reflexivity.
  vm_compute. repeat constructor.
Defined.

(** X12.  [main] with [--database] raises [ValueError] and deploys nothing,
    leaving the table and the files as they were, when one of the queued
    names does not have exactly one slash. *)
Theorem main_database_malformed_name (E : env) (a : args) (w : world) :
  arg_database a = true ->
  truthy (arg_repo a) = false -> truthy (arg_package a) = false ->
  Exists (fun k => length (Str.split "/" k) <> 2) (queued w) ->
  main E a w = (Finished (Raise ValueError), w).
Proof.
  intros Hd Hr Hp Hq. rewrite (main_database E a w Hd Hr Hp).
  destruct (queued w) as [|k0 ks] eqn:Hqueue; [inversion Hq|].
  rewrite <- Hqueue in *. replace (0 <? length (queued w))%nat with true
    by (rewrite Hqueue; reflexivity).
  unfold bind, lift. now rewrite (mapM_unpack_repo_bad _ Hq).
Qed.

Lemma main_database_malformed_name_witness :
  main Demo.E_pkg (mk_args true None None) Table.w_orphan
  = (Finished (Raise ValueError), Table.w_orphan).
Proof.
  apply (main_database_malformed_name Demo.E_pkg (mk_args true None None)
           Table.w_orphan); try reflexivity.
  apply List.Exists_exists. exists "www-nowcast".
  split; [vm_compute; tauto | vm_compute; discriminate].
Defined.

(** X13.  [main] with [--repo] alone raises [ValueError] when the name
    given does not have exactly one slash, and records nothing: no row is
    written, not even one with the status of a failure. *)
Theorem main_repo_malformed_name (E : env) (a : args) (w : world)
    (r : string) :
  arg_database a = false -> arg_repo a = Some r -> r <> "" ->
  truthy (arg_package a) = false ->
  length (Str.split "/" r) <> 2 ->
  main E a w = (Finished (Raise ValueError), w).
Proof.
  intros Hd Hr Hne Hp Hlen. unfold main. rewrite Hd, Hr, Hp.
  apply String.eqb_neq in Hne. unfold truthy, Str.eqb. rewrite Hne.
  cbn [negb count Nat.add Nat.eqb default]. unfold bind, lift, id.
  destruct (Str.split "/" r) as [|owner [|name [|? ?]]];
    try reflexivity. now destruct Hlen.
Qed.

Lemma main_repo_malformed_name_witness :
  main Demo.E (mk_args false (Some "https://github.com/cmu-delphi/www-nowcast")
                 None) Table.w_queue
  = (Finished (Raise ValueError), Table.w_queue).
Proof.
  apply (main_repo_malformed_name Demo.E _ Table.w_queue
           "https://github.com/cmu-delphi/www-nowcast");
    try reflexivity; vm_compute; discriminate.
Defined.

(** X14.  [main] with [--repo owner/name] alone writes one row, the row
    named as the argument, and [main] with [--package file] alone the row
    [<local>/file]; the status written is [-1], [1] or [2]. *)
Theorem main_single_unit_row (E : env) (a : args) (w : world)
    (key : string) :
  arg_database a = false ->
  (truthy (arg_repo a) = true /\ truthy (arg_package a) = false
   /\ arg_repo a = Some key /\ length (Str.split "/" key) = 2)
  \/ (truthy (arg_repo a) = false /\ truthy (arg_package a) = true
      /\ exists p, arg_package a = Some p /\ key = "<local>/" +:+ p) ->
  exists row,
    db (snd (main E a w)) = <[key := row]> (db w)
    /\ (row_status row = (-1)%Z \/ row_status row = 1%Z
        \/ row_status row = 2%Z).
Proof.
  intros Hd [(Hr & Hp & Hk & Hlen) | (Hr & Hp & p & Hk & ->)].
  - unfold main. rewrite Hd, Hr, Hp, Hk.
    cbn [negb count Nat.add Nat.eqb default]. unfold bind, lift, id.
    pose proof (join_split "/" key) as Hj.
    destruct (Str.split "/" key) as [|owner [|name [|? ?]]];
      try discriminate.
    cbn [unpack_repo fst snd].
    destruct (deploy_repo_db E owner name w) as (row & Hdb & Hs).
    destruct (deploy_repo E owner name w) as [res w']. cbn [snd] in *.
    exists row. split; [|exact Hs]. rewrite Hdb. f_equal. exact Hj.
  - unfold main. rewrite Hd, Hr, Hp, Hk.
    cbn [negb count Nat.add Nat.eqb default]. unfold id.
    destruct (deploy_repo_db E "<local>" p w) as (row & Hdb & Hs).
    destruct (deploy_repo E "<local>" p w) as [res w']. cbn [snd] in *.
    exists row. split; [exact Hdb | exact Hs].
Qed.

Lemma main_single_unit_row_witness :
  exists row,
    db (snd (main Demo.E_pkg (mk_args false None (Some "docs.tgz"))
               Table.w_queue))
      = <["<local>/docs.tgz" := row]> (db Table.w_queue)
    /\ (row_status row = (-1)%Z \/ row_status row = 1%Z
        \/ row_status row = 2%Z).
Proof.
  apply (main_single_unit_row Demo.E_pkg (mk_args false None (Some "docs.tgz"))
           Table.w_queue "<local>/docs.tgz").
  - reflexivity.
  - right. split; [reflexivity|]. split; [reflexivity|].
    exists "docs.tgz". split; reflexivity.
Defined.

(** ** What the actions do to the files *)


Lemma mkdir_extends (wd p : string) (f : files) :
  f ⊆ snd (OS.mkdir wd p f).
Proof.
  unfold OS.mkdir.
  destruct (OS.parent_writable wd f _) as [[]|e]; try reflexivity;
    destruct (f !! _) eqn:Hl; try reflexivity.
  now apply insert_subseteq.
Qed.

Lemma makedirs_fuel_extends (wd : string) (fuel : nat) (name : string)
    (exist_ok : bool) (f : files) :
  f ⊆ snd (OS.makedirs_fuel wd fuel name exist_ok f).
Proof.
  revert name f. induction fuel as [|k IH]; intros name f; [reflexivity|].
  cbn [OS.makedirs_fuel].
  destruct (Path.split name) as [head0 tail0].
  destruct (if Str.eqb tail0 "" then Path.split head0 else (head0, tail0))
    as [head tail].
  assert (Hmake : forall g,
            g ⊆ snd (match OS.mkdir wd name g with
                     | (Raise e, f') =>
                         if negb exist_ok || negb (OS.isdir wd f' name)
                         then (Raise e, f') else (Ok tt, f')
                     | r => r
                     end)).
  { intros g. pose proof (mkdir_extends wd name g) as H.
    destruct (OS.mkdir wd name g) as [[[]|e] g']; [exact H|].
    now destruct (_ || _). }
  destruct (_ && _); [|apply Hmake].
  pose proof (IH head f) as H.
  destruct (OS.makedirs_fuel wd k head exist_ok f) as [[[]|e] f'];
    cbn [snd] in H.
  - destruct (Str.eqb tail "."); [exact H|]. etrans; [exact H | apply Hmake].
  - destruct e; try exact H;
      (destruct (Str.eqb tail "."); [exact H|]; etrans; [exact H | apply Hmake]).
Qed.

Lemma symlink_extends (wd src dst : string) (f : files) :
  f ⊆ snd (OS.symlink wd src dst f).
Proof.
  unfold OS.symlink.
  destruct (OS.parent_writable wd f _) as [[]|e]; try reflexivity;
    destruct (f !! _) eqn:Hl; try reflexivity.
  now apply insert_subseteq.
Qed.

(** X15.  An import changes no entry of the file system that exists: it
    only adds entries, the directories of the destination and the link.
    So it never replaces a file or a link that is where the link is to
    go, and removes nothing. *)
Theorem import_keeps_entries (E : env) (repo_link commit path : string)
    (row : list (string * json)) (substitutions : json) (w : world)
    (k : string) (n : node) :
  fs w !! k = Some n ->
  fs (snd (action_import E repo_link commit path row substitutions w)) !! k
  = Some n.
Proof.
  revert k n. apply map_subseteq_spec.
  unfold action_import, bind, lift, on_fs, get_fs, ret, raise.
  destruct (dict_item "dst" row) as [d|e]; [|reflexivity].
  destruct (get_file_value E d (Some path) substitutions) as [dst|e];
    [|reflexivity].
  destruct (get_file_value E _ None (JDict [])) as [named|e]; [|reflexivity].
  destruct (get_file E _ (Some "exports/") substitutions) as [src|e];
    [|reflexivity].
  pose proof (makedirs_fuel_extends (cwd E) (S (String.length (f_dir dst)))
                (f_dir dst) true (fs w)) as Hm.
  fold (OS.makedirs (cwd E) (f_dir dst) true (fs w)) in Hm.
  destruct (OS.makedirs (cwd E) (f_dir dst) true (fs w)) as [[[]|e] f1];
    cbn [snd fs] in *; [|exact Hm].
  destruct (negb (OS.exists_ (cwd E) f1 (f_abs dst))).
  - pose proof (symlink_extends (cwd E) (f_abs src) (f_abs dst) f1) as Hs.
    cbn [fs].
    destruct (OS.symlink (cwd E) (f_abs src) (f_abs dst) f1) as [r f2].
    cbn [snd fs] in *. etrans; [exact Hm | exact Hs].
  - now destruct (OS.islink (cwd E) f1 (f_abs dst)).
Qed.

Lemma import_keeps_entries_witness :
  fs (snd (action_import Demo.E Scenario.repo_link Scenario.commit tmpdir
             Scenario.import_util (JDict []) Scenario.w_occupied))
    !! Scenario.util_link
  = Some (File "local copy").
Proof.
  apply (import_keeps_entries Demo.E Scenario.repo_link Scenario.commit tmpdir
           Scenario.import_util (JDict []) Scenario.w_occupied).
  vm_compute. reflexivity.
Defined.

Section Preserves.

Variable P : files -> Prop.

Lemma preserves_ret {A} (a : A) : preserves P (ret a).
Proof. intros w H. exact H. Qed.

Lemma preserves_raise {A} (e : exn) : preserves P (@raise A e).
Proof. intros w H. exact H. Qed.

Lemma preserves_lift {A} (r : result A) : preserves P (lift r).
Proof. intros w H. exact H. Qed.

Lemma preserves_get_fs : preserves P get_fs.
Proof. intros w H. exact H. Qed.

Lemma preserves_log (e : event) : preserves P (log e).
Proof. intros w H. exact H. Qed.

Lemma preserves_on_fs {A} (op : files -> result A * files) :
  (forall f, P f -> P (snd (op f))) -> preserves P (on_fs op).
Proof.
  intros Hop w H. unfold on_fs. specialize (Hop (fs w) H).
  now destruct (op (fs w)).
Qed.

Lemma preserves_bind {A B} (m : M A) (k : A -> M B) :
  preserves P m -> (forall a, preserves P (k a)) -> preserves P (bind m k).
Proof.
  intros Hm Hk w H. unfold bind. specialize (Hm w H).
  destruct (m w) as [[a|e] w1]; cbn [snd] in *; [now apply Hk | exact Hm].
Qed.

Lemma preserves_bind_returns {A B} (Q : A -> Prop) (m : M A) (k : A -> M B) :
  preserves P m -> returns Q m -> (forall a, Q a -> preserves P (k a)) ->
  preserves P (bind m k).
Proof.
  intros Hm Hq Hk w H. unfold bind. specialize (Hm w H).
  destruct (m w) as [[a|e] w1] eqn:Hmw; cbn [snd] in *; [|exact Hm].
  apply Hk; [exact (Hq _ _ _ Hmw) | exact Hm].
Qed.

Lemma preserves_try {A} (m : M A) : preserves P m -> preserves P (try m).
Proof.
  intros Hm w H. unfold try. specialize (Hm w H). now destruct (m w).
Qed.

Lemma preserves_for_each {A} (l : list A) (body : A -> M unit) :
  (forall x, In x l -> preserves P (body x)) -> preserves P (for_each l body).
Proof.
  induction l as [|x l IH]; intros Hb; cbn [for_each].
  - apply preserves_ret.
  - apply preserves_bind; [apply Hb; now left|].
    intros _. apply IH. intros y Hy. apply Hb. now right.
Qed.

(** [P] stays true when a file is written and when an entry is added
    under a name that was free. *)
Hypothesis P_file : forall f q c, P f -> P (<[q := File c]> f).
Hypothesis P_new : forall f a n, f !! a = None -> P f -> P (<[a := n]> f).

Lemma write_file_keeps (wd p c : string) (f : files) :
  P f -> P (snd (OS.write_file wd p c f)).
Proof using P_file P_new.
  intros H. unfold OS.write_file.
  destruct (OS.follow _ _ _) as [q|]; [|exact H].
  destruct (f !! q) as [[| |]|]; cbn [snd]; try exact H;
    try now apply P_file.
  destruct (OS.parent_writable wd f q) as [[]|e]; cbn [snd];
    [now apply P_file | exact H | exact H].
Qed.

Lemma mkdir_keeps (wd p : string) (f : files) :
  P f -> P (snd (OS.mkdir wd p f)).
Proof using P_file P_new.
  intros H. unfold OS.mkdir.
  destruct (OS.parent_writable wd f _) as [[]|e]; cbn [snd]; try exact H;
    destruct (f !! _) eqn:Hl; cbn [snd]; try exact H.
  now apply P_new.
Qed.

Lemma makedirs_keeps (wd name : string) (exist_ok : bool) (f : files) :
  P f -> P (snd (OS.makedirs wd name exist_ok f)).
Proof using P_file P_new.
  unfold OS.makedirs. generalize (S (String.length name)) as fuel.
  intros fuel. revert name f.
  induction fuel as [|k IH]; intros name f H; [exact H|].
  cbn [OS.makedirs_fuel].
  destruct (Path.split name) as [head0 tail0].
  destruct (if Str.eqb tail0 "" then Path.split head0 else (head0, tail0))
    as [head tail].
  assert (Hmake : forall g, P g ->
            P (snd (match OS.mkdir wd name g with
                    | (Raise e, f') =>
                        if negb exist_ok || negb (OS.isdir wd f' name)
                        then (Raise e, f') else (Ok tt, f')
                    | r => r
                    end))).
  { intros g Hg. pose proof (mkdir_keeps wd name g Hg) as Hk.
    destruct (OS.mkdir wd name g) as [[[]|e] g']; [exact Hk|].
    now destruct (_ || _). }
  destruct (_ && _); [|now apply Hmake].
  pose proof (IH head f H) as Hh.
  destruct (OS.makedirs_fuel wd k head exist_ok f) as [[[]|e] f'];
    cbn [snd] in Hh.
  - destruct (Str.eqb tail "."); [exact Hh | now apply Hmake].
  - destruct e; try exact Hh;
      (destruct (Str.eqb tail "."); [exact Hh | now apply Hmake]).
Qed.

Lemma copy_keeps (wd src dst : string) (f : files) :
  P f -> P (snd (OS.copy wd src dst f)).
Proof using P_file P_new.
  intros H. unfold OS.copy.
  destruct (OS.samefile _ _ _ _); [exact H|].
  destruct (OS.read_file wd src f); [now apply write_file_keeps | exact H].
Qed.

End Preserves.

(** ** Names continued by a suffix *)

Lemma has_char_app (c : ascii) (a b : string) :
  Str.has_char c (a +:+ b) = Str.has_char c a || Str.has_char c b.
Proof.
  induction a as [|x a IH]; [reflexivity|].
  rewrite app_cons_str. cbn [Str.has_char]. rewrite IH. apply orb_assoc.
Qed.

Lemma plain_name_intro (n : string) :
  n <> "" -> Str.has_char "/" n = false -> n <> "." -> n <> ".." ->
  Spec.plain_name n = true.
Proof.
  intros H0 Hs H1 H2. unfold Spec.plain_name, Str.eqb.
  apply String.eqb_neq in H0, H1, H2. now rewrite H0, Hs, H1, H2.
Qed.

Lemma plain_app (n s : string) :
  Spec.plain_name n = true -> Str.has_char "/" s = false -> s <> "" ->
  Spec.plain_name (n +:+ s) = true.
Proof.
  intros Hn Hs Hs0.
  apply plain_name_inv in Hn as (H0 & Hns & H1 & _).
  apply eqb_false_ne in H0, H1.
  destruct n as [|a n]; [now destruct H0|].
  destruct s as [|b s]; [now destruct Hs0|].
  apply plain_name_intro.
  - discriminate.
  - now rewrite has_char_app, Hns, Hs.
  - rewrite app_cons_str. intros [= -> Hx]. destruct n; discriminate.
  - rewrite app_cons_str. intros [= -> Hx].
    destruct n as [|a' n]; [now destruct H1|].
    rewrite app_cons_str in Hx. injection Hx as _ Hx.
    destruct n; discriminate.
Qed.

(** A canonical name continued by a plain suffix is canonical. *)
Lemma canonical_suffix (k : nat) (comps : list string) (s : string) :
  Forall (fun c => Spec.plain_name c = true) comps ->
  Spec.plain_name s = true ->
  exists comps',
    Forall (fun c => Spec.plain_name c = true) comps'
    /\ canonical k comps +:+ s = canonical k comps'.
Proof.
  intros Hc Hs. unfold canonical.
  destruct comps as [|c0 comps0] using rev_ind.
  - exists [s]. split; [now constructor|].
    now rewrite app_assoc_str.
  - clear IHcomps0. apply List.Forall_app in Hc as [Hinit Hn].
    inversion Hn as [|? ? Hpn _]; subst.
    pose proof (plain_name_inv _ Hs) as (Hs0 & Hss & _ & _).
    apply eqb_false_ne in Hs0.
    exists (comps0 ++ [c0 +:+ s]). split.
    + apply Forall_app_2; [exact Hinit|].
      constructor; [now apply plain_app | constructor].
    + rewrite !join_snoc, app_assoc_str. f_equal.
      destruct comps0; [reflexivity|]. now rewrite !app_assoc_str.
Qed.

Lemma abspath_canonical (wd : string) (k : nat) (comps : list string) :
  k = 1 \/ k = 2 ->
  Forall (fun c => Spec.plain_name c = true) comps ->
  Path.abspath wd (canonical k comps) = canonical k comps.
Proof.
  intros Hk Hc. unfold Path.abspath, Path.isabs.
  assert (Ha : Str.startswith (canonical k comps) "/" = true)
    by (destruct Hk as [-> | ->]; apply canonical_abs).
  rewrite Ha. now apply normpath_canonical.
Qed.

(** A resolved name continued by a plain suffix resolves to itself. *)
Lemma abspath_suffix (wd p s : string) :
  Path.isabs wd = true -> Spec.plain_name s = true ->
  Path.abspath wd (Path.abspath wd p +:+ s) = Path.abspath wd p +:+ s.
Proof.
  intros Hw Hs. destruct (abspath_shape wd p Hw) as (k & comps & Hk & Hc & ->).
  destruct (canonical_suffix k comps s Hc Hs) as (comps' & Hc' & ->).
  now apply abspath_canonical.
Qed.

Lemma app_longer (a s : string) : s <> "" -> a +:+ s <> a.
Proof.
  intros Hs H. induction a as [|c a IH]; [now destruct Hs|].
  rewrite app_cons_str in H. injection H as H. now apply IH.
Qed.

Ltac keep_op :=
  first [ now apply write_file_keeps | now apply makedirs_keeps
        | now apply copy_keeps | assumption ].

Ltac keep_step :=
  first
    [ assumption
    | apply preserves_ret | apply preserves_raise | apply preserves_lift
    | apply preserves_get_fs | apply preserves_log | apply preserves_try
    | apply preserves_on_fs; intros ? ?; cbn [snd]; keep_op
    | apply preserves_bind; [|intros ?]
    | match goal with
      | |- preserves _ (match ?x with _ => _ end) => destruct x
      | |- preserves _ (if ?b then _ else _) => destruct b
      end ].

Section PreservesProgram.

Variable E : env.
Variable P : files -> Prop.
Hypothesis P_file : forall f q c, P f -> P (<[q := File c]> f).
Hypothesis P_new : forall f a n, f !! a = None -> P f -> P (<[a := n]> f).

Lemma add_header_keeps (repo_link commit : string) (src : fdesc)
    (dst_ext : string) :
  preserves P (add_header E repo_link commit src dst_ext).
Proof using P_file P_new.
  unfold add_header.
  destruct (header_style _) as [style|]; [|apply preserves_ret].
  intros w. cbv beta zeta.
  match goal with
  | |- _ -> P (fs (snd (?m w))) =>
      assert (H : preserves P m) by (repeat keep_step); exact (H w)
  end.
Qed.

Lemma load_pairs_keeps (templates : list fdesc) :
  preserves P (load_pairs E templates).
Proof using P_file P_new.
  induction templates as [|t rest IH]; cbn [load_pairs]; unfold read_text;
    repeat keep_step.
Qed.

Lemma replace_keywords_keeps (src : fdesc) (templates : list fdesc) :
  preserves P (replace_keywords E src templates).
Proof using P_file P_new.
  pose proof (load_pairs_keeps templates).
  unfold replace_keywords, read_text. repeat keep_step.
Qed.

(** The part of [copymove_single] before the source is removed, for a
    destination that is not written by way of the shell. *)
Lemma copymove_single_copy_keeps (repo_link commit path : string)
    (row : list (string * json)) (src dst : fdesc) :
  Str.startswith (f_abs dst) web_root = false ->
  preserves P (copymove_single E repo_link commit path row src dst false).
Proof using P_file P_new.
  intros Hweb. unfold copymove_single. unfold web_root in Hweb. rewrite Hweb.
  apply preserves_bind; [apply preserves_lift|]. intros _.
  apply preserves_bind.
  { destruct (dict_get "add-header-comment" row) as [[| [] | | | | |]|];
      try apply preserves_ret. apply add_header_keeps. }
  intros src1. apply preserves_bind.
  { match goal with
    | |- preserves _ (match ?t with _ => _ end) => destruct t as [ts|]
    end; [|apply preserves_ret].
    apply preserves_bind; [apply preserves_lift|]. intros tfiles.
    apply replace_keywords_keeps. }
  intros src2. repeat keep_step.
Qed.

End PreservesProgram.

(** X16.  A copy removes nothing: when the destination is not below the
    web root, every name that exists before [copymove_single] copies a
    file exists after it, whatever the row asks for and whether or not the
    copy succeeds. *)
Theorem copy_removes_nothing (E : env) (repo_link commit path : string)
    (row : list (string * json)) (src dst : fdesc) (w : world) (k : string) :
  Str.startswith (f_abs dst) web_root = false ->
  is_Some (fs w !! k) ->
  is_Some (fs (snd (copymove_single E repo_link commit path row src dst
                      false w)) !! k).
Proof.
  intros Hweb.
  apply (copymove_single_copy_keeps E (fun f => is_Some (f !! k))).
  - intros f q c H. destruct (decide (q = k)) as [->|Hne].
    + rewrite lookup_insert_eq. eauto.
    + now rewrite lookup_insert_ne.
  - intros f a n Ha H. destruct (decide (a = k)) as [->|Hne].
    + rewrite lookup_insert_eq. eauto.
    + now rewrite lookup_insert_ne.
  - exact Hweb.
Qed.

Lemma copy_removes_nothing_witness :
  is_Some (fs (snd (copymove_single Demo.E Scenario.repo_link Scenario.commit
                      tmpdir [("type", JStr "copy"); ("src", JStr "js/a.js");
                              ("dst", JStr "js/b.js");
                              ("add-header-comment", JBool true)]
                      Scenario.a_js
                      (mk_fdesc "/srv/deploy/github_deploy_repo__tmp/js/b.js"
                         "/srv/deploy/github_deploy_repo__tmp/js" "b.js" "js")
                      false Scenario.w_fetched))
             !! "/srv/deploy/github_deploy_repo__tmp/js/b.js").
Proof.
  apply copy_removes_nothing.
  - reflexivity.
  - vm_compute. eauto.
Defined.

Section Returns.

Context {A : Type}.
Variable Q : A -> Prop.

Lemma returns_ret (a : A) : Q a -> returns Q (ret a).
Proof. intros H w a' w' [= <- _]. exact H. Qed.

Lemma returns_raise (e : exn) : returns Q (raise e).
Proof. intros w a w' [=]. Qed.

Lemma returns_bind {B} (m : M B) (k : B -> M A) :
  (forall b, returns Q (k b)) -> returns Q (bind m k).
Proof.
  intros Hk w a w'. unfold bind.
  destruct (m w) as [[b|e] w1]; [apply Hk | discriminate].
Qed.

Lemma returns_lift {B} (r : result B) (k : B -> M A) :
  (forall b, r = Ok b -> returns Q (k b)) -> returns Q (bind (lift r) k).
Proof.
  intros Hk w a w'. unfold bind, lift.
  destruct r as [b|e]; [now apply Hk | discriminate].
Qed.

End Returns.

Lemma add_header_returns (E : env) (repo_link commit : string) (src : fdesc)
    (dst_ext : string) :
  returns (fun r => r = src
                    \/ f_abs r = Path.abspath (cwd E) (f_abs src +:+ "__header"))
    (add_header E repo_link commit src dst_ext).
Proof.
  unfold add_header.
  destruct (header_style _) as [style|]; [|apply returns_ret; now left].
  intros w. cbv beta zeta. generalize (clock w). intros t. revert w.
  match goal with
  | |- forall w a w', ?m w = _ -> _ =>
      change (returns (fun r => r = src
                \/ f_abs r = Path.abspath (cwd E) (f_abs src +:+ "__header")) m)
  end.
  apply returns_lift. intros tmp Htmp. rewrite get_file_plain in Htmp.
  injection Htmp as <-.
  apply returns_bind. intros _. apply returns_bind. intros [content|e].
  - apply returns_bind. intros _. apply returns_ret. now right.
  - apply returns_bind. intros _. apply returns_raise.
Qed.

Lemma add_header_returns_tmp (E : env) (repo_link commit : string)
    (src : fdesc) (dst_ext : string) :
  header_style (Str.lower dst_ext) <> None ->
  returns (fun r => f_abs r = Path.abspath (cwd E) (f_abs src +:+ "__header"))
    (add_header E repo_link commit src dst_ext).
Proof.
  intros Hs. unfold add_header.
  destruct (header_style _) as [style|]; [|now destruct Hs].
  intros w. cbv beta zeta. generalize (clock w). intros t. revert w.
  match goal with
  | |- forall w a w', ?m w = _ -> _ =>
      change (returns (fun r =>
                f_abs r = Path.abspath (cwd E) (f_abs src +:+ "__header")) m)
  end.
  apply returns_lift. intros tmp Htmp. rewrite get_file_plain in Htmp.
  injection Htmp as <-.
  apply returns_bind. intros _. apply returns_bind. intros [content|e].
  - apply returns_bind. intros _. now apply returns_ret.
  - apply returns_bind. intros _. apply returns_raise.
Qed.

Lemma replace_keywords_returns (E : env) (src : fdesc)
    (templates : list fdesc) :
  returns (fun r => f_abs r = Path.abspath (cwd E) (f_abs src +:+ "__valued"))
    (replace_keywords E src templates).
Proof.
  unfold replace_keywords. apply returns_bind. intros pairs.
  apply returns_lift. intros tmp Htmp. rewrite get_file_plain in Htmp.
  injection Htmp as <-.
  apply returns_bind. intros _. apply returns_bind. intros text.
  apply returns_bind. intros lines. apply returns_bind. intros _.
  now apply returns_ret.
Qed.

Lemma get_file_abs (E : env) (name : string) (path : option string)
    (subs : json) (d : fdesc) :
  get_file E name path subs = Ok d ->
  exists q, f_abs d = Path.abspath (cwd E) q.
Proof.
  unfold get_file.
  destruct (get_substituted_path name subs) as [n|]; [|discriminate].
  cbn [rbind]. destruct (Path.split _) as [dir base].
  intros [= <-]. cbn [f_abs]. eauto.
Qed.

Lemma remove_keeps_file (wd p k : string) (f : files) :
  Path.abspath wd p <> k ->
  (exists c, f !! k = Some (File c)) ->
  exists c, snd (OS.remove wd p f) !! k = Some (File c).
Proof.
  intros Hne H. unfold OS.remove.
  destruct (f !! Path.abspath wd p) as [[| |]|]; cbn [snd]; try exact H;
    (destruct (OS.parent_writable wd f _) as [[]|e]; cbn [snd]; try exact H;
     now rewrite lookup_delete_ne).
Qed.

(** X17.  A move that adds the header or replaces keywords does not remove
    the source: the file removed at the end is the temporary file the
    header or the replacement was written to, and the source is still a
    file afterwards. *)
Theorem move_keeps_source (E : env) (repo_link commit path : string)
    (row : list (string * json)) (name : string) (dir : option string)
    (subs : json) (src dst : fdesc) (w : world) (c0 : string) :
  Path.isabs (cwd E) = true ->
  get_file E name dir subs = Ok src ->
  fs w !! f_abs src = Some (File c0) ->
  Str.startswith (f_abs dst) web_root = false ->
  (dict_get "add-header-comment" row = Some (JBool true)
   /\ header_style (Str.lower (f_ext dst)) <> None)
  \/ (exists s, dict_get "replace-keywords" row = Some (JStr s))
  \/ (exists l, dict_get "replace-keywords" row = Some (JList l)) ->
  exists c1,
    fs (snd (copymove_single E repo_link commit path row src dst true w))
      !! f_abs src = Some (File c1).
Proof.
  intros Hwd Hsrc Hfile Hweb Hrow.
  destruct (get_file_abs _ _ _ _ _ Hsrc) as (q & Hq).
  set (k0 := f_abs src) in *.
  set (P := fun f : files => exists c, f !! k0 = Some (File c)).
  assert (P_file : forall f a c, P f -> P (<[a := File c]> f)).
  { intros f a c [c' H]. unfold P. destruct (decide (a = k0)) as [->|Hne].
    - rewrite lookup_insert_eq. eauto.
    - rewrite lookup_insert_ne by exact Hne. eauto. }
  assert (P_new : forall f a n, f !! a = None -> P f -> P (<[a := n]> f)).
  { intros f a n Ha [c' H]. unfold P. rewrite lookup_insert_ne; [eauto|].
    intros ->. congruence. }
  assert (Hh : Path.abspath (cwd E) (k0 +:+ "__header") = k0 +:+ "__header")
    by (rewrite Hq; now apply abspath_suffix).
  assert (Hv : Path.abspath (cwd E) (k0 +:+ "__valued") = k0 +:+ "__valued")
    by (rewrite Hq; now apply abspath_suffix).
  assert (Hhv : Path.abspath (cwd E) ((k0 +:+ "__header") +:+ "__valued")
                = k0 +:+ "__header__valued").
  { rewrite app_assoc_str. change ("__header" +:+ "__valued")
      with "__header__valued". rewrite Hq. now apply abspath_suffix. }
  assert (Hhv' : Path.abspath (cwd E) (k0 +:+ "__header__valued")
                 = k0 +:+ "__header__valued")
    by (rewrite Hq; now apply abspath_suffix).
  assert (Hend : forall src2 s, s <> "" ->
            Path.abspath (cwd E) (k0 +:+ s) = k0 +:+ s ->
            f_abs src2 = k0 +:+ s ->
            preserves P (on_fs (OS.remove (cwd E) (f_abs src2)))).
  { intros src2 s Hs Ha ->. apply preserves_on_fs. intros f Hf.
    apply remove_keeps_file; [|exact Hf].
    rewrite Ha. now apply app_longer. }
  assert (Hcopy : forall src2,
            preserves P (bind (on_fs (OS.makedirs (cwd E) (f_dir dst) true))
                           (fun _ => on_fs (OS.copy (cwd E) (f_abs src2)
                                              (f_abs dst)))))
    by (intros src2; repeat keep_step).
  cut (preserves P (copymove_single E repo_link commit path row src dst true)).
  { intros H. apply (H w). now exists c0. }
  unfold copymove_single. unfold web_root in Hweb. rewrite Hweb.
  apply preserves_bind; [apply preserves_lift|]. intros _.
  set (tail := fun (s : string) (src2 : fdesc) =>
                 s <> "" /\ Path.abspath (cwd E) (k0 +:+ s) = k0 +:+ s
                 /\ f_abs src2 = k0 +:+ s).
  assert (Hlast : forall src2, (exists s, tail s src2) ->
            preserves P
              (bind (bind (on_fs (OS.makedirs (cwd E) (f_dir dst) true))
                       (fun _ => on_fs (OS.copy (cwd E) (f_abs src2)
                                          (f_abs dst))))
                 (fun _ => on_fs (OS.remove (cwd E) (f_abs src2))))).
  { intros src2 (s & Hs & Ha & Hf). apply preserves_bind; [apply Hcopy|].
    intros _. now apply (Hend src2 s). }
  assert (Hphase : forall src1 ts,
            preserves P
              (bind (lift (mapM (fun t => get_file_value E t (Some path)
                                            (JDict [])) ts))
                 (fun tfiles => replace_keywords E src1 tfiles))
            /\ returns (fun r => f_abs r
                          = Path.abspath (cwd E) (f_abs src1 +:+ "__valued"))
                 (bind (lift (mapM (fun t => get_file_value E t (Some path)
                                               (JDict [])) ts))
                    (fun tfiles => replace_keywords E src1 tfiles))).
  { intros src1 ts. split.
    - apply preserves_bind; [apply preserves_lift|]. intros tfiles.
      now apply replace_keywords_keeps.
    - apply returns_bind. intros tfiles. apply replace_keywords_returns. }
  destruct Hrow as [[Hhdr Hstyle] | Htpl].
  - rewrite Hhdr.
    apply (preserves_bind_returns P
             (fun r => f_abs r = k0 +:+ "__header")).
    + now apply add_header_keeps.
    + intros w0 a w' Hrun. rewrite <- Hh.
      exact (add_header_returns_tmp E _ _ src _ Hstyle _ _ _ Hrun).
    + intros src1 H1.
      apply (preserves_bind_returns P (fun r => exists s, tail s r)).
      * destruct (dict_get "replace-keywords" row) as [[| | | | s | l |]|];
          try apply preserves_ret; apply (Hphase src1).
      * destruct (dict_get "replace-keywords" row) as [[| | | | s | l |]|];
          try (apply returns_ret; exists "__header"; repeat split;
               [discriminate | exact Hh | exact H1]);
          (intros w0 a w' Hrun;
           apply (proj2 (Hphase src1 _)) in Hrun;
           rewrite H1, Hhv in Hrun;
           exists "__header__valued"; repeat split;
           [discriminate | exact Hhv' | exact Hrun]).
      * exact Hlast.
  - apply (preserves_bind_returns P
             (fun r => r = src \/ f_abs r = k0 +:+ "__header")).
    + destruct (dict_get "add-header-comment" row) as [[| [] | | | | |]|];
        try apply preserves_ret. now apply add_header_keeps.
    + destruct (dict_get "add-header-comment" row) as [[| [] | | | | |]|];
        try (apply returns_ret; now left).
      intros w0 a w' Hrun. rewrite <- Hh.
      exact (add_header_returns E _ _ src _ _ _ _ Hrun).
    + intros src1 H1.
      apply (preserves_bind_returns P (fun r => exists s, tail s r)).
      * destruct Htpl as [[s ->] | [l ->]]; apply (Hphase src1).
      * intros w0 a w' Hrun.
        assert (Hr : f_abs a
                     = Path.abspath (cwd E) (f_abs src1 +:+ "__valued")).
        { destruct Htpl as [[s Hs] | [l Hl]];
            [rewrite Hs in Hrun | rewrite Hl in Hrun];
            exact (proj2 (Hphase src1 _) _ _ _ Hrun). }
        destruct H1 as [-> | H1].
        -- fold k0 in Hr. rewrite Hv in Hr.
           exists "__valued". repeat split; [discriminate | exact Hv | exact Hr].
        -- rewrite H1, Hhv in Hr.
           exists "__header__valued".
           repeat split; [discriminate | exact Hhv' | exact Hr].
      * exact Hlast.
Qed.

Lemma move_keeps_source_witness :
  exists c1,
    fs (snd (copymove_single Demo.E Scenario.repo_link Scenario.commit tmpdir
               [("type", JStr "move"); ("src", JStr "js/a.js");
                ("dst", JStr "/srv/out/js/a.js");
                ("add-header-comment", JBool true)]
               Scenario.a_js
               (mk_fdesc "/srv/out/js/a.js" "/srv/out/js" "a.js" "js")
               true Scenario.w_fetched))
      !! f_abs Scenario.a_js = Some (File c1).
Proof.
  apply (move_keeps_source Demo.E Scenario.repo_link Scenario.commit tmpdir _
           "js/a.js" (Some tmpdir) (JDict []) Scenario.a_js _
           Scenario.w_fetched "var a;").
  - reflexivity.
  - vm_compute. reflexivity.
  - vm_compute. reflexivity.
  - reflexivity.
  - left. split; [reflexivity | vm_compute; discriminate].
Defined.

(** ** The access check comes first *)

(** X18.  No action but [import] does anything when its source is outside
    the workspace: a copy or a move of one file, a compilation, a
    minimisation and an export raise and leave the files as they were, so
    no file is written and no command is run. *)
Theorem outside_source_refused (E : env) (repo_link commit path : string)
    (row : list (string * json)) (substitutions : json) (w : world)
    (action : string)
    (run : string -> string -> string -> list (string * json) -> json
           -> M unit)
    (s : json) (src : fdesc) :
  executors E action = Some run -> action <> "import" ->
  dict_get "match" row = None ->
  dict_item "src" row = Ok s ->
  get_file_value E s (Some path) substitutions = Ok src ->
  Str.startswith (f_abs src) (Path.abspath (cwd E) path) = false ->
  exists e, run repo_link commit path row substitutions w = (Raise e, w).
Proof.
  intros Hrun Hact Hmatch Hs Hsrc Hout.
  destruct (check_file_outside E _ _ Hout) as [msg Hchk].
  assert (Hsingle : forall dst is_move,
            copymove_single E repo_link commit path row src dst is_move w
            = (Raise (Exception msg), w)).
  { intros dst is_move. unfold copymove_single, bind at 1, lift.
    now rewrite Hchk. }
  assert (Hcopymove : exists e,
            copymove E repo_link commit path row substitutions w
            = (Raise e, w)).
  { unfold copymove, copymove_files, bind, lift. rewrite Hs, Hsrc, Hmatch.
    destruct (dict_item "dst" row) as [d|e]; [|eauto].
    destruct (get_file_value E d (Some path) substitutions) as [dst|e];
      [|eauto].
    unfold ret. destruct (row_type row) as [t|e]; [|eauto].
    cbn [for_each fst snd]. fold (@bind unit unit).
    unfold bind. rewrite Hsingle. eauto. }
  unfold executors in Hrun.
  repeat match type of Hrun with
         | (if ?b then _ else _) = _ => destruct b eqn:?
         end; try discriminate; injection Hrun as <-.
  - exact Hcopymove.
  - exact Hcopymove.
  - unfold compile_coffee, bind, lift. rewrite Hs, Hsrc.
    destruct (dict_get "dst" row) as [d|].
    + destruct (get_file_value E d (Some path) substitutions) as [dst|e];
        [|eauto]. rewrite Hchk. eauto.
    + destruct (get_file E _ (Some (f_dir src)) (JDict [])) as [dst|e];
        [|eauto]. rewrite Hchk. eauto.
  - unfold minimize_js, bind, lift, ret. rewrite Hs, Hsrc.
    destruct (dict_get "dst" row) as [d|].
    + destruct (get_file_value E d (Some path) substitutions) as [dst|e];
        [|eauto]. rewrite Hchk. eauto.
    + rewrite Hchk. eauto.
  - unfold action_export, bind, lift. rewrite Hs, Hsrc.
    destruct (get_file_value E _ None (JDict [])) as [named|e]; [|eauto].
    destruct (get_file E _ (Some "exports/") substitutions) as [dst|e];
      [|eauto].
    rewrite Hsingle. eauto.
  - match goal with H : Str.eqb action "import" = true |- _ =>
      apply String.eqb_eq in H; now destruct Hact end.
Qed.

Lemma outside_source_refused_witness :
  exists e,
    minimize_js Demo.E_pkg Scenario.repo_link Scenario.commit tmpdir
      [("type", JStr "minimize-js"); ("src", JStr "/srv/out/app.js")]
      (JDict []) Scenario.w_fetched
    = (Raise e, Scenario.w_fetched).
Proof.
  apply (outside_source_refused Demo.E_pkg Scenario.repo_link Scenario.commit
           tmpdir _ (JDict []) Scenario.w_fetched "minimize-js" _
           (JStr "/srv/out/app.js")
           (mk_fdesc "/srv/out/app.js" "/srv/out" "app.js" "js")).
  - reflexivity.
  - discriminate.
  - reflexivity.
  - reflexivity.
  - vm_compute. reflexivity.
  - vm_compute. reflexivity.
Defined.

(** ** The default destination of compile-coffee *)

Lemma get_file_shape (E : env) (name : string) (path : option string)
    (subs : json) (d : fdesc) :
  Path.isabs (cwd E) = true ->
  get_file E name path subs = Ok d ->
  exists k comps,
    (k = 1 \/ k = 2)
    /\ Forall (fun c => Spec.plain_name c = true) comps
    /\ f_abs d = canonical k comps
    /\ f_name d = List.last comps ""
    /\ f_dir d = match removelast comps with
                 | [] => Str.replicate k "/"
                 | init => canonical k init
                 end.
Proof.
  intros Hw. unfold get_file.
  destruct (get_substituted_path name subs) as [n|]; [|discriminate].
  cbn [rbind].
  set (q := match path with Some p => Path.join p n | None => n end).
  destruct (abspath_shape (cwd E) q Hw) as (k & comps & Hk & Hc & Ha).
  destruct (split_canonical k comps Hk Hc) as (_ & Hn & Hd).
  rewrite <- Ha in Hn, Hd.
  destruct (Path.split (Path.abspath (cwd E) q)) as [dir base].
  intros [= <-]. cbn [f_abs f_dir f_name]. cbn [fst snd] in Hn, Hd.
  exists k, comps. auto.
Qed.

Lemma last_plain_noslash (comps : list string) :
  Forall (fun c => Spec.plain_name c = true) comps ->
  Str.has_char "/" (List.last comps "") = false.
Proof.
  induction 1 as [|c M Hc HM IH]; [reflexivity|].
  destruct M as [|d M]; [|exact IH].
  now apply plain_name_inv in Hc.
Qed.

(** A plain name joined to the directory of a resolved name is a resolved
    name. *)
Lemma sibling_resolves (E : env) (name : string) (path : option string)
    (subs : json) (d : fdesc) (base : string) :
  Path.isabs (cwd E) = true ->
  get_file E name path subs = Ok d ->
  Spec.plain_name base = true ->
  Path.abspath (cwd E) (Path.join (f_dir d) base) = Path.join (f_dir d) base.
Proof.
  intros Hw Hd Hb.
  destruct (get_file_shape E _ _ _ _ Hw Hd) as (k & comps & Hk & Hc & _ & _ & ->).
  pose proof (Forall_removelast _ _ Hc) as Hi.
  destruct (removelast comps) as [|c init].
  - assert (Hj : Path.join (Str.replicate k "/") base = canonical k [base]).
    { unfold Path.join. rewrite (plain_first _ Hb).
      destruct Hk as [-> | ->]; reflexivity. }
    rewrite Hj. apply abspath_canonical; [exact Hk | now repeat constructor].
  - assert (Hj : Path.join (canonical k (c :: init)) base
                 = canonical k ((c :: init) ++ [base])).
    { unfold Path.join. rewrite (plain_first _ Hb).
      unfold canonical. rewrite join_snoc.
      destruct (join_shape (c :: init) (plain_good _ Hi)) as [J1 J2];
        [discriminate|].
      assert (H0 : Str.replicate k "/" +:+ Str.join "/" (c :: init) <> "")
        by now apply app_nonempty_r.
      apply String.eqb_neq in H0. unfold Str.eqb. rewrite H0.
      rewrite endswith_app, J2 by exact J1. cbn [orb].
      now rewrite !app_assoc_str. }
    rewrite Hj. apply abspath_canonical; [exact Hk|].
    apply Forall_app_2; [exact Hi | now repeat constructor].
Qed.

Lemma length_app_str (a b : string) :
  String.length (a +:+ b) = String.length a + String.length b.
Proof.
  induction a as [|c a IH]; [reflexivity|].
  rewrite app_cons_str. cbn [String.length]. now rewrite IH.
Qed.

Lemma take_app_str (a b : string) : Str.take (String.length a) (a +:+ b) = a.
Proof.
  induction a as [|c a IH]; [now destruct b|].
  rewrite app_cons_str. cbn [String.length Str.take]. now rewrite IH.
Qed.

Lemma drop_end_app (a b : string) :
  Str.drop_end (String.length b) (a +:+ b) = a.
Proof.
  unfold Str.drop_end. rewrite length_app_str.
  replace (String.length a + String.length b - String.length b)
    with (String.length a) by lia.
  apply take_app_str.
Qed.

Lemma get_file_in (E : env) (base dir : string) :
  get_file E base (Some dir) (JDict [])
  = Ok (plain_file E (Path.join dir base)).
Proof.
  unfold get_file, get_substituted_path, substitute_items, rbind, plain_file.
  now destruct (Path.split (Path.abspath (cwd E) (Path.join dir base))).
Qed.

Lemma plain_js (n : string) :
  Str.has_char "/" n = false -> Spec.plain_name (n +:+ ".js") = true.
Proof.
  intros Hn. apply plain_name_intro.
  - now apply app_nonempty_r.
  - now rewrite has_char_app, Hn.
  - intros H. apply (f_equal String.length) in H.
    rewrite length_app_str in H. cbn in H. lia.
  - intros H. apply (f_equal String.length) in H.
    rewrite length_app_str in H. cbn in H. lia.
Qed.

(** X19.  Without [dst], [compile-coffee] writes next to the source, to
    the base name of the source up to its first dot followed by [.js]: all
    the extensions of the source are replaced, not the last one only.  A
    base name without dot, or one that ends in its only dot, is continued
    by [.js]. *)
Theorem compile_coffee_default_target (E : env)
    (repo_link commit path : string) (row : list (string * json))
    (substitutions : json) (name : string) (src : fdesc) (w : world) :
  Path.isabs (cwd E) = true ->
  dict_get "src" row = Some (JStr name) ->
  get_file E name (Some path) substitutions = Ok src ->
  dict_get "dst" row = None ->
  exists base,
    ((f_ext src = "" /\ base = f_name src +:+ ".js")
     \/ (f_ext src <> ""
         /\ exists stem,
              f_name src = stem +:+ "." +:+ f_ext src
              /\ Str.has_char "." stem = false
              /\ base = stem +:+ ".js"))
    /\ compile_coffee E repo_link commit path row substitutions w
       = bind (lift (check_file E (f_abs src) path)) (fun _ =>
         bind (lift (row_type row)) (fun _ =>
         bind (sh E ("coffee -c -p '" +:+ f_abs src +:+ "' > '"
                     +:+ Path.join (f_dir src) base +:+ "'"))
           (fun _ => ret tt))) w.
Proof.
  intros Hw Hs Hsrc Hdst.
  destruct (get_file_shape E _ _ _ _ Hw Hsrc)
    as (k & comps & Hk & Hc & _ & Hn & _).
  pose proof (last_plain_noslash _ Hc) as Hslash. rewrite <- Hn in Hslash.
  assert (Hrun : forall base,
            Spec.plain_name base = true ->
            (if negb (Str.eqb (f_ext src) "")
             then Str.drop_end (String.length (f_ext src)) (f_name src) +:+ "js"
             else f_name src +:+ ".js") = base ->
            compile_coffee E repo_link commit path row substitutions w
            = bind (lift (check_file E (f_abs src) path)) (fun _ =>
              bind (lift (row_type row)) (fun _ =>
              bind (sh E ("coffee -c -p '" +:+ f_abs src +:+ "' > '"
                          +:+ Path.join (f_dir src) base +:+ "'"))
                (fun _ => ret tt))) w).
  { intros base Hb Hbase. unfold compile_coffee.
    rewrite (bind_lift_ok (dict_item "src" row) _ w (JStr name))
      by (unfold dict_item; now rewrite Hs).
    cbn [get_file_value]. rewrite (bind_lift_ok _ _ w src Hsrc).
    rewrite Hdst. cbv zeta. rewrite Hbase.
    rewrite (bind_lift_ok _ _ w _ (get_file_in E base (f_dir src))).
    unfold plain_file. cbn [f_abs].
    now rewrite (sibling_resolves E _ _ _ _ _ Hw Hsrc Hb). }
  destruct (get_file_ext_shape E _ _ _ _ Hsrc)
    as [[Hdot Hext] | (stem & Hname & Hstem)].
  - exists (f_name src +:+ ".js"). split; [now left|].
    apply Hrun; [now apply plain_js | now rewrite Hext].
  - destruct (Str.eqb (f_ext src) "") eqn:He.
    + apply String.eqb_eq in He.
      exists (f_name src +:+ ".js"). split; [now left|].
      apply Hrun; [now apply plain_js | reflexivity].
    + assert (Hss : Str.has_char "/" stem = false).
      { rewrite Hname, has_char_app in Hslash.
        now apply orb_false_elim in Hslash. }
      exists (stem +:+ ".js"). split.
      * right. split; [now apply String.eqb_neq|]. now exists stem.
      * apply Hrun; [now apply plain_js|].
        cbn [negb]. rewrite Hname.
        change (stem +:+ "." +:+ f_ext src)
          with (stem +:+ ("." +:+ f_ext src)).
        rewrite <- app_assoc_str, drop_end_app, app_assoc_str.
        reflexivity.
Qed.

Lemma compile_coffee_default_target_witness :
  exists base,
    ((f_ext Coffee.app = "" /\ base = f_name Coffee.app +:+ ".js")
     \/ (f_ext Coffee.app <> ""
         /\ exists stem,
              f_name Coffee.app = stem +:+ "." +:+ f_ext Coffee.app
              /\ Str.has_char "." stem = false
              /\ base = stem +:+ ".js"))
    /\ compile_coffee Demo.E Scenario.repo_link Scenario.commit tmpdir
         Coffee.row (JDict []) Scenario.w_fetched
       = bind (lift (check_file Demo.E (f_abs Coffee.app) tmpdir)) (fun _ =>
         bind (lift (row_type Coffee.row)) (fun _ =>
         bind (sh Demo.E ("coffee -c -p '" +:+ f_abs Coffee.app +:+ "' > '"
                          +:+ Path.join (f_dir Coffee.app) base +:+ "'"))
           (fun _ => ret tt))) Scenario.w_fetched.
Proof.
  apply (compile_coffee_default_target Demo.E Scenario.repo_link
           Scenario.commit tmpdir Coffee.row (JDict []) "js/app.min.coffee"
           Coffee.app Scenario.w_fetched).
  - reflexivity.
  - reflexivity.
  - vm_compute. reflexivity.
  - reflexivity.
Defined.

(** ** The access check accepts what is below the root *)

Lemma endswith_snoc (s : string) (c : ascii) :
  Str.endswith_char s c = true -> exists s', s = s' +:+ String c "".
Proof.
  induction s as [|a s IH]; [discriminate|].
  cbn [Str.endswith_char]. destruct s as [|b s].
  - intros H. apply Ascii.eqb_eq in H as ->. now exists "".
  - intros H. destruct (IH H) as [s' Hs]. exists (String a s').
    rewrite app_cons_str. now f_equal.
Qed.

Lemma startswith_cons (a : ascii) (s : string) :
  Str.startswith (String a s) "/" = Ascii.eqb a "/".
Proof.
  cbn [Str.startswith]. rewrite startswith_empty, andb_true_r.
  apply Ascii.eqb_sym.
Qed.

Lemma join_rel (a n : string) :
  Str.startswith n "/" = false -> a <> "" ->
  Path.join a n
  = a +:+ (if Str.endswith_char a "/" then "" else "/") +:+ n.
Proof.
  intros Hn Ha. unfold Path.join. rewrite Hn.
  apply String.eqb_neq in Ha. unfold Str.eqb. rewrite Ha. cbn [orb].
  now destruct (Str.endswith_char a "/").
Qed.

Lemma join_assoc_rel (wd path n : string) :
  wd <> "" -> Path.isabs path = false -> Str.startswith n "/" = false ->
  n <> "" ->
  Path.isabs (Path.join path n) = false
  /\ Path.join wd (Path.join path n) = Path.join (Path.join wd path) n.
Proof.
  intros Hwd Hp Hn Hn0. unfold Path.isabs in *.
  destruct path as [|a path].
  - assert (Hj : Path.join "" n = n) by (unfold Path.join; now rewrite Hn).
    rewrite Hj. split; [exact Hn|].
    rewrite (join_rel wd n Hn Hwd).
    assert (He : Path.join wd "" = wd +:+ (if Str.endswith_char wd "/"
                                           then "" else "/")).
    { unfold Path.join. cbn [Str.startswith].
      apply String.eqb_neq in Hwd. unfold Str.eqb. rewrite Hwd. cbn [orb].
      destruct (Str.endswith_char wd "/"); [|reflexivity].
      now rewrite !app_nil_r_str. }
    rewrite He. destruct (Str.endswith_char wd "/") eqn:Hs.
    + rewrite app_nil_r_str. rewrite (join_rel wd n Hn Hwd), Hs. reflexivity.
    + rewrite join_rel; [|exact Hn | now apply app_nonempty_r].
      rewrite endswith_app by discriminate. cbn [Str.endswith_char].
      rewrite Ascii.eqb_refl. now rewrite !app_assoc_str.
  - assert (Hne : String a path <> "") by discriminate.
    rewrite (join_rel _ n Hn Hne).
    set (s1 := if Str.endswith_char (String a path) "/" then "" else "/").
    split.
    + rewrite app_cons_str, startswith_cons.
      now rewrite startswith_cons in Hp.
    + assert (Hrel : Str.startswith (String a path +:+ s1 +:+ n) "/" = false).
      { rewrite app_cons_str, startswith_cons.
        now rewrite startswith_cons in Hp. }
      rewrite (join_rel wd _ Hrel Hwd), (join_rel wd _ Hp Hwd).
      set (s0 := if Str.endswith_char wd "/" then "" else "/").
      rewrite join_rel; [|exact Hn|].
      * rewrite (endswith_app wd (s0 +:+ String a path))
          by (apply app_nonempty_r, Hne).
        rewrite (endswith_app s0 (String a path) "/" Hne).
        fold s1. now rewrite !app_assoc_str.
      * apply app_nonempty_r, app_nonempty_r, Hne.
Qed.
Lemma sw2 (s : string) :
  Str.startswith s "//"
  = match s with
    | String a (String b _) => Ascii.eqb a "/" && Ascii.eqb b "/"
    | _ => false
    end.
Proof.
  destruct s as [|a [|b s]]; cbn [Str.startswith]; try reflexivity.
  - now rewrite andb_false_r.
  - now rewrite startswith_empty, andb_true_r, !(Ascii.eqb_sym "/").
Qed.

Lemma sw3 (s : string) :
  Str.startswith s "///"
  = match s with
    | String a (String b (String c _)) =>
        Ascii.eqb a "/" && Ascii.eqb b "/" && Ascii.eqb c "/"
    | _ => false
    end.
Proof.
  destruct s as [|a [|b [|c s]]]; cbn [Str.startswith]; try reflexivity.
  - now rewrite andb_false_r.
  - now rewrite !andb_false_r.
  - rewrite startswith_empty, andb_true_r, !(Ascii.eqb_sym "/").
    now rewrite andb_assoc.
Qed.

Lemma initial_slashes_join (p n : string) :
  Str.startswith p "/" = true -> Str.startswith n "/" = false ->
  initial_slashes (Path.join p n) = initial_slashes p.
Proof.
  intros Hp Hn.
  assert (Hp0 : p <> "") by (intros ->; discriminate).
  rewrite (join_rel p n Hn Hp0). unfold initial_slashes. rewrite !sw2, !sw3.
  destruct p as [|a [|b [|c p]]]; [discriminate| | |].
  - cbn [Str.endswith_char]. rewrite startswith_cons in Hp. rewrite Hp.
    change (String a "" +:+ "" +:+ n) with (String a n).
    destruct n as [|d [|e n]]; cbv beta iota; try reflexivity.
    + rewrite startswith_cons in Hn. now rewrite Hn, andb_false_r.
    + rewrite startswith_cons in Hn. now rewrite Hn, andb_false_r.
  - cbn [Str.endswith_char].
    destruct (Ascii.eqb b "/") eqn:Hb.
    + change (String a (String b "") +:+ "" +:+ n) with (String a (String b n)).
      cbv beta iota. rewrite Hb. destruct n as [|d n]; [reflexivity|].
      rewrite startswith_cons in Hn. now rewrite Hn, andb_false_r.
    + change (String a (String b "") +:+ "/" +:+ n)
        with (String a (String b (String "/" n))).
      cbv beta iota. now rewrite Hb, !andb_false_r.
  - rewrite !app_cons_str. reflexivity.
Qed.

Lemma join_app (A B : list string) :
  A <> [] -> B <> [] ->
  Str.join "/" (A ++ B) = Str.join "/" A +:+ "/" +:+ Str.join "/" B.
Proof.
  intros HA HB. induction A as [|a A IH]; [now destruct HA|].
  destruct A as [|a' A].
  - destruct B as [|b B]; [now destruct HB | reflexivity].
  - change (Str.join "/" ((a :: a' :: A) ++ B))
      with (a +:+ "/" +:+ Str.join "/" ((a' :: A) ++ B)).
    rewrite IH by discriminate.
    change (Str.join "/" (a :: a' :: A))
      with (a +:+ "/" +:+ Str.join "/" (a' :: A)).
    now rewrite !app_assoc_str.
Qed.

Lemma canonical_below (k : nat) (C0 comps : list string) :
  comps <> [] ->
  Str.startswith (canonical k (C0 ++ comps)) (canonical k C0) = true.
Proof.
  intros Hc. unfold canonical. destruct C0 as [|c C0].
  - cbn [app Str.join]. rewrite app_nil_r_str. apply startswith_app.
  - rewrite join_app by (discriminate || assumption).
    rewrite <- app_assoc_str. apply startswith_app.
Qed.

Lemma split_join_path (p : string) (comps : list string) :
  p <> "" -> comps <> [] ->
  Forall (fun c => Spec.plain_name c = true) comps ->
  exists L,
    Str.split "/" (Path.join p (Str.join "/" comps)) = L ++ comps
    /\ (Str.split "/" p = L \/ Str.split "/" p = L ++ [""]).
Proof.
  intros Hp Hne Hc.
  rewrite (join_rel p _ (join_not_abs _ Hc) Hp).
  destruct (Str.endswith_char p "/") eqn:He.
  - destruct (endswith_snoc _ _ He) as [p' ->].
    exists (Str.split "/" p'). split.
    + rewrite app_assoc_str.
      change (String "/" "" +:+ "" +:+ Str.join "/" comps)
        with (String "/" (Str.join "/" comps)).
      now rewrite str_split_app, split_join.
    + right. now rewrite str_split_app.
  - exists (Str.split "/" p). split; [|now left].
    change ("/" +:+ Str.join "/" comps) with (String "/" (Str.join "/" comps)).
    now rewrite str_split_app, split_join.
Qed.

(** Resolving a relative name of plain components below [path] continues
    the resolved [path] by these components. *)
Lemma abspath_join_below (wd path : string) (comps : list string) :
  Path.isabs wd = true -> comps <> [] ->
  Forall (fun c => Spec.plain_name c = true) comps ->
  exists k C0,
    Path.abspath wd path = canonical k C0
    /\ Path.abspath wd (Path.join path (Str.join "/" comps))
       = canonical k (C0 ++ comps).
Proof.
  intros Hw Hne Hc. set (n := Str.join "/" comps).
  pose proof (join_not_abs _ Hc) as Hn. fold n in Hn.
  assert (Hn0 : n <> "") by (apply (join_shape comps (plain_good _ Hc) Hne)).
  assert (Hwd : wd <> "") by (intros ->; discriminate).
  set (p := if Path.isabs path then path else Path.join wd path).
  assert (Hp : Str.startswith p "/" = true).
  { unfold p. destruct (Path.isabs path) eqn:H; [exact H | now apply join_abs]. }
  assert (Hp0 : p <> "") by (intros H; rewrite H in Hp; discriminate).
  assert (HX : (if Path.isabs (Path.join path n) then Path.join path n
                else Path.join wd (Path.join path n)) = Path.join p n).
  { unfold p. destruct (Path.isabs path) eqn:H.
    - assert (H0 : path <> "") by (intros H'; rewrite H' in H; discriminate).
      assert (Ha : Path.isabs (Path.join path n) = true).
      { unfold Path.isabs in *. rewrite (join_rel path n Hn H0).
        destruct path as [|a path]; [discriminate|].
        rewrite app_cons_str, startswith_cons.
        now rewrite startswith_cons in H. }
      now rewrite Ha.
    - destruct (join_assoc_rel wd path n Hwd H Hn Hn0) as [-> Hj]. exact Hj. }
  assert (HXa : Str.startswith (Path.join p n) "/" = true).
  { rewrite (join_rel p n Hn Hp0). destruct p as [|a p']; [discriminate|].
    rewrite app_cons_str, startswith_cons. now rewrite startswith_cons in Hp. }
  unfold Path.abspath. fold p. rewrite HX.
  rewrite (normpath_abs_eq _ Hp), (normpath_abs_eq _ HXa).
  rewrite (initial_slashes_join p n Hp Hn).
  assert (Hk : exists k, initial_slashes p = S k).
  { unfold initial_slashes. destruct (_ && _); eauto. }
  destruct Hk as [k Hk]. rewrite Hk.
  destruct (split_join_path p comps Hp0 Hne Hc) as (L & HL & HP).
  fold n in HL. rewrite HL, fold_left_app. rewrite (fold_plain _ comps _ Hc).
  exists (S k), (fold_left (Path.normpath_step (S k)) L []).
  split; [|reflexivity]. f_equal.
  destruct HP as [-> | ->]; [reflexivity|].
  now rewrite fold_left_app.
Qed.

(** X20.  The access check accepts every file named, relative to the
    root, by plain components: a name without [.], [..] and empty
    components, which cannot leave the root, is never refused. *)
Theorem check_file_accepts_below (E : env) (path name : string)
    (substitutions : json) (comps : list string) (d : fdesc) :
  Path.isabs (cwd E) = true ->
  get_substituted_path name substitutions = Ok (Str.join "/" comps) ->
  comps <> [] ->
  Forall (fun c => Spec.plain_name c = true) comps ->
  get_file E name (Some path) substitutions = Ok d ->
  check_file E (f_abs d) path = Ok tt.
Proof.
  intros Hw Hsub Hne Hc Hd. unfold get_file in Hd. rewrite Hsub in Hd.
  cbn [rbind] in Hd. destruct (Path.split _) as [dir base] in Hd.
  injection Hd as <-. cbn [f_abs].
  destruct (abspath_join_below (cwd E) path comps Hw Hne Hc)
    as (k & C0 & Hroot & Hfile).
  unfold check_file. rewrite get_file_plain. unfold rbind, plain_file.
  cbn [f_abs]. rewrite Hroot, Hfile, canonical_below by exact Hne.
  reflexivity.
Qed.

Lemma check_file_accepts_below_witness :
  check_file Demo.E (f_abs Scenario.a_js) tmpdir = Ok tt.
Proof.
  apply (check_file_accepts_below Demo.E tmpdir "[[scripts]]/a.js"
           (JDict [("scripts", JStr "js")]) ["js"; "a.js"] Scenario.a_js).
  - reflexivity.
  - vm_compute. reflexivity.
  - discriminate.
  - repeat constructor.
  - vm_compute. reflexivity.
Defined.

(** ** replace_keywords *)

Lemma concat_readlines (s : string) : concat_str (readlines s) = s.
Proof.
  induction s as [|c s IH]; [reflexivity|].
  cbn [readlines]. destruct (Ascii.eqb c lf).
  - cbn [concat_str]. now rewrite IH.
  - destruct (readlines s) as [|l ls]; cbn [concat_str] in *.
    + now rewrite <- IH.
    + rewrite app_cons_str. now rewrite IH.
Qed.

Lemma startswith_app_l (s t p : string) :
  Str.startswith s p = true -> Str.startswith (s +:+ t) p = true.
Proof.
  intros H. apply startswith_inv in H as [u ->].
  rewrite app_assoc_str. apply startswith_app.
Qed.

Lemma contains_app_false (a b k : string) :
  Str.contains (a +:+ b) k = false ->
  Str.contains a k = false /\ Str.contains b k = false.
Proof.
  induction a as [|c a IH]; intros H.
  - change ("" +:+ b) with b in H. split; [|exact H].
    destruct k as [|x k]; [now destruct b|reflexivity].
  - rewrite app_cons_str in H. cbn [Str.contains] in H.
    apply orb_false_elim in H as [H1 H2]. destruct (IH H2) as [Ha Hb].
    split; [|exact Hb]. cbn [Str.contains]. rewrite Ha, orb_false_r.
    destruct (Str.startswith (String c a) k) eqn:Hs; [|reflexivity].
    rewrite <- app_cons_str in H1.
    now rewrite (startswith_app_l _ b _ Hs) in H1.
Qed.

Lemma readlines_contains (s k : string) :
  Str.contains s k = false ->
  Forall (fun l => Str.contains l k = false) (readlines s).
Proof.
  induction s as [|c s IH]; intros H; [constructor|].
  assert (Hs : Str.contains s k = false)
    by (cbn [Str.contains] in H; now apply orb_false_elim in H).
  specialize (IH Hs). pose proof (concat_readlines s) as Hcat.
  cbn [readlines]. destruct (Ascii.eqb c lf).
  - constructor; [|exact IH].
    change (String c s) with (String c "" +:+ s) in H.
    now apply contains_app_false in H.
  - destruct (readlines s) as [|l ls]; cbn [concat_str] in Hcat.
    + subst s. now constructor.
    + subst s. inversion IH as [|? ? Hl Hls]. constructor; [|exact Hls].
      rewrite <- app_cons_str in H.
      now apply contains_app_false in H.
Qed.

(** A line none of the keys occurs in goes through the inner loop as it
    is. *)
Lemma replace_pairs_absent (pairs : list json) (line : string) :
  Forall (fun item => exists k v, item = JList [JStr k; JStr v]
                                  /\ Str.contains line k = false) pairs ->
  replace_pairs pairs line = Ok line.
Proof.
  induction 1 as [|item pairs (k & v & -> & Hk) _ IH]; [reflexivity|].
  cbn [replace_pairs unpack_pair rbind]. now rewrite replace_absent.
Qed.

Lemma lines_unchanged (pairs : list json) (lines : list string) :
  Forall (fun l =>
            Forall (fun item => exists k v, item = JList [JStr k; JStr v]
                                            /\ Str.contains l k = false) pairs)
    lines ->
  mapM (replace_pairs pairs) lines = Ok lines.
Proof.
  induction 1 as [|l lines Hl _ IH]; [reflexivity|].
  cbn [mapM]. now rewrite (replace_pairs_absent _ _ Hl), IH.
Qed.

Lemma read_text_world (E : env) (p : string) (w : world) :
  read_text E p w
  = (rbind (OS.read_file (cwd E) p (fs w)) (fun c => Ok (universal_newlines c)),
     w).
Proof. unfold read_text, on_fs. now destruct w. Qed.

(** Loading the pairs changes nothing. *)
Lemma load_pairs_world (E : env) (templates : list fdesc) (w : world) :
  snd (load_pairs E templates w) = w.
Proof.
  induction templates as [|t rest IH]; [reflexivity|].
  cbn [load_pairs]. unfold bind at 1. rewrite read_text_world.
  destruct (rbind _ _) as [text|e]; [|reflexivity].
  unfold bind, lift, ret.
  destruct (json_loads E text) as [x|e]; [|reflexivity].
  destruct (extend_items x) as [items|e]; [|reflexivity].
  destruct (load_pairs E rest w) as [[more|e] w1]; cbn [snd] in *;
    now subst.
Qed.

(** What [replace_keywords] writes: when the pairs can be loaded, the new
    file opened, the source read and the two are not one file, the new file
    holds the lines of the source, each after the replacements, put
    together. *)
Lemma replace_keywords_written (E : env) (src : fdesc)
    (templates : list fdesc) (w : world) (pairs : list json) (f1 : files)
    (content : string) (lines : list string) :
  fst (load_pairs E templates w) = Ok pairs ->
  OS.write_file (cwd E) (f_abs (plain_file E (f_abs src +:+ "__valued"))) ""
    (fs w) = (Ok tt, f1) ->
  OS.read_file (cwd E) (f_abs src) (fs w) = Ok content ->
  OS.samefile (cwd E) (fs w) (f_abs src)
    (f_abs (plain_file E (f_abs src +:+ "__valued"))) = false ->
  mapM (replace_pairs pairs) (readlines (universal_newlines content))
    = Ok lines ->
  exists w',
    replace_keywords E src templates w
      = (Ok (plain_file E (f_abs src +:+ "__valued")), w')
    /\ OS.read_file (cwd E) (f_abs (plain_file E (f_abs src +:+ "__valued")))
         (fs w')
       = Ok (concat_str lines).
Proof.
  intros Hl Hw Hr0 Hsame Hlines.
  pose proof (read_after_write _ _ _ _ _ _ _ Hw Hr0 Hsame) as Hr.
  destruct (write_again _ _ _ (concat_str lines) _ _ Hw) as (f2 & Hw2 & Hr2).
  assert (Hload : load_pairs E templates w = (Ok pairs, w)).
  { pose proof (load_pairs_world E templates w) as Hs.
    destruct (load_pairs E templates w) as [r w1]. cbn [fst snd] in *.
    now subst. }
  unfold replace_keywords. rewrite (bind_ok _ _ _ _ _ Hload).
  rewrite (bind_lift_ok _ _ _ _ (get_file_plain E _)).
  unfold bind at 1. unfold on_fs at 1. rewrite Hw.
  unfold bind at 1. rewrite read_text_world. cbn [fs]. rewrite Hr.
  cbn [rbind]. rewrite (bind_lift_ok _ _ _ _ Hlines).
  unfold bind, on_fs, ret. cbn [fs]. rewrite Hw2.
  eexists. split; [reflexivity|]. cbn [fs]. exact Hr2.
Qed.

(** X21.  Keys that do not occur in the text leave it as it is: when the
    pairs can be loaded, the new file [<src>__valued] opened, the source
    read, the two are not one file, and no key of the pairs occurs in the
    text of the source, [replace_keywords] returns the new file and that
    file holds the text of the source, line ends turned into line
    feeds. *)
Theorem absent_keywords_keep_text (E : env) (src : fdesc)
    (templates : list fdesc) (w : world) (pairs : list json) (f1 : files)
    (content : string) :
  fst (load_pairs E templates w) = Ok pairs ->
  OS.write_file (cwd E) (f_abs (plain_file E (f_abs src +:+ "__valued"))) ""
    (fs w) = (Ok tt, f1) ->
  OS.read_file (cwd E) (f_abs src) (fs w) = Ok content ->
  OS.samefile (cwd E) (fs w) (f_abs src)
    (f_abs (plain_file E (f_abs src +:+ "__valued"))) = false ->
  Forall (fun item => exists k v,
            item = JList [JStr k; JStr v]
            /\ Str.contains (universal_newlines content) k = false) pairs ->
  exists w',
    replace_keywords E src templates w
      = (Ok (plain_file E (f_abs src +:+ "__valued")), w')
    /\ OS.read_file (cwd E) (f_abs (plain_file E (f_abs src +:+ "__valued")))
         (fs w')
       = Ok (universal_newlines content).
Proof.
  intros Hl Hw Hr Hsame H.
  cut (mapM (replace_pairs pairs) (readlines (universal_newlines content))
       = Ok (readlines (universal_newlines content))).
  { intros Hlines.
    destruct (replace_keywords_written E src templates w pairs f1 content _
                Hl Hw Hr Hsame Hlines) as (w' & H1 & H2).
    exists w'. split; [exact H1|]. now rewrite H2, concat_readlines. }
  apply lines_unchanged.
  assert (Hall : forall k, Str.contains (universal_newlines content) k = false ->
                   Forall (fun l => Str.contains l k = false)
                     (readlines (universal_newlines content)))
    by (intros k; apply readlines_contains).
  induction (readlines (universal_newlines content)) as [|l ls IHl];
    [constructor|].
  constructor.
  - eapply List.Forall_impl; [|exact H].
    intros item (k & v & -> & Hk). exists k, v. split; [reflexivity|].
    specialize (Hall k Hk). now inversion Hall.
  - apply IHl. intros k Hk. specialize (Hall k Hk). now inversion Hall.
Qed.

Lemma absent_keywords_keep_text_witness :
  exists w',
    replace_keywords Keywords.E Keywords.ab_js [Keywords.version_json]
      Keywords.w_templates
      = (Ok (plain_file Keywords.E (f_abs Keywords.ab_js +:+ "__valued")), w')
    /\ OS.read_file (cwd Keywords.E)
         (f_abs (plain_file Keywords.E (f_abs Keywords.ab_js +:+ "__valued")))
         (fs w')
       = Ok (universal_newlines Keywords.ab_text).
Proof.
  apply (absent_keywords_keep_text Keywords.E Keywords.ab_js
           [Keywords.version_json] Keywords.w_templates Keywords.version_pairs
           (<[f_abs Keywords.ab_js +:+ "__valued" := File ""]>
              (fs Keywords.w_templates))
           Keywords.ab_text).
  - vm_compute. reflexivity.
  - vm_compute. reflexivity.
  - vm_compute. reflexivity.
  - vm_compute. reflexivity.
  - repeat constructor. exists "@VERSION@", "1.2".
    split; [reflexivity | vm_compute; reflexivity].
Defined.

Lemma contains_inv (s p : string) :
  Str.contains s p = true -> exists a b, s = a +:+ p +:+ b.
Proof.
  induction s as [|c s IH]; cbn [Str.contains]; intros H.
  - rewrite orb_false_r in H. apply startswith_inv in H as [t Ht].
    now exists "", t.
  - apply orb_prop in H as [H | H].
    + apply startswith_inv in H as [t Ht]. now exists "", t.
    + destruct (IH H) as (a & b & ->). exists (String c a), b.
      now rewrite app_cons_str.
Qed.

(** A line read holds no line feed but at its end. *)
Lemma readlines_shape (s : string) :
  Forall (fun l => exists body tail,
            l = body +:+ tail /\ Str.has_char lf body = false
            /\ (tail = "" \/ tail = nl))
    (readlines s).
Proof.
  induction s as [|c s IH]; [constructor|].
  cbn [readlines]. destruct (Ascii.eqb c lf) eqn:Hc.
  - constructor; [|exact IH]. apply Ascii.eqb_eq in Hc as ->.
    exists "", nl. repeat split. now right.
  - destruct (readlines s) as [|l ls].
    + constructor; [|constructor]. exists (String c ""), "".
      repeat split; [cbn [Str.has_char]; now rewrite Hc | now left].
    + inversion IH as [|? ? (body & tail & -> & Hb & Ht) Hls].
      constructor; [|exact Hls]. exists (String c body), tail.
      repeat split; [cbn [Str.has_char]; now rewrite Hc, Hb | exact Ht].
Qed.

Lemma no_inner_lf (body tail u v : string) :
  Str.has_char lf body = false -> tail = "" \/ tail = nl ->
  body +:+ tail = u +:+ nl +:+ v -> v = "".
Proof.
  revert u. induction body as [|c body IH]; intros u Hb Ht H.
  - change ("" +:+ tail) with tail in H.
    destruct Ht as [-> | ->]; destruct u as [|a u].
    + change ("" +:+ nl +:+ v) with (String lf v) in H. discriminate.
    + rewrite app_cons_str in H. discriminate.
    + change ("" +:+ nl +:+ v) with (String lf v) in H.
      unfold nl in H. now injection H.
    + rewrite app_cons_str in H. unfold nl at 1 in H. injection H as _ H.
      destruct u as [|b u];
        [change ("" +:+ nl +:+ v) with (String lf v) in H
        |rewrite app_cons_str in H]; discriminate.
  - apply has_char_cons in Hb as [Hc Hb]. rewrite app_cons_str in H.
    destruct u as [|a u].
    + change ("" +:+ nl +:+ v) with (String lf v) in H.
      injection H as -> _. now rewrite Ascii.eqb_refl in Hc.
    + rewrite app_cons_str in H. injection H as _ H. now apply (IH u).
Qed.

Lemma line_excludes_break (l x y : string) :
  (exists body tail, l = body +:+ tail /\ Str.has_char lf body = false
                     /\ (tail = "" \/ tail = nl)) ->
  y <> "" -> Str.contains l (x +:+ nl +:+ y) = false.
Proof.
  intros (body & tail & -> & Hb & Ht) Hy.
  destruct (Str.contains _ _) eqn:Hc; [|reflexivity].
  apply contains_inv in Hc as (a & b & Hc).
  rewrite !app_assoc_str, <- (app_assoc_str a x) in Hc.
  apply (no_inner_lf _ _ _ _ Hb Ht) in Hc.
  destruct y; [now destruct Hy | discriminate].
Qed.

(** X22.  The replacement is made line by line, so a key that spans a
    line break is never replaced: when the pairs can be loaded, the new
    file [<src>__valued] opened, the source read, the two are not one file,
    and every key has a line feed followed by more text,
    [replace_keywords] returns the new file and that file holds the text
    of the source, line ends turned into line feeds, whether or not the
    keys occur in it. *)
Theorem keywords_across_lines_kept (E : env) (src : fdesc)
    (templates : list fdesc) (w : world) (pairs : list json) (f1 : files)
    (content : string) :
  fst (load_pairs E templates w) = Ok pairs ->
  OS.write_file (cwd E) (f_abs (plain_file E (f_abs src +:+ "__valued"))) ""
    (fs w) = (Ok tt, f1) ->
  OS.read_file (cwd E) (f_abs src) (fs w) = Ok content ->
  OS.samefile (cwd E) (fs w) (f_abs src)
    (f_abs (plain_file E (f_abs src +:+ "__valued"))) = false ->
  Forall (fun item => exists x y v,
            item = JList [JStr (x +:+ nl +:+ y); JStr v] /\ y <> "") pairs ->
  exists w',
    replace_keywords E src templates w
      = (Ok (plain_file E (f_abs src +:+ "__valued")), w')
    /\ OS.read_file (cwd E) (f_abs (plain_file E (f_abs src +:+ "__valued")))
         (fs w')
       = Ok (universal_newlines content).
Proof.
  intros Hl Hw Hr Hsame H.
  cut (mapM (replace_pairs pairs) (readlines (universal_newlines content))
       = Ok (readlines (universal_newlines content))).
  { intros Hlines.
    destruct (replace_keywords_written E src templates w pairs f1 content _
                Hl Hw Hr Hsame Hlines) as (w' & H1 & H2).
    exists w'. split; [exact H1|]. now rewrite H2, concat_readlines. }
  apply lines_unchanged.
  eapply List.Forall_impl; [|apply readlines_shape].
  intros l Hl'. eapply List.Forall_impl; [|exact H].
  intros item (x & y & v & -> & Hy). exists (x +:+ nl +:+ y), v.
  split; [reflexivity | now apply line_excludes_break].
Qed.

(** The key of [break.json] is the whole text of [ab.js], which is kept. *)
Lemma keywords_across_lines_kept_witness :
  exists w',
    replace_keywords Keywords.E Keywords.ab_js [Keywords.break_json]
      Keywords.w_templates
      = (Ok (plain_file Keywords.E (f_abs Keywords.ab_js +:+ "__valued")), w')
    /\ OS.read_file (cwd Keywords.E)
         (f_abs (plain_file Keywords.E (f_abs Keywords.ab_js +:+ "__valued")))
         (fs w')
       = Ok (universal_newlines Keywords.ab_text).
Proof.
  apply (keywords_across_lines_kept Keywords.E Keywords.ab_js
           [Keywords.break_json] Keywords.w_templates Keywords.break_pairs
           (<[f_abs Keywords.ab_js +:+ "__valued" := File ""]>
              (fs Keywords.w_templates))
           Keywords.ab_text).
  - vm_compute. reflexivity.
  - vm_compute. reflexivity.
  - vm_compute. reflexivity.
  - vm_compute. reflexivity.
  - repeat constructor. exists "var a;", "var b;", "var c;".
    split; [reflexivity | discriminate].
Defined.

(** ** The lines of the header *)

Lemma replicate_length (n : nat) (c : ascii) :
  String.length (Str.replicate n c) = n.
Proof. induction n as [|n IH]; cbn; [reflexivity | now rewrite IH]. Qed.

Lemma center_length (width : nat) (s : string) :
  String.length (Str.center width s) = Nat.max width (String.length s).
Proof.
  unfold Str.center. destruct (width <=? String.length s)%nat eqn:Hle.
  - apply Nat.leb_le in Hle. lia.
  - apply Nat.leb_gt in Hle.
    rewrite !length_app_str, !replicate_length.
    set (marg := width - String.length s).
    assert (Hm : 1 <= marg) by (unfold marg; lia).
    pose proof (Nat.div_mod_eq marg 2) as Hd.
    pose proof (Nat.mod_upper_bound marg 2) as Hu.
    destruct (Nat.odd marg && Nat.odd width); unfold marg in *; lia.
Qed.

(** X23.  The header has eleven lines.  The five lines of the banner, the
    two empty lines and the line that announces the link are 55 characters
    wide; the lines of the link, of the commit hash and of the time are
    padded to 55 characters, and keep their own length when they are
    longer: no line is cut. *)
Theorem header_lines_width (E : env) (repo_link commit : string) (t : Z) :
  List.map String.length (header_lines E repo_link commit t)
  = [55; 55; 55; 55; 55; 55; 55;
     Nat.max 55 (String.length repo_link);
     55;
     Nat.max 55 (13 + String.length commit);
     Nat.max 55 (String.length ("Deployed at: " +:+ isoformat E t +:+ " ("
                                +:+ Str.of_Z t +:+ ")"))].
Proof.
  unfold header_lines, HEADER_LINES, HEADER_WIDTH.
  cbn [app List.map]. rewrite !center_length.
  rewrite (length_app_str "Commit hash: " commit). reflexivity.
Qed.

(** ** What the status 1 stands for *)

(** X24.  A unit gets the status [1] only when everything succeeded: when
    the row of the unit has the status [1] after [deploy_repo], the fetch
    and the unpacking raised nothing, the instruction document was there,
    and [execute] ran it to its end without an exception. *)
Theorem success_status_sound (E : env) (owner name : string) (w : world) :
  status_of (snd (deploy_repo E owner name w)) owner name = Some 1%Z ->
  exists commit url w1 w2 w3,
    fetch E owner name (begun owner name w) = (Ok (commit, url), w1)
    /\ unpack E owner name w1 = (Ok tt, w2)
    /\ OS.isfile (cwd E) (fs w2) config_file = true
    /\ execute E (Str.drop_end 4 url) commit tmpdir config_name w2
       = (Ok tt, w3).
Proof.
  intros Hst.
  assert (Hstatus : forall exc commit status w1,
            deploy_try E owner name (begun owner name w)
              = (Ok (exc, commit, status), w1) -> status = 1%Z).
  { intros exc commit status w1 Ht.
    rewrite (deploy_repo_steps E _ _ _ _ _ _ _ Ht) in Hst.
    unfold status_of in Hst. cbn [snd db] in Hst.
    rewrite lookup_insert_eq in Hst. cbn in Hst. congruence. }
  revert Hstatus. unfold deploy_try, bind, try, ret.
  destruct (fetch E owner name (begun owner name w))
    as [[[commit url]|ex] w1] eqn:Hf; intros Hstatus;
    [|specialize (Hstatus _ _ _ _ eq_refl); discriminate].
  destruct (unpack E owner name w1) as [[[]|ex] w2] eqn:Hu;
    [|specialize (Hstatus _ _ _ _ eq_refl); discriminate].
  revert Hstatus. unfold deploy_config, bind, get_fs, ret.
  destruct (OS.isfile (cwd E) (fs w2) config_file) eqn:Hfile; intros Hstatus;
    [|specialize (Hstatus _ _ _ _ eq_refl); discriminate].
  destruct (execute E (Str.drop_end 4 url) commit tmpdir config_name w2)
    as [[[]|ex] w3] eqn:Hex;
    [|specialize (Hstatus _ _ _ _ eq_refl); discriminate].
  exists commit, url, w1, w2, w3.
  split; [reflexivity|]. split; [exact Hu|]. split; [exact Hfile | exact Hex].
Qed.

Lemma success_status_sound_witness :
  exists commit url w1 w2 w3,
    fetch Demo.E_pkg "<local>" "copy.tgz" (begun "<local>" "copy.tgz" Demo.w_host)
      = (Ok (commit, url), w1)
    /\ unpack Demo.E_pkg "<local>" "copy.tgz" w1 = (Ok tt, w2)
    /\ OS.isfile (cwd Demo.E_pkg) (fs w2) config_file = true
    /\ execute Demo.E_pkg (Str.drop_end 4 url) commit tmpdir config_name w2
       = (Ok tt, w3).
Proof.
  apply (success_status_sound Demo.E_pkg "<local>" "copy.tgz" Demo.w_host).
  vm_compute. reflexivity.
Defined.
